(** * Laravel project MCP server: path sandbox, tree walker, search,
      structural analyzer and usage finder

    A shallow embedding of the file-operation server (the module that
    declares [PROJECT_ROOT], [EXCLUDE_DIRS], [resolvePath], [escapeRegex],
    [shouldExclude], [getFilesRecursively], [buildTree] and the tool
    handlers) together with the properties its specification states.

    JavaScript strings are modelled as [string]; a character is a UTF-16
    code unit of the Latin-1 range 0..255, carried by [ascii].  Arrays are
    lists.  [null] and [undefined] are [None].  A thrown exception is the
    [Err] case of a result type, or [None] where the source catches it
    without looking at it. *)

From Stdlib Require Import Ascii String List Bool Arith Lia.
From Stdlib Require Import Permutation Sorted.
Import ListNotations.

Open Scope string_scope.
Open Scope list_scope.

Set Implicit Arguments.

(* ================================================================== *)
(** * JavaScript string primitives *)
(* ================================================================== *)

Module JsString.

(** [s.startsWith(p)] *)
Fixpoint startsWith (s p : string) {struct p} : bool :=
  match p with
  | EmptyString => true
  | String c p' =>
      match s with
      | EmptyString => false
      | String d s' => Ascii.eqb d c && startsWith s' p'
      end
  end.

(** [s.includes(sub)]: [sub] occurs in [s] as a contiguous substring. *)
Fixpoint includes (s sub : string) : bool :=
  startsWith s sub ||
  match s with
  | EmptyString => false
  | String _ s' => includes s' sub
  end.

(** [s.slice(n)] for [0 <= n]. *)
Fixpoint drop (n : nat) (s : string) : string :=
  match n, s with
  | O, _ => s
  | S _, EmptyString => EmptyString
  | S n', String _ s' => drop n' s'
  end.

(** [s.substring(0, n)] *)
Fixpoint take (n : nat) (s : string) : string :=
  match n, s with
  | O, _ => EmptyString
  | S _, EmptyString => EmptyString
  | S n', String c s' => String c (take n' s')
  end.

(** [s.endsWith(suf)] *)
Definition endsWith (s suf : string) : bool :=
  (String.length suf <=? String.length s)%nat &&
  String.eqb (drop (String.length s - String.length suf) s) suf.

(** White space and line terminators of the Latin-1 range: TAB, LF, VT,
    FF, CR, SP and NBSP.  This is the set [trim] strips and [\s]
    matches. *)
Definition isWhiteSpace (c : ascii) : bool :=
  let n := nat_of_ascii c in
  ((9 <=? n)%nat && (n <=? 13)%nat) || (n =? 32)%nat || (n =? 160)%nat.

Fixpoint trimStart (s : string) : string :=
  match s with
  | EmptyString => EmptyString
  | String c s' => if isWhiteSpace c then trimStart s' else s
  end.

Fixpoint trimEnd (s : string) : string :=
  match s with
  | EmptyString => EmptyString
  | String c s' =>
      match trimEnd s' with
      | EmptyString => if isWhiteSpace c then EmptyString
                       else String c EmptyString
      | t => String c t
      end
  end.

(** [s.trim()] *)
Definition trim (s : string) : string := trimEnd (trimStart s).

(** [s.split(sep)] for a one-character separator: never empty. *)
Fixpoint split (sep : ascii) (s : string) : list string :=
  match s with
  | EmptyString => [EmptyString]
  | String c s' =>
      if Ascii.eqb c sep then EmptyString :: split sep s'
      else match split sep s' with
           | h :: t => String c h :: t
           | [] => [String c EmptyString]
           end
  end.

(** [parts.join(sep)] *)
Fixpoint join (sep : string) (parts : list string) : string :=
  match parts with
  | [] => EmptyString
  | [p] => p
  | p :: rest => p ++ sep ++ join sep rest
  end.

(** Truthiness of a string: only the empty string is falsy. *)
Definition truthy (s : string) : bool :=
  match s with EmptyString => false | _ => true end.

(** [arr.pop()] on a non-empty array of strings. *)
Definition last (l : list string) : string := List.last l EmptyString.

Definition LF : ascii := ascii_of_nat 10.
Definition CR : ascii := ascii_of_nat 13.

End JsString.

Import JsString.

(* ================================================================== *)
(** * Node's [path] module, POSIX flavour *)
(* ================================================================== *)

(** [path.resolve], [path.normalize], [path.join] and [path.relative] are
    library functions of the runtime.  They are modelled on the list of
    segments between separators, which is what the library's
    character-by-character loops compute: an empty segment and ["."] are
    dropped, [".."] removes the segment before it. *)

Module NodePath.

Definition sep : ascii := "/"%char.

Definition isAbsolute (p : string) : bool := startsWith p "/".

(** [normalizeString(path, allowAboveRoot)], on the segments of [path];
    [res] is the stack of segments kept so far, innermost first. *)
Fixpoint normalizeString (allowAboveRoot : bool) (res segs : list string)
  : list string :=
  match segs with
  | [] => rev res
  | seg :: segs' =>
      if String.eqb seg "" || String.eqb seg "." then
        normalizeString allowAboveRoot res segs'
      else if String.eqb seg ".." then
        match res with
        | top :: res' =>
            if String.eqb top ".." then
              normalizeString allowAboveRoot
                (if allowAboveRoot then ".." :: res else res) segs'
            else normalizeString allowAboveRoot res' segs'
        | [] =>
            normalizeString allowAboveRoot
              (if allowAboveRoot then [".."] else []) segs'
        end
      else normalizeString allowAboveRoot (seg :: res) segs'
  end.

Definition normalizeSegments (allowAboveRoot : bool) (p : string)
  : list string :=
  normalizeString allowAboveRoot [] (split sep p).

(** The right-to-left loop of [path.resolve]: arguments are prepended
    until one of them is absolute; empty arguments are skipped. *)
Fixpoint resolveLoop (revArgs : list string) (resolvedPath : string)
  : string * bool :=
  match revArgs with
  | [] => (resolvedPath, false)
  | p :: rest =>
      if String.eqb p "" then resolveLoop rest resolvedPath
      else
        let resolvedPath' := (p ++ "/" ++ resolvedPath)%string in
        if isAbsolute p then (resolvedPath', true)
        else resolveLoop rest resolvedPath'
  end.

(** [path.resolve(...args)] in a process whose working directory is
    [cwd]. *)
Definition resolve (cwd : string) (args : list string) : string :=
  let (resolvedPath, resolvedAbsolute) :=
    resolveLoop (rev args ++ [cwd]) "" in
  let body :=
    join "/" (normalizeSegments (negb resolvedAbsolute) resolvedPath) in
  if resolvedAbsolute then ("/" ++ body)%string
  else if truthy body then body else ".".

(** [path.normalize(p)] *)
Definition normalize (p : string) : string :=
  if String.eqb p "" then "."
  else
    let isAbs := isAbsolute p in
    let trailingSeparator := endsWith p "/" in
    let body := join "/" (normalizeSegments (negb isAbs) p) in
    if String.eqb body "" then
      if isAbs then "/" else if trailingSeparator then "./" else "."
    else
      let body' :=
        if trailingSeparator then (body ++ "/")%string else body in
      if isAbs then ("/" ++ body')%string else body'.

(** [path.join(...args)] *)
Definition joinPaths (args : list string) : string :=
  match filter truthy args with
  | [] => "."
  | parts => normalize (join "/" parts)
  end.

Fixpoint stripCommon (from to : list string)
  : list string * list string :=
  match from, to with
  | f :: from', t :: to' =>
      if String.eqb f t then stripCommon from' to' else (from, to)
  | _, _ => (from, to)
  end.

(** [path.relative(from, to)]: one [".."] for every segment of [from]
    below the common ancestor, then the rest of [to]. *)
Definition relative (cwd from to : string) : string :=
  if String.eqb from to then ""
  else
    let from' := resolve cwd [from] in
    let to' := resolve cwd [to] in
    if String.eqb from' to' then ""
    else
      let (up, down) :=
        stripCommon (normalizeSegments false from')
                    (normalizeSegments false to') in
      join "/" (map (fun _ => "..") up ++ down).

End NodePath.

(* ================================================================== *)
(** * Regular expressions *)
(* ================================================================== *)

(** The pattern language the server uses, with the backtracking semantics
    of the language standard: a matcher takes the current position and a
    continuation, alternatives are tried left to right, quantifiers are
    greedy, and an iteration of a quantifier that consumes nothing is
    rejected.  Patterns without the unicode flag only; lazy quantifiers,
    braces, look-around, back-references and named groups are outside the
    fragment, and the parser says so.  The captures of a group under
    a quantifier are not cleared between iterations; without
    back-references this cannot change whether a pattern matches, and no
    pattern of the server has a group under [*] or [+]. *)

Module RegExp.

Inductive klass : Type := Digit | Word | Space.

(** A member of a bracketed class. *)
Inductive citem : Type :=
| IChar (c : ascii)
| IRange (lo hi : ascii)
| IClass (k : klass) (neg : bool).

Inductive regex : Type :=
| Empty
| Char (c : ascii)
| Dot
| Class (k : klass) (neg : bool)
| CharSet (neg : bool) (items : list citem)
| Bol
| Eol
| WordBoundary (neg : bool)
| Seq (r1 r2 : regex)
| Alt (r1 r2 : regex)
| Group (n : nat) (r : regex)
| Star (r : regex)
| Plus (r : regex)
| Opt (r : regex).

(** ** Characters *)

Definition code (c : ascii) : nat := nat_of_ascii c.

Definition inRange (lo hi n : nat) : bool :=
  (lo <=? n)%nat && (n <=? hi)%nat.

(** Upper-casing of one code unit (the standard's [Canonicalize] for
    patterns without the unicode flag).  The two Latin-1 letters whose
    upper case lies outside the range stay as they are, which leaves
    the induced equivalence on the range unchanged. *)
Definition canonicalize (c : ascii) : ascii :=
  let n := code c in
  if inRange 97 122 n then ascii_of_nat (n - 32)
  else if inRange 224 254 n && negb (n =? 247)%nat then ascii_of_nat (n - 32)
  else c.

Definition toLower (c : ascii) : ascii :=
  let n := code c in
  if inRange 65 90 n then ascii_of_nat (n + 32)
  else if inRange 192 222 n && negb (n =? 215)%nat then ascii_of_nat (n + 32)
  else c.

(** Equality of a pattern character and an input character. *)
Definition charEq (ignoreCase : bool) (c d : ascii) : bool :=
  if ignoreCase then Ascii.eqb (canonicalize c) (canonicalize d)
  else Ascii.eqb c d.

Definition isDigit (c : ascii) : bool := inRange 48 57 (code c).

Definition isWordChar (c : ascii) : bool :=
  let n := code c in
  inRange 97 122 n || inRange 65 90 n || inRange 48 57 n || (n =? 95)%nat.

Definition isLineTerminator (c : ascii) : bool :=
  let n := code c in (n =? 10)%nat || (n =? 13)%nat.

Definition inKlass (k : klass) (c : ascii) : bool :=
  match k with
  | Digit => isDigit c
  | Word => isWordChar c
  | Space => isWhiteSpace c
  end.

Definition inItem (it : citem) (c : ascii) : bool :=
  match it with
  | IChar a => Ascii.eqb a c
  | IRange lo hi => inRange (code lo) (code hi) (code c)
  | IClass k neg => xorb neg (inKlass k c)
  end.

(** The characters that canonicalize like [c]. *)
Definition caseVariants (ignoreCase : bool) (c : ascii) : list ascii :=
  if ignoreCase then [c; canonicalize c; toLower c] else [c].

(** Membership of the input character [c] in a character set given by
    its characteristic function: some member canonicalizes like [c]. *)
Definition inSet (ignoreCase : bool) (A : ascii -> bool) (c : ascii)
  : bool :=
  existsb A (caseVariants ignoreCase c).

(** ** Matching *)

(** A position in the input: the character before it (none at index
    0), the input from it on, and the captures so far, most recent
    first. *)
Record mstate : Type := MState {
  prev : option ascii;
  rest : string;
  caps : list (nat * string)
}.

Definition step (x : mstate) (A : ascii -> bool)
                (k : mstate -> option mstate) : option mstate :=
  match rest x with
  | EmptyString => None
  | String d rest' =>
      if A d then k (MState (Some d) rest' (caps x)) else None
  end.

Definition isWordOpt (c : option ascii) : bool :=
  match c with Some a => isWordChar a | None => false end.

Definition next (x : mstate) : option ascii :=
  match rest x with
  | EmptyString => None
  | String d _ => Some d
  end.

(** The text between two positions of the same input. *)
Definition consumed (x y : mstate) : string :=
  take (String.length (rest x) - String.length (rest y)) (rest x).

Definition progress (x y : mstate) : bool :=
  (String.length (rest y) <? String.length (rest x))%nat.

Definition orElse (a : option mstate) (b : option mstate)
  : option mstate :=
  match a with Some _ => a | None => b end.

(** The iterations of a greedy quantifier without upper bound: one
    more iteration of [body] if it consumes something and the rest
    then matches, the continuation otherwise.  An iteration consumes
    at least one character, so [fuel] beyond the length of the
    remaining input is never used up. *)
Fixpoint repeatMatcher
    (body : (mstate -> option mstate) -> mstate -> option mstate)
    (k : mstate -> option mstate) (fuel : nat) (x : mstate)
    {struct fuel} : option mstate :=
  match fuel with
  | O => k x
  | S fuel' =>
      orElse (body (fun y => if progress x y
                             then repeatMatcher body k fuel' y
                             else None) x)
             (k x)
  end.

Fixpoint m (ic : bool) (r : regex) (k : mstate -> option mstate)
           (x : mstate) {struct r} : option mstate :=
  match r with
  | Empty => k x
  | Char c => step x (charEq ic c) k
  | Dot => step x (fun d => negb (inSet ic isLineTerminator d)) k
  | Class cl neg => step x (fun d => xorb neg (inSet ic (inKlass cl) d)) k
  | CharSet neg items =>
      step x (fun d =>
                xorb neg (inSet ic (fun a => existsb (fun it => inItem it a)
                                                     items) d)) k
  | Bol => match prev x with None => k x | Some _ => None end
  | Eol => match rest x with EmptyString => k x | _ => None end
  | WordBoundary neg =>
      if xorb neg (xorb (isWordOpt (prev x)) (isWordOpt (next x)))
      then k x else None
  | Seq r1 r2 => m ic r1 (fun y => m ic r2 k y) x
  | Alt r1 r2 => orElse (m ic r1 k x) (m ic r2 k x)
  | Group n r1 =>
      m ic r1 (fun y => k (MState (prev y) (rest y)
                                  ((n, consumed x y) :: caps y))) x
  | Opt r1 =>
      orElse (m ic r1 (fun y => if progress x y then k y else None) x)
             (k x)
  | Star r1 =>
      repeatMatcher (m ic r1) k (S (String.length (rest x))) x
  | Plus r1 =>
      m ic r1
        (fun x1 =>
           repeatMatcher (m ic r1) k (S (String.length (rest x1))) x1) x
  end.

(** Try the pattern at every index from the current one on. *)
Fixpoint scan (ic : bool) (r : regex) (before : option ascii)
              (s : string) : option (nat * mstate) :=
  match m ic r Some (MState before s []) with
  | Some y => Some (0, y)
  | None =>
      match s with
      | EmptyString => None
      | String c s' =>
          match scan ic r (Some c) s' with
          | Some (i, y) => Some (S i, y)
          | None => None
          end
      end
  end.

(** The result of a successful match: the matched text and the
    numbered captures. *)
Record matchResult : Type := MatchResult {
  index : nat;
  matched : string;
  captures : list (nat * string)
}.

(** [match[n]] for [n >= 1]: [None] when the group did not take part. *)
Fixpoint lookupCap (n : nat) (cs : list (nat * string)) : option string :=
  match cs with
  | [] => None
  | (i, s) :: cs' => if (i =? n)%nat then Some s else lookupCap n cs'
  end.

Definition cap (mr : matchResult) (n : nat) : option string :=
  lookupCap n (captures mr).

(** [str.match(re)] and [re.exec(str)] for a pattern without the global
    flag. *)
Definition exec (ic : bool) (r : regex) (s : string)
  : option matchResult :=
  match scan ic r None s with
  | Some (i, y) =>
      Some (MatchResult i
              (take (String.length s - i - String.length (rest y))
                    (drop i s))
              (caps y))
  | None => None
  end.

(** ** Regular-expression objects *)

Record flags : Type := Flags { global : bool; ignoreCase : bool }.

Record regexp : Type := RegExpObj {
  source : regex;
  reFlags : flags;
  lastIndex : nat
}.

Definition charBefore (s : string) (i : nat) : option ascii :=
  match i with
  | O => None
  | S j => String.get j s
  end.

Definition setLastIndex (re : regexp) (i : nat) : regexp :=
  RegExpObj (source re) (reFlags re) i.

(** [re.test(s)]: with the global flag the search starts at
    [lastIndex], which is then moved behind the match, or back to 0
    when there is none.  Returns the answer and the updated object. *)
Definition test (re : regexp) (s : string) : bool * regexp :=
  let start := if global (reFlags re) then lastIndex re else 0 in
  if (String.length s <? start)%nat then
    (false, if global (reFlags re) then setLastIndex re 0 else re)
  else
    match scan (ignoreCase (reFlags re)) (source re)
               (charBefore s start) (drop start s) with
    | Some (_, y) =>
        (true,
         if global (reFlags re)
         then setLastIndex re (String.length s - String.length (rest y))
         else re)
    | None =>
        (false, if global (reFlags re) then setLastIndex re 0 else re)
    end.

End RegExp.

(* ================================================================== *)
(** * Pattern syntax *)
(* ================================================================== *)

(** [new RegExp(pattern, flags)] parses the pattern text.  The parser
    below is a recursive descent over the standard's grammar
    (Disjunction, Alternative, Term, Atom, class ranges), with a counter
    for the numbering of capturing groups by their opening parenthesis.
    It tells three outcomes apart.  [Parsed]: the pattern compiles, to a
    syntax tree of [RegExp.regex].  [SyntaxError]: the constructor
    throws, because of a quantifier with nothing to repeat, an unmatched
    parenthesis, a group or a class that is not closed, a class range
    out of order or a backslash at the end.  [Unsupported]: the pattern
    uses a construct outside the fragment, namely a brace, a lazy
    quantifier, a group that opens with [(?] other than [(?:], a
    backslash before a letter or digit other than the escapes below, or
    a class escape as a bound of a range; what the constructor makes of
    these depends in part on the version of the engine, and the model
    gives no answer for them. *)

Module Pattern.
Import RegExp.

Inductive parsed (A : Type) : Type :=
| Parsed (value : A)
| SyntaxError
| Unsupported.

Arguments Parsed {A} value.
Arguments SyntaxError {A}.
Arguments Unsupported {A}.

Definition isChar (c : ascii) (lit : string) : bool :=
  match lit with
  | String d EmptyString => Ascii.eqb c d
  | _ => false
  end.

Definition oneOf (c : ascii) (chars : string) : bool :=
  existsb (Ascii.eqb c) (list_ascii_of_string chars).

(** The fourteen syntax characters of the pattern grammar. *)
Definition isSyntaxCharacter (c : ascii) : bool :=
  oneOf c "^$\.*+?()[]{}|".

Definition isAlnum (c : ascii) : bool :=
  let n := code c in
  inRange 97 122 n || inRange 65 90 n || inRange 48 57 n.

(** The character a control escape such as [\n] denotes. *)
Definition controlEscape (c : ascii) : option ascii :=
  if isChar c "n" then Some (ascii_of_nat 10)
  else if isChar c "t" then Some (ascii_of_nat 9)
  else if isChar c "r" then Some (ascii_of_nat 13)
  else if isChar c "f" then Some (ascii_of_nat 12)
  else if isChar c "v" then Some (ascii_of_nat 11)
  else None.

Definition classEscape (c : ascii) : option (klass * bool) :=
  if isChar c "d" then Some (Digit, false)
  else if isChar c "D" then Some (Digit, true)
  else if isChar c "w" then Some (Word, false)
  else if isChar c "W" then Some (Word, true)
  else if isChar c "s" then Some (Space, false)
  else if isChar c "S" then Some (Space, true)
  else None.

Definition startsWithDigit (s : string) : bool :=
  match s with
  | String d _ => isDigit d
  | EmptyString => false
  end.

(** The character an escape denotes, [e] being the character after
    the backslash and [s] the text after it: a control escape, [\0]
    when no digit follows, or a character that is neither a letter nor
    a digit, which stands for itself.  The other letters and digits
    (back-references, octal, hexadecimal, unicode and control-letter
    escapes, named references, letters that stand for themselves) are
    outside the fragment. *)
Definition characterEscape (e : ascii) (s : string) : parsed ascii :=
  match controlEscape e with
  | Some a => Parsed a
  | None =>
      if isChar e "0" then
        if startsWithDigit s then Unsupported
        else Parsed (ascii_of_nat 0)
      else if isAlnum e then Unsupported
      else Parsed e
  end.

(** The atom after a backslash, outside a class. *)
Definition parseAtomEscape (e : ascii) (s : string) : parsed regex :=
  match classEscape e with
  | Some (k, neg) => Parsed (Class k neg)
  | None =>
      match characterEscape e s with
      | Parsed a => Parsed (Char a)
      | SyntaxError => SyntaxError
      | Unsupported => Unsupported
      end
  end.

(** One atom of a bracketed class. *)
Definition parseClassAtom (s : string) : parsed (citem * string) :=
  match s with
  | EmptyString => SyntaxError
  | String c s' =>
      if isChar c "\" then
        match s' with
        | EmptyString => SyntaxError
        | String e s'' =>
            match classEscape e with
            | Some (k, neg) => Parsed (IClass k neg, s'')
            | None =>
                if isChar e "b" then Parsed (IChar (ascii_of_nat 8), s'')
                else
                  match characterEscape e s'' with
                  | Parsed a => Parsed (IChar a, s'')
                  | SyntaxError => SyntaxError
                  | Unsupported => Unsupported
                  end
            end
        end
      else Parsed (IChar c, s')
  end.

(** A dash that is followed by something other than the closing
    bracket: the atom before it is the lower bound of a range. *)
Definition startsRange (s : string) : bool :=
  match s with
  | String d (String e _) => isChar d "-" && negb (isChar e "]")
  | _ => false
  end.

Definition consItem (it : citem) (res : parsed (list citem * string))
  : parsed (list citem * string) :=
  match res with
  | Parsed (items, s) => Parsed (it :: items, s)
  | SyntaxError => SyntaxError
  | Unsupported => Unsupported
  end.

(** The members of a class up to the closing bracket. *)
Fixpoint parseClassItems (fuel : nat) (s : string)
  : parsed (list citem * string) :=
  match fuel with
  | O => Unsupported
  | S fuel' =>
      match s with
      | EmptyString => SyntaxError
      | String c s' =>
          if isChar c "]" then Parsed ([], s')
          else
            match parseClassAtom s with
            | Parsed (lo, s1) =>
                if startsRange s1 then
                  match parseClassAtom (drop 1 s1) with
                  | Parsed (IChar b, s3) =>
                      match lo with
                      | IChar a =>
                          if (code a <=? code b)%nat
                          then consItem (IRange a b)
                                        (parseClassItems fuel' s3)
                          else SyntaxError
                      | _ => Unsupported
                      end
                  | Parsed (_, _) => Unsupported
                  | SyntaxError => SyntaxError
                  | Unsupported => Unsupported
                  end
                else consItem lo (parseClassItems fuel' s1)
            | SyntaxError => SyntaxError
            | Unsupported => Unsupported
            end
      end
  end.

Definition parseClass (s : string) : parsed (regex * string) :=
  let (neg, body) :=
    match s with
    | String c s' => if isChar c "^" then (true, s') else (false, s)
    | EmptyString => (false, s)
    end in
  match parseClassItems (S (String.length body)) body with
  | Parsed (items, s') => Parsed (CharSet neg items, s')
  | SyntaxError => SyntaxError
  | Unsupported => Unsupported
  end.

(** A greedy quantifier after an atom. *)
Definition parseQuantifier (a : regex) (n : nat) (s : string)
  : parsed (regex * nat * string) :=
  match s with
  | EmptyString => Parsed (a, n, s)
  | String c s' =>
      let isLazy := match s' with
                  | String q _ => isChar q "?"
                  | EmptyString => false
                  end in
      if isChar c "*" then
        if isLazy then Unsupported else Parsed (Star a, n, s')
      else if isChar c "+" then
        if isLazy then Unsupported else Parsed (Plus a, n, s')
      else if isChar c "?" then
        if isLazy then Unsupported else Parsed (Opt a, n, s')
      else if isChar c "{" then Unsupported
      else Parsed (a, n, s)
  end.

(** The closing parenthesis of a group. *)
Definition expectClose (res : parsed (regex * nat * string))
                       (wrap : regex -> regex)
  : parsed (regex * nat * string) :=
  match res with
  | Parsed (r, n, String c s) =>
      if isChar c ")" then Parsed (wrap r, n, s) else SyntaxError
  | Parsed (_, _, EmptyString) => SyntaxError
  | SyntaxError => SyntaxError
  | Unsupported => Unsupported
  end.

Fixpoint parseDisjunction (fuel n : nat) (s : string) {struct fuel}
  : parsed (regex * nat * string) :=
  match fuel with
  | O => Unsupported
  | S fuel' =>
      match parseAlternative fuel' n s with
      | Parsed (r1, n1, String c s1) =>
          if isChar c "|" then
            match parseDisjunction fuel' n1 s1 with
            | Parsed (r2, n2, s2) => Parsed (Alt r1 r2, n2, s2)
            | other => other
            end
          else Parsed (r1, n1, String c s1)
      | other => other
      end
  end

with parseAlternative (fuel n : nat) (s : string) {struct fuel}
  : parsed (regex * nat * string) :=
  match fuel with
  | O => Unsupported
  | S fuel' =>
      match s with
      | EmptyString => Parsed (Empty, n, s)
      | String c _ =>
          if isChar c "|" || isChar c ")" then Parsed (Empty, n, s)
          else
            match parseTerm fuel' n s with
            | Parsed (t, n1, s1) =>
                match parseAlternative fuel' n1 s1 with
                | Parsed (r, n2, s2) => Parsed (Seq t r, n2, s2)
                | other => other
                end
            | other => other
            end
      end
  end

with parseTerm (fuel n : nat) (s : string) {struct fuel}
  : parsed (regex * nat * string) :=
  match fuel with
  | O => Unsupported
  | S fuel' =>
      match s with
      | EmptyString => SyntaxError
      | String c s' =>
          if isChar c "^" then Parsed (Bol, n, s')
          else if isChar c "$" then Parsed (Eol, n, s')
          else
            let assertion :=
              match s' with
              | String e s'' =>
                  if isChar c "\" && isChar e "b"
                  then Some (WordBoundary false, n, s'')
                  else if isChar c "\" && isChar e "B"
                  then Some (WordBoundary true, n, s'')
                  else None
              | EmptyString => None
              end in
            match assertion with
            | Some a => Parsed a
            | None =>
                match parseAtom fuel' n s with
                | Parsed (a, n1, s1) => parseQuantifier a n1 s1
                | other => other
                end
            end
      end
  end

with parseAtom (fuel n : nat) (s : string) {struct fuel}
  : parsed (regex * nat * string) :=
  match fuel with
  | O => Unsupported
  | S fuel' =>
      match s with
      | EmptyString => SyntaxError
      | String c s' =>
          if isChar c "." then Parsed (Dot, n, s')
          else if isChar c "(" then
            match s' with
            | String q s'' =>
                if isChar q "?" then
                  match s'' with
                  | String k s3 =>
                      if isChar k ":" then
                        expectClose (parseDisjunction fuel' n s3)
                                    (fun r => r)
                      else Unsupported
                  | EmptyString => Unsupported
                  end
                else
                  expectClose (parseDisjunction fuel' (S n) s') (Group n)
            | EmptyString => SyntaxError
            end
          else if isChar c "[" then
            match parseClass s' with
            | Parsed (r, s1) => Parsed (r, n, s1)
            | SyntaxError => SyntaxError
            | Unsupported => Unsupported
            end
          else if isChar c "\" then
            match s' with
            | String e s'' =>
                match parseAtomEscape e s'' with
                | Parsed r => Parsed (r, n, s'')
                | SyntaxError => SyntaxError
                | Unsupported => Unsupported
                end
            | EmptyString => SyntaxError
            end
          else if isChar c "{" then Unsupported
          else if oneOf c "*+?)|" then SyntaxError
          else Parsed (Char c, n, s')
      end
  end.

(** The whole pattern; capturing groups are numbered from 1.  What is
    left over after the disjunction begins with a closing parenthesis
    that nothing opened. *)
Definition parsePattern (pattern : string) : parsed regex :=
  match parseDisjunction (4 * String.length pattern + 8) 1 pattern with
  | Parsed (r, _, EmptyString) => Parsed r
  | Parsed (_, _, String _ _) => SyntaxError
  | SyntaxError => SyntaxError
  | Unsupported => Unsupported
  end.

(** The syntax tree of a pattern that compiles. *)
Definition parse (pattern : string) : option regex :=
  match parsePattern pattern with
  | Parsed r => Some r
  | _ => None
  end.

(** A pattern written as a literal in the program text: the parse
    succeeds when the program loads. *)
Definition literal (pattern : string) : regex :=
  match parse pattern with
  | Some r => r
  | None => Empty
  end.

(** [new RegExp(pattern, flags)] for a pattern that compiles. *)
Definition newRegExp (pattern : string) (fl : flags) : option regexp :=
  match parse pattern with
  | Some r => Some (RegExpObj r fl 0)
  | None => None
  end.

End Pattern.

(* ================================================================== *)
(** * The server: configuration, sandbox and tree walker *)
(* ================================================================== *)

(** The outcome of an operation that may throw. *)
Inductive result (A : Type) : Type :=
| Ok (value : A)
| Err (message : string).

Arguments Ok {A} value.
Arguments Err {A} message.

(** A directory entry as [fs.readdir] with [withFileTypes] reports it,
    together with what lies below it.  Everything that is not a
    directory is a [File].  A directory whose listing cannot be read has
    [readable = false]. *)
#[warnings="-register-all"]
Inductive dirent : Type :=
| File (name : string)
| Dir (name : string) (readable : bool) (entries : list dirent).

Definition direntName (e : dirent) : string :=
  match e with
  | File n => n
  | Dir n _ _ => n
  end.

Definition isDirectory (e : dirent) : bool :=
  match e with
  | File _ => false
  | Dir _ _ _ => true
  end.

(** File contents by absolute path; [None] where there is no file, so
    that reading throws. *)
Definition fileStore : Type := string -> option string.

(** The message of the error [fs.readFile] throws for a path that holds
    nothing. *)
Definition noSuchFile (filePath : string) : string :=
  ("ENOENT: no such file or directory, open '" ++ filePath ++ "'")%string.

Definition writeFile (st : fileStore) (path content : string) : fileStore :=
  fun p => if String.eqb p path then Some content else st p.

(** Stable sort of an array under a comparator, as [Array.prototype.sort]
    performs it: [x] stays in front of the elements it does not compare
    greater than. *)
Section Sort.
Variable A : Type.
Variable cmp : A -> A -> comparison.

Fixpoint insertSorted (x : A) (l : list A) : list A :=
  match l with
  | [] => [x]
  | y :: l' =>
      match cmp x y with
      | Gt => y :: insertSorted x l'
      | _ => x :: l
      end
  end.

Fixpoint sortBy (l : list A) : list A :=
  match l with
  | [] => []
  | x :: l' => insertSorted x (sortBy l')
  end.
End Sort.

Definition EXCLUDE_DIRS : list string :=
  [ "node_modules";
    "vendor";
    ".git";
    ".idea";
    "storage/framework";
    "storage/logs";
    "bootstrap/cache" ].

Definition DEFAULT_EXTENSIONS : list string :=
  [".php"; ".blade.php"; ".js"; ".vue"; ".json"; ".env"].

(** [escapeRegex(str)]: a backslash in front of every character of the
    class [[.*+?^${}()|[\]\\]]. *)
Fixpoint escapeRegex (str : string) : string :=
  match str with
  | EmptyString => EmptyString
  | String c str' =>
      if Pattern.oneOf c ".*+?^${}()|[]\"
      then String "\"%char (String c (escapeRegex str'))
      else String c (escapeRegex str')
  end.

(** [shouldExclude(filePath)] *)
Definition shouldExclude (filePath : string) : bool :=
  existsb (fun dir => includes filePath dir) EXCLUDE_DIRS.

(** [EXCLUDE_DIRS.includes(name)]: membership of the array. *)
Definition excludedName (name : string) : bool :=
  existsb (String.eqb name) EXCLUDE_DIRS.

(** The report of the structural analyzer, field by field as the handler
    builds it. *)
Module Analysis.

Record import : Type := Import {
  statement : string;
  line : nat
}.

Record constant : Type := Constant {
  cName : string;
  cVisibility : string;
  cLine : nat
}.

Record property : Type := Property {
  pName : string;
  pVisibility : string;
  pIsStatic : bool;
  pType : option string;
  pLine : nat
}.

Record method : Type := Method {
  mName : string;
  mVisibility : string;
  mIsStatic : bool;
  mParams : option string;
  mReturnType : option string;
  mLine : nat
}.

Record t : Type := Make {
  file : string;
  namespace : option string;
  className : option string;
  classType : option string;
  extends : option string;
  implements : list string;
  traits : list string;
  imports : list import;
  constants : list constant;
  properties : list property;
  methods : list method;
  fullClassName : option string
}.

(** The object the handler starts from. *)
Definition initial (path : string) : t :=
  Make path None None None None [] [] [] [] [] [] None.

Definition setNamespace (a : t) (v : option string) : t :=
  Make (file a) v (className a) (classType a) (extends a) (implements a)
       (traits a) (imports a) (constants a) (properties a) (methods a)
       (fullClassName a).

Definition setClass (a : t) (kind name : option string) : t :=
  Make (file a) (namespace a) name kind (extends a) (implements a)
       (traits a) (imports a) (constants a) (properties a) (methods a)
       (fullClassName a).

Definition setExtends (a : t) (v : option string) : t :=
  Make (file a) (namespace a) (className a) (classType a) v (implements a)
       (traits a) (imports a) (constants a) (properties a) (methods a)
       (fullClassName a).

Definition setImplements (a : t) (v : list string) : t :=
  Make (file a) (namespace a) (className a) (classType a) (extends a) v
       (traits a) (imports a) (constants a) (properties a) (methods a)
       (fullClassName a).

Definition pushTrait (a : t) (v : string) : t :=
  Make (file a) (namespace a) (className a) (classType a) (extends a)
       (implements a) (traits a ++ [v]) (imports a) (constants a)
       (properties a) (methods a) (fullClassName a).

Definition pushImport (a : t) (v : import) : t :=
  Make (file a) (namespace a) (className a) (classType a) (extends a)
       (implements a) (traits a) (imports a ++ [v]) (constants a)
       (properties a) (methods a) (fullClassName a).

Definition pushConstant (a : t) (v : constant) : t :=
  Make (file a) (namespace a) (className a) (classType a) (extends a)
       (implements a) (traits a) (imports a) (constants a ++ [v])
       (properties a) (methods a) (fullClassName a).

Definition pushProperty (a : t) (v : property) : t :=
  Make (file a) (namespace a) (className a) (classType a) (extends a)
       (implements a) (traits a) (imports a) (constants a)
       (properties a ++ [v]) (methods a) (fullClassName a).

Definition pushMethod (a : t) (v : method) : t :=
  Make (file a) (namespace a) (className a) (classType a) (extends a)
       (implements a) (traits a) (imports a) (constants a)
       (properties a) (methods a ++ [v]) (fullClassName a).

Definition setFullClassName (a : t) (v : option string) : t :=
  Make (file a) (namespace a) (className a) (classType a) (extends a)
       (implements a) (traits a) (imports a) (constants a)
       (properties a) (methods a) v.

End Analysis.

(** The category lists of the usage finder. *)
Module Usages.

Record usage : Type := Usage {
  file : string;
  line : nat;
  content : string
}.

Record t : Type := Make {
  imports : list usage;
  extends : list usage;
  implements : list usage;
  references : list usage
}.

Definition empty : t := Make [] [] [] [].

Definition pushImport (r : t) (u : usage) : t :=
  Make (imports r ++ [u]) (extends r) (implements r) (references r).

Definition pushExtends (r : t) (u : usage) : t :=
  Make (imports r) (extends r ++ [u]) (implements r) (references r).

Definition pushImplements (r : t) (u : usage) : t :=
  Make (imports r) (extends r) (implements r ++ [u]) (references r).

Definition pushReference (r : t) (u : usage) : t :=
  Make (imports r) (extends r) (implements r) (references r ++ [u]).

Record report : Type := Report {
  className : string;
  shortName : string;
  totalUsages : nat;
  lists : t
}.

End Usages.

(** The patterns of the structural analyzer, as written in the handler. *)
Module Patterns.

Definition nsPattern : string := "^\s*namespace\s+([^;]+)".
Definition usePattern : string := "^\s*use\s+([^;]+)".
Definition classPattern : string :=
  "^\s*(abstract\s+)?(final\s+)?(class|interface|trait|enum)\s+(\w+)".
Definition extendsPattern : string := "extends\s+(\w+)".
Definition implPattern : string := "implements\s+([^{]+)".
Definition constPattern : string :=
  "^\s*(public|protected|private)?\s*const\s+(\w+)\s*=".
Definition propPattern : string :=
  "^\s*(public|protected|private)\s+(static\s+)?(\??\w+(?:\|[\w\?]+)*)?\s*\$(\w+)".
Definition methodPattern : string :=
  "^\s*(public|protected|private)\s+(static\s+)?function\s+(\w+)\s*\(([^)]*)\)".
Definition returnPattern : string := "\):\s*(\??[\w\|\\]+)".

Definition nsRegex : RegExp.regex :=
  Eval vm_compute in Pattern.literal nsPattern.
Definition useRegex : RegExp.regex :=
  Eval vm_compute in Pattern.literal usePattern.
Definition classRegex : RegExp.regex :=
  Eval vm_compute in Pattern.literal classPattern.
Definition extendsRegex : RegExp.regex :=
  Eval vm_compute in Pattern.literal extendsPattern.
Definition implRegex : RegExp.regex :=
  Eval vm_compute in Pattern.literal implPattern.
Definition constRegex : RegExp.regex :=
  Eval vm_compute in Pattern.literal constPattern.
Definition propRegex : RegExp.regex :=
  Eval vm_compute in Pattern.literal propPattern.
Definition methodRegex : RegExp.regex :=
  Eval vm_compute in Pattern.literal methodPattern.
Definition returnRegex : RegExp.regex :=
  Eval vm_compute in Pattern.literal returnPattern.

End Patterns.

Definition accessDenied : string :=
  "Path escapes project root - access denied".

Section Server.

(** The working directory of the process and the configured project
    root. *)
Variable cwd : string.
Variable PROJECT_ROOT : string.

(** [a.localeCompare(b)], which depends on the locale of the host. *)
Variable localeCompare : string -> string -> comparison.

(** ** Path sandbox *)

Definition resolvePath (relativePath : string) : result string :=
  let absolutePath := NodePath.resolve cwd [PROJECT_ROOT; relativePath] in
  if negb (startsWith absolutePath PROJECT_ROOT)
  then Err accessDenied
  else Ok absolutePath.

(** ** Recursive file collection *)

Section Walk.
Variable extensions : list string.

(** The body of the loop of [walk] for one entry of [currentDir];
    the files pushed, in order. *)
Fixpoint walkEntry (currentDir : string) (entry : dirent)
  : list string :=
  let fullPath := NodePath.joinPaths [currentDir; direntName entry] in
  let relativePath := NodePath.relative cwd PROJECT_ROOT fullPath in
  if startsWith (direntName entry) "." || shouldExclude relativePath
  then []
  else
    match entry with
    | Dir _ readable entries =>
        if readable then
          (fix walkAll (es : list dirent) : list string :=
             match es with
             | [] => []
             | e :: es' => walkEntry fullPath e ++ walkAll es'
             end) entries
        else []
    | File name =>
        if existsb (fun ext => endsWith name ext) extensions
        then [relativePath]
        else []
    end.

(** [walk(currentDir)] on a directory with the given listing. *)
Definition walk (currentDir : string) (readable : bool)
                (entries : list dirent) : list string :=
  if readable then flat_map (walkEntry currentDir) entries else [].
End Walk.

(** [getFilesRecursively(dir, extensions)], where [dir] is a directory
    with the given listing. *)
Definition getFilesRecursively (dir : string) (readable : bool)
                               (entries : list dirent)
                               (extensions : list string) : list string :=
  walk extensions dir readable entries.

(** ** Tree rendering and one-level listing *)

(** The comparator of both sorts: directories first, then by name. *)
Definition compareEntries (aIsDir : bool) (aName : string)
                          (bIsDir : bool) (bName : string) : comparison :=
  if negb (Bool.eqb aIsDir bIsDir)
  then if aIsDir then Lt else Gt
  else localeCompare aName bName.

Definition compareDirents (a b : dirent) : comparison :=
  compareEntries (isDirectory a) (direntName a)
                 (isDirectory b) (direntName b).

(** The entries [buildTree] keeps, in the order it prints them. *)
Definition treeEntries (entries : list dirent) : list dirent :=
  sortBy compareDirents
    (filter (fun e => negb (excludedName (direntName e)))
       (filter (fun e => negb (startsWith (direntName e) ".")) entries)).

Definition newline : string := String LF EmptyString.

Definition branch : string := "├── ".
Definition lastBranch : string := "└── ".
Definition pipe : string := "│   ".
Definition blank : string := "    ".

(** The loop of [buildTree] over the entries kept; [descend] renders
    what lies below a directory. *)
Fixpoint renderEntries (descend : bool -> list dirent -> string -> string)
                       (prefix : string) (filtered : list dirent)
  : string :=
  match filtered with
  | [] => ""
  | entry :: rest =>
      let isLast := match rest with [] => true | _ => false end in
      let connector := if isLast then lastBranch else branch in
      let extension := if isLast then blank else pipe in
      (match entry with
       | Dir name r es =>
           prefix ++ connector ++ name ++ "/" ++ newline
           ++ descend r es (prefix ++ extension)
       | File name =>
           prefix ++ connector ++ name ++ newline
       end ++ renderEntries descend prefix rest)%string
  end.

(** [buildTree] below a directory that is [remaining = maxDepth - depth]
    levels above the depth limit. *)
Fixpoint buildTreeFrom (remaining : nat) (readable : bool)
                       (entries : list dirent) (prefix : string)
  : string :=
  match remaining with
  | O => ""
  | S remaining' =>
      if readable
      then renderEntries (buildTreeFrom remaining') prefix
                         (treeEntries entries)
      else ""
  end.

(** [buildTree(dirPath, prefix, depth, maxDepth)], the directory being
    given by its listing. *)
Definition buildTree (readable : bool) (entries : list dirent)
                     (prefix : string) (depth maxDepth : nat) : string :=
  buildTreeFrom (maxDepth - depth) readable entries prefix.

(** The lines of the rendering one by one: the text in front of the
    name, and the entry printed. *)
Fixpoint lineEntries
    (descend : bool -> list dirent -> string -> list (string * dirent))
    (prefix : string) (filtered : list dirent)
  : list (string * dirent) :=
  match filtered with
  | [] => []
  | entry :: rest =>
      let isLast := match rest with [] => true | _ => false end in
      let connector := if isLast then lastBranch else branch in
      let extension := if isLast then blank else pipe in
      ((prefix ++ connector)%string, entry)
      :: match entry with
         | Dir _ r es => descend r es (prefix ++ extension)%string
         | File _ => []
         end
      ++ lineEntries descend prefix rest
  end.

Fixpoint treeLines (remaining : nat) (readable : bool)
                   (entries : list dirent) (prefix : string)
  : list (string * dirent) :=
  match remaining with
  | O => []
  | S remaining' =>
      if readable
      then lineEntries (treeLines remaining') prefix (treeEntries entries)
      else []
  end.

Definition renderLine (l : string * dirent) : string :=
  match snd l with
  | Dir name _ _ => (fst l ++ name ++ "/" ++ newline)%string
  | File name => (fst l ++ name ++ newline)%string
  end.

Inductive itemType : Type := TDirectory | TFile.

Record listItem : Type := ListItem {
  itemName : string;
  itemType_ : itemType
}.

Definition compareItems (a b : listItem) : comparison :=
  compareEntries
    (match itemType_ a with TDirectory => true | TFile => false end)
    (itemName a)
    (match itemType_ b with TDirectory => true | TFile => false end)
    (itemName b).

(** The items of the one-level [list_files] listing of a directory
    ([size] left out); [pattern] is the optional name suffix. *)
Definition listItems (entries : list dirent) (pattern : option string)
  : list listItem :=
  sortBy compareItems
    (map (fun e => ListItem (direntName e)
                     (if isDirectory e then TDirectory else TFile))
       (filter (fun e => match pattern with
                         | Some p => negb (truthy p)
                                     || endsWith (direntName e) p
                         | None => true
                         end)
          (filter (fun e => negb (excludedName (direntName e)))
             (filter (fun e => negb (startsWith (direntName e) "."))
                entries)))).

(** ** Text search *)

Record searchMatch : Type := SearchMatch {
  smLine : nat;
  smContent : string
}.

Record fileResult : Type := FileResult {
  frFile : string;
  frMatches : list searchMatch;
  matchCount : nat
}.

Record searchReport : Type := SearchReport {
  srQuery : string;
  totalMatches : nat;
  fileCount : nat;
  srResults : list fileResult
}.

(** What the handler mutates while it scans: the shared pattern object,
    the [results] array and the [totalMatches] counter. *)
Record searchState : Type := SearchState {
  ssRegex : RegExp.regexp;
  ssResults : list fileResult;
  ssTotal : nat
}.

(** The callback of [lines.forEach] in the search handler, on the line
    with the given index. *)
Definition searchLine (index : nat) (line : string)
                      (acc : RegExp.regexp * list searchMatch * nat)
  : RegExp.regexp * list searchMatch * nat :=
  let '(regex, fileMatches, total) := acc in
  let (found, regex1) := RegExp.test regex line in
  if found then
    (RegExp.setLastIndex regex1 0,
     fileMatches ++ [SearchMatch (index + 1) (take 200 (trim line))],
     total + 1)
  else (regex1, fileMatches, total).

Fixpoint searchLines (index : nat) (lines : list string)
                     (acc : RegExp.regexp * list searchMatch * nat)
  : RegExp.regexp * list searchMatch * nat :=
  match lines with
  | [] => acc
  | line :: lines' =>
      searchLines (S index) lines' (searchLine index line acc)
  end.

(** The part of the per-file callback that runs once the file has been
    read; a file that cannot be read is skipped. *)
Definition searchFile (readFile : fileStore) (st : searchState)
                      (file : string) : searchState :=
  match readFile (NodePath.joinPaths [PROJECT_ROOT; file]) with
  | None => st
  | Some content =>
      let lines := split LF content in
      let '(regex, fileMatches, total) :=
        searchLines 0 lines (ssRegex st, [], ssTotal st) in
      if (0 <? List.length fileMatches)%nat then
        SearchState regex
          (ssResults st
           ++ [FileResult file fileMatches (List.length fileMatches)])
          total
      else SearchState regex (ssResults st) total
  end.

(** [(a, b) => b.matchCount - a.matchCount] *)
Definition byMatchCountDesc (a b : fileResult) : comparison :=
  Nat.compare (matchCount b) (matchCount a).

(** The [search_code] handler.  The reads of [Promise.all] finish in
    some order; [completion] is the list of files in that order. *)
Definition search_code (rootReadable : bool) (rootEntries : list dirent)
                       (readFile : fileStore)
                       (completion : list string -> list string)
                       (query : string)
                       (file_extensions : option (list string))
                       (case_sensitive : bool)
  : result searchReport :=
  let extensions := match file_extensions with
                    | Some exts => exts
                    | None => DEFAULT_EXTENSIONS
                    end in
  let files :=
    getFilesRecursively PROJECT_ROOT rootReadable rootEntries extensions in
  let flags := RegExp.Flags true (negb case_sensitive) in
  match Pattern.newRegExp (escapeRegex query) flags with
  | None => Err "Invalid regular expression"
  | Some regex =>
      let final :=
        fold_left (searchFile readFile) (completion files)
                  (SearchState regex [] 0) in
      let sorted := sortBy byMatchCountDesc (ssResults final) in
      Ok (SearchReport query (ssTotal final)
                       (List.length sorted) (firstn 50 sorted))
  end.

(** ** Search and replace in one file *)

(** The expansion of the replacement text for one occurrence
    ([GetSubstitution] with no captures): [$$], [$&], the text before
    the occurrence and the text after it. *)
Fixpoint getSubstitution (matched before after template : string)
  : string :=
  match template with
  | EmptyString => EmptyString
  | String c t =>
      if Pattern.isChar c "$" then
        match t with
        | String d t' =>
            if Pattern.isChar d "$"
            then String "$"%char (getSubstitution matched before after t')
            else if Pattern.isChar d "&"
            then (matched ++ getSubstitution matched before after t')%string
            else if Pattern.isChar d "`"
            then (before ++ getSubstitution matched before after t')%string
            else if Pattern.isChar d "'"
            then (after ++ getSubstitution matched before after t')%string
            else String c (getSubstitution matched before after t)
        | EmptyString => String c EmptyString
        end
      else String c (getSubstitution matched before after t)
  end.

(** [whole.replaceAll(search, replace)] from position [pos] on, [rest]
    being the text from there; [skip] characters of an occurrence
    already replaced are still to be passed over. *)
Fixpoint replaceAllFrom (whole search replace : string)
                        (pos skip : nat) (rest : string) : string :=
  match skip with
  | S skip' =>
      match rest with
      | EmptyString => EmptyString
      | String _ rest' =>
          replaceAllFrom whole search replace (S pos) skip' rest'
      end
  | O =>
      if startsWith rest search then
        let subst :=
          getSubstitution search (take pos whole)
                          (drop (pos + String.length search) whole)
                          replace in
        match rest with
        | EmptyString => subst
        | String c rest' =>
            match String.length search with
            | O =>
                (subst ++ String c
                   (replaceAllFrom whole search replace (S pos) 0 rest'))
                %string
            | S n =>
                (subst
                 ++ replaceAllFrom whole search replace (S pos) n rest')
                %string
            end
        end
      else
        match rest with
        | EmptyString => EmptyString
        | String c rest' =>
            String c (replaceAllFrom whole search replace (S pos) 0 rest')
        end
  end.

Definition replaceAll (s search replace : string) : string :=
  replaceAllFrom s search replace 0 0 s.

Record change : Type := Change {
  chLine : nat;
  before : string;
  after : string
}.

Record replaceReport : Type := ReplaceReport {
  rrFile : string;
  rrMessage : string;
  rrChanges : list change
}.

(** The callback of [lines.map]: the new line, and the change pushed,
    if any. *)
Definition replaceLine (search replace : string) (index : nat)
                       (line : string) : string * list change :=
  if includes line search then
    let newLine := replaceAll line search replace in
    (newLine, [Change (index + 1) (trim line) (trim newLine)])
  else (line, []).

Fixpoint replaceLines (search replace : string) (index : nat)
                      (lines : list string)
  : list string * list change :=
  match lines with
  | [] => ([], [])
  | line :: lines' =>
      let (newLine, pushed) := replaceLine search replace index line in
      let (newLines, changes) :=
        replaceLines search replace (S index) lines' in
      (newLine :: newLines, pushed ++ changes)
  end.

(** Decimal digits of a number, for the messages. *)
Fixpoint digitsOf (fuel n : nat) (acc : string) : string :=
  match fuel with
  | O => acc
  | S fuel' =>
      let acc' := String (ascii_of_nat (48 + n mod 10)) acc in
      if (n <? 10)%nat then acc' else digitsOf fuel' (n / 10) acc'
  end.

Definition showNat (n : nat) : string := digitsOf (S n) n "".

(** The [search_and_replace] handler: the answer and the files
    afterwards. *)
Definition search_and_replace (st : fileStore)
                              (path search replace : string)
  : result replaceReport * fileStore :=
  match resolvePath path with
  | Err e => (Err e, st)
  | Ok filePath =>
      match st filePath with
      | None => (Err (noSuchFile filePath), st)
      | Some content =>
          let lines := split LF content in
          let (newLines, changes) := replaceLines search replace 0 lines in
          match changes with
          | [] => (Ok (ReplaceReport path "No matches found" []), st)
          | _ :: _ =>
              (Ok (ReplaceReport path
                     ("Replaced " ++ showNat (List.length changes)
                      ++ " occurrence(s)")%string
                     changes),
               writeFile st filePath (join newline newLines))
          end
      end
  end.

(** ** Structural analyzer *)

(** [m[n]] where the group is known to take part in every match. *)
Definition capText (mr : RegExp.matchResult) (n : nat) : string :=
  match RegExp.cap mr n with
  | Some s => s
  | None => EmptyString
  end.

(** Truthiness of a string-or-null value. *)
Definition truthyOpt (v : option string) : bool :=
  match v with
  | Some s => truthy s
  | None => false
  end.

(** [v || null] *)
Definition orNull (v : option string) : option string :=
  if truthyOpt v then v else None.

Definition lineMatch (r : RegExp.regex) (line : string)
  : option RegExp.matchResult :=
  RegExp.exec false r line.

Definition backslash : string := "\".

(** The body of the loop over the lines, on line number [lineNum]; the
    state is the report under construction and the [insideClass]
    flag. *)
Definition analyzeLine (lineNum : nat) (line : string)
                       (st : Analysis.t * bool) : Analysis.t * bool :=
  let (analysis, insideClass) := st in
  (* Namespace *)
  let analysis :=
    match lineMatch Patterns.nsRegex line with
    | Some nsMatch =>
        Analysis.setNamespace analysis (Some (trim (capText nsMatch 1)))
    | None => analysis
    end in
  (* Use statements (imports) *)
  let analysis :=
    match lineMatch Patterns.useRegex line with
    | Some useMatch =>
        if negb insideClass then
          Analysis.pushImport analysis
            (Analysis.Import (trim (capText useMatch 1)) lineNum)
        else if negb (includes (capText useMatch 1) backslash) then
          Analysis.pushTrait analysis (trim (capText useMatch 1))
        else analysis
    | None => analysis
    end in
  (* Class declaration *)
  let '(analysis, insideClass) :=
    match lineMatch Patterns.classRegex line with
    | Some classMatch =>
        if negb (truthyOpt (Analysis.className analysis)) then
          let analysis :=
            Analysis.setClass analysis (RegExp.cap classMatch 3)
                              (RegExp.cap classMatch 4) in
          let analysis :=
            match lineMatch Patterns.extendsRegex line with
            | Some extendsMatch =>
                Analysis.setExtends analysis (RegExp.cap extendsMatch 1)
            | None => analysis
            end in
          let analysis :=
            match lineMatch Patterns.implRegex line with
            | Some implMatch =>
                Analysis.setImplements analysis
                  (filter truthy
                     (map trim (split ","%char (capText implMatch 1))))
            | None => analysis
            end in
          (analysis, true)
        else (analysis, insideClass)
    | None => (analysis, insideClass)
    end in
  (* Constants *)
  let analysis :=
    match lineMatch Patterns.constRegex line with
    | Some constMatch =>
        Analysis.pushConstant analysis
          (Analysis.Constant (capText constMatch 2)
             (if truthyOpt (RegExp.cap constMatch 1)
              then capText constMatch 1 else "public")
             lineNum)
    | None => analysis
    end in
  (* Properties *)
  let analysis :=
    match lineMatch Patterns.propRegex line with
    | Some propMatch =>
        Analysis.pushProperty analysis
          (Analysis.Property (capText propMatch 4) (capText propMatch 1)
             (truthyOpt (RegExp.cap propMatch 2))
             (orNull (RegExp.cap propMatch 3))
             lineNum)
    | None => analysis
    end in
  (* Methods *)
  let analysis :=
    match lineMatch Patterns.methodRegex line with
    | Some methodMatch =>
        let returnMatch := lineMatch Patterns.returnRegex line in
        Analysis.pushMethod analysis
          (Analysis.Method (capText methodMatch 3) (capText methodMatch 1)
             (truthyOpt (RegExp.cap methodMatch 2))
             (orNull (Some (trim (capText methodMatch 4))))
             (match returnMatch with
              | Some rm => RegExp.cap rm 1
              | None => None
              end)
             lineNum)
    | None => analysis
    end in
  (analysis, insideClass).

(** The loop [for (let i = 0; i < lines.length; i++)], from index [i]. *)
Fixpoint analyzeLines (i : nat) (lines : list string)
                      (st : Analysis.t * bool) : Analysis.t * bool :=
  match lines with
  | [] => st
  | line :: lines' =>
      analyzeLines (S i) lines' (analyzeLine (i + 1) line st)
  end.

(** The analysis of a file's text. *)
Definition analyzeContent (path content : string) : Analysis.t :=
  let lines := split LF content in
  let (analysis, _) :=
    analyzeLines 0 lines (Analysis.initial path, false) in
  match Analysis.namespace analysis, Analysis.className analysis with
  | Some ns, Some cn =>
      if truthy ns && truthy cn then
        Analysis.setFullClassName analysis
          (Some (ns ++ backslash ++ cn)%string)
      else analysis
  | _, _ => analysis
  end.

(** The [analyze_php_file] handler. *)
Definition analyze_php_file (st : fileStore) (path : string)
  : result Analysis.t :=
  match resolvePath path with
  | Err e => Err e
  | Ok filePath =>
      match st filePath with
      | None => Err (noSuchFile filePath)
      | Some content => Ok (analyzeContent path content)
      end
  end.

(** ** Usage finder *)

(** [new RegExp(pattern, "i").test(line)]: the answer of the test,
    [SyntaxError] when the constructor throws, [Unsupported] for a
    pattern outside the fragment. *)
Definition testInsensitive (pattern line : string)
  : Pattern.parsed bool :=
  match Pattern.parsePattern pattern with
  | Pattern.Parsed r =>
      Pattern.Parsed
        (fst (RegExp.test
                (RegExp.RegExpObj r (RegExp.Flags false true) 0) line))
  | Pattern.SyntaxError => Pattern.SyntaxError
  | Pattern.Unsupported => Pattern.Unsupported
  end.

Definition importPattern (shortName : string) : string :=
  ("use\s+.*\b" ++ shortName ++ "\b")%string.
Definition extendsPattern (shortName : string) : string :=
  ("extends\s+.*\b" ++ shortName ++ "\b")%string.
Definition implementsPattern (shortName : string) : string :=
  ("implements\s+.*\b" ++ shortName ++ "\b")%string.
Definition referencePattern (shortName : string) : string :=
  ("(new\s+" ++ shortName ++ "|" ++ shortName ++ "::|:\s*"
   ++ shortName ++ "\b)")%string.

(** How the callback of a line, or the scan of a file, ends: normally,
    by the SyntaxError of a pattern, or on a pattern outside the
    fragment. *)
Inductive ending : Type := Normal | Thrown | Unmodelled.

(** One of the four checks of a line: push when the pattern matches,
    report the exception when it does not compile. *)
Definition check (pattern : string)
                 (push : Usages.t -> Usages.usage -> Usages.t)
                 (u : Usages.usage) (line : string) (r : Usages.t)
  : Usages.t * ending :=
  match testInsensitive pattern line with
  | Pattern.Parsed true => (push r u, Normal)
  | Pattern.Parsed false => (r, Normal)
  | Pattern.SyntaxError => (r, Thrown)
  | Pattern.Unsupported => (r, Unmodelled)
  end.

(** The callback of [lines.forEach] in the usage finder.  When a
    pattern throws, what was pushed before stays pushed. *)
Definition usageLine (shortName file : string) (index : nat)
                     (line : string) (r : Usages.t)
  : Usages.t * ending :=
  let lineNum := index + 1 in
  let u := Usages.Usage file lineNum (trim line) in
  let (r1, end1) :=
    check (importPattern shortName) Usages.pushImport u line r in
  match end1 with
  | Normal =>
      let (r2, end2) :=
        check (extendsPattern shortName) Usages.pushExtends u line r1 in
      match end2 with
      | Normal =>
          let (r3, end3) :=
            check (implementsPattern shortName) Usages.pushImplements
                  u line r2 in
          match end3 with
          | Normal =>
              check (referencePattern shortName) Usages.pushReference
                    u line r3
          | _ => (r3, end3)
          end
      | _ => (r2, end2)
      end
  | _ => (r1, end1)
  end.

(** [lines.forEach] inside the [try]: an exception ends the file. *)
Fixpoint usageLines (shortName file : string) (index : nat)
                    (lines : list string) (r : Usages.t)
  : Usages.t * ending :=
  match lines with
  | [] => (r, Normal)
  | line :: lines' =>
      let (r', ended) := usageLine shortName file index line r in
      match ended with
      | Normal => usageLines shortName file (S index) lines' r'
      | _ => (r', ended)
      end
  end.

(** The callback of [files.map]: a file that cannot be read is
    skipped, and so is the rest of a file after an exception.  There
    is no answer once a pattern outside the fragment was met. *)
Definition usageFile (readFile : fileStore) (shortName : string)
                     (results : option Usages.t) (file : string)
  : option Usages.t :=
  match results with
  | None => None
  | Some r =>
      match readFile (NodePath.joinPaths [PROJECT_ROOT; file]) with
      | None => Some r
      | Some content =>
          match usageLines shortName file 0 (split LF content) r with
          | (_, Unmodelled) => None
          | (r', _) => Some r'
          end
      end
  end.

Definition shortNameOf (class_name : string) : string :=
  if includes class_name backslash
  then JsString.last (split "\"%char class_name)
  else class_name.

(** The [find_class_usages] handler, the files being read in the order
    [completion] gives; [None] when the short name leads to a pattern
    outside the fragment. *)
Definition find_class_usages (rootReadable : bool)
                             (rootEntries : list dirent)
                             (readFile : fileStore)
                             (completion : list string -> list string)
                             (class_name : string)
  : option Usages.report :=
  let shortName := shortNameOf class_name in
  let files :=
    getFilesRecursively PROJECT_ROOT rootReadable rootEntries [".php"] in
  match fold_left (usageFile readFile shortName) (completion files)
                  (Some Usages.empty) with
  | None => None
  | Some results =>
      let totalUsages :=
        List.length (Usages.imports results)
        + List.length (Usages.extends results)
        + List.length (Usages.implements results)
        + List.length (Usages.references results) in
      Some (Usages.Report class_name shortName totalUsages results)
  end.

End Server.

(* ================================================================== *)
(** * Notions used in the statements *)
(* ================================================================== *)

(** A name as [readdir] returns it: not empty, neither ["."] nor [".."],
    without a separator. *)
Definition validName (n : string) : bool :=
  truthy n && negb (String.eqb n ".") && negb (String.eqb n "..")
  && negb (includes n "/").

(** A listing whose names, at every level, are such names. *)
Fixpoint wellFormed (e : dirent) : bool :=
  validName (direntName e) &&
  match e with
  | File _ => true
  | Dir _ _ entries =>
      (fix all (es : list dirent) : bool :=
         match es with
         | [] => true
         | e' :: es' => wellFormed e' && all es'
         end) entries
  end.

(** The absolute path with the given segments. *)
Definition absolutePathOf (segments : list string) : string :=
  ("/" ++ join "/" segments)%string.

(** The hidden-file marker. *)
Definition hidden (name : string) : bool := startsWith name ".".

(** An entry that the one-level operations keep: not hidden, and not
    named like a member of the exclusion list. *)
Definition shown (e : dirent) : Prop :=
  hidden (direntName e) = false /\ excludedName (direntName e) = false.

(** Names of a list are valid. *)
Definition validNames (l : list string) : Prop :=
  Forall (fun n => validName n = true) l.

(** A small project, for the examples: sources, a dependency directory, a
    hidden directory and the framework cache. *)
Definition sampleProject : list dirent :=
  [ File "artisan.php";
    File ".env";
    Dir "app" true
      [ Dir "Models" true [File "User.php"; File "Admin.php"];
        File "helpers.php" ];
    Dir "vendor" true [File "autoload.php"];
    Dir ".github" true [File "ci.yml"];
    Dir "storage" true
      [ Dir "framework" true [File "cache.php"];
        File "notes.txt" ];
    Dir "vendor-old" true [File "legacy.php"] ].

(** The comparison of names by code units, one possible
    [localeCompare]. *)
Definition byCodeUnits (a b : string) : comparison := String.compare a b.

(** The pattern that matches the characters of [q] one after the other
    and nothing else. *)
Fixpoint literalPattern (q : string) : RegExp.regex :=
  match q with
  | EmptyString => RegExp.Empty
  | String c q' => RegExp.Seq (RegExp.Char c) (literalPattern q')
  end.

(** Case folding of a text, code unit by code unit. *)
Fixpoint foldCase (s : string) : string :=
  match s with
  | EmptyString => EmptyString
  | String c s' => String (RegExp.canonicalize c) (foldCase s')
  end.

(** The characters [escapeRegex] puts a backslash in front of. *)
Definition isMeta (c : ascii) : bool := Pattern.oneOf c ".*+?^${}()|[]\".

(** What a literal search for [query] looks for in a line. *)
Definition containsLiteral (case_sensitive : bool) (line query : string)
  : bool :=
  if case_sensitive then includes line query
  else includes (foldCase line) (foldCase query).

(** The text as the matcher compares it: folded when case is ignored. *)
Definition normalizeCase (ignoreCase : bool) (s : string) : string :=
  if ignoreCase then foldCase s else s.

(** The position [x] after the characters of [q] have been consumed. *)
Fixpoint advance (x : RegExp.mstate) (q : string) : RegExp.mstate :=
  match q with
  | EmptyString => x
  | String _ q' =>
      match RegExp.rest x with
      | EmptyString => x
      | String d s' =>
          advance (RegExp.MState (Some d) s' (RegExp.caps x)) q'
      end
  end.

(** The match records of the lines that contain the query, the first
    line having index [index]. *)
Fixpoint lineMatches (case_sensitive : bool) (query : string) (index : nat)
                     (lines : list string) : list searchMatch :=
  match lines with
  | [] => []
  | line :: lines' =>
      (if containsLiteral case_sensitive line query
       then [SearchMatch (index + 1) (take 200 (trim line))]
       else [])
      ++ lineMatches case_sensitive query (S index) lines'
  end.

(** The lines of a file that contain the query; none when the file
    cannot be read. *)
Definition matchingLines (PROJECT_ROOT : string) (readFile : fileStore)
                         (case_sensitive : bool) (query file : string)
  : list string :=
  match readFile (NodePath.joinPaths [PROJECT_ROOT; file]) with
  | Some content =>
      filter (fun line => containsLiteral case_sensitive line query)
             (split LF content)
  | None => []
  end.

(** The match records of a file. *)
Definition fileMatchesOf (PROJECT_ROOT : string) (readFile : fileStore)
                         (case_sensitive : bool) (query file : string)
  : list searchMatch :=
  match readFile (NodePath.joinPaths [PROJECT_ROOT; file]) with
  | Some content => lineMatches case_sensitive query 0 (split LF content)
  | None => []
  end.

(** The entry a file contributes to [results]: none without a match. *)
Definition fileResultOf (PROJECT_ROOT : string) (readFile : fileStore)
                        (case_sensitive : bool) (query file : string)
  : list fileResult :=
  let ms := fileMatchesOf PROJECT_ROOT readFile case_sensitive query file in
  if (0 <? List.length ms)%nat
  then [FileResult file ms (List.length ms)]
  else [].

(** Descending order of match counts. *)
Definition rankedBefore (a b : fileResult) : Prop :=
  matchCount b <= matchCount a.

(** The pattern object of a literal search for [query], between two
    tests. *)
Definition searchPattern (case_sensitive : bool) (query : string)
  : RegExp.regexp :=
  RegExp.RegExpObj (literalPattern query)
                   (RegExp.Flags true (negb case_sensitive)) 0.

(** A file result with the given number of matches, for the examples. *)
Definition resultWith (file : string) (count : nat) : fileResult :=
  FileResult file (repeat (SearchMatch 1 "") count) count.

(** The candidate files of a search, and the entries of [results] in
    the order [sort] leaves them. *)
Definition candidates (cwd PROJECT_ROOT : string) (rootReadable : bool)
                      (rootEntries : list dirent)
                      (file_extensions : option (list string))
  : list string :=
  getFilesRecursively cwd PROJECT_ROOT PROJECT_ROOT rootReadable rootEntries
    (match file_extensions with
     | Some exts => exts
     | None => DEFAULT_EXTENSIONS
     end).

Definition rankedResults (PROJECT_ROOT : string) (readFile : fileStore)
                         (case_sensitive : bool) (query : string)
                         (scanned : list string) : list fileResult :=
  sortBy byMatchCountDesc
    (flat_map (fileResultOf PROJECT_ROOT readFile case_sensitive query)
              scanned).

(** What the rules of the structural analyzer capture on one line. *)
Definition namespaceOf (line : string) : option string :=
  match lineMatch Patterns.nsRegex line with
  | Some nsMatch => Some (trim (capText nsMatch 1))
  | None => None
  end.

Definition classHeaderOf (line : string)
  : option (option string * option string) :=
  match lineMatch Patterns.classRegex line with
  | Some classMatch =>
      Some (RegExp.cap classMatch 3, RegExp.cap classMatch 4)
  | None => None
  end.

Definition isClassHeader (line : string) : bool :=
  match classHeaderOf line with Some _ => true | None => false end.

(** The first and the last defined value of a list. *)
Fixpoint firstSome (A : Type) (l : list (option A)) : option A :=
  match l with
  | [] => None
  | Some v :: _ => Some v
  | None :: l' => firstSome l'
  end.

Fixpoint lastSome (A : Type) (l : list (option A)) : option A :=
  match l with
  | [] => None
  | v :: l' =>
      match lastSome l' with
      | Some w => Some w
      | None => v
      end
  end.

(** The length of the input that remains at a position. *)
Definition remaining (x : RegExp.mstate) : nat :=
  String.length (RegExp.rest x).

(** A matcher that lets a match through has called its continuation, at
    a position not before its own. *)
Definition continues
    (body : (RegExp.mstate -> option RegExp.mstate) ->
            RegExp.mstate -> option RegExp.mstate) : Prop :=
  forall k x y,
    body k x = Some y ->
    exists x', k x' = Some y /\ remaining x' <= remaining x.

(** The class fields and the [insideClass] flag go together: before the
    first class header the flag is down and the fields are empty; from
    then on the flag is up and the name is set. *)
Definition classState (st : Analysis.t * bool) : Prop :=
  if snd st then truthyOpt (Analysis.className (fst st)) = true
  else Analysis.className (fst st) = None
       /\ Analysis.classType (fst st) = None.

(** The line as [search_and_replace] leaves it. *)
Definition replacedLine (search replace line : string) : string :=
  if includes line search then replaceAll line search replace else line.

(** A project of two files, for the usage-finder scenario, and their
    contents. *)
Definition usageProject : list dirent :=
  [File "Profile.php"; File "Admin.php"].

Definition usageFiles : fileStore :=
  fun p =>
    if String.eqb p "/srv/app/Profile.php" then Some "use App\Models\User;"
    else if String.eqb p "/srv/app/Admin.php"
         then Some "class Admin extends User"
         else None.

(** The test of a compiled pattern on a line, without regard to case. *)
Definition matchesInsensitive (re : RegExp.regex) (line : string) : bool :=
  fst (RegExp.test (RegExp.RegExpObj re (RegExp.Flags false true) 0) line).

(** The usage records of the lines of a file that a pattern matches, the
    first line having index [index]. *)
Fixpoint usagesOf (re : RegExp.regex) (file : string) (index : nat)
                  (lines : list string) : list Usages.usage :=
  match lines with
  | [] => []
  | line :: lines' =>
      (if matchesInsensitive re line
       then [Usages.Usage file (index + 1) (trim line)]
       else [])
      ++ usagesOf re file (S index) lines'
  end.

(** The same for a file of the project; none when it cannot be read. *)
Definition fileUsages (PROJECT_ROOT : string) (readFile : fileStore)
                      (re : RegExp.regex) (file : string)
  : list Usages.usage :=
  match readFile (NodePath.joinPaths [PROJECT_ROOT; file]) with
  | Some content => usagesOf re file 0 (split LF content)
  | None => []
  end.

(** The four category lists [r] with the records [found] gives for each
    of the four patterns appended. *)
Definition extendedBy (reImport reExtends reImplements reReference
                         : RegExp.regex)
                      (r : Usages.t)
                      (found : RegExp.regex -> list Usages.usage)
  : Usages.t :=
  Usages.Make (Usages.imports r ++ found reImport)
              (Usages.extends r ++ found reExtends)
              (Usages.implements r ++ found reImplements)
              (Usages.references r ++ found reReference).

(** A short name without a syntax character of the pattern grammar. *)
Definition plainName (shortName : string) : bool :=
  forallb (fun c => negb (Pattern.isSyntaxCharacter c))
          (list_ascii_of_string shortName).

(** The characters of [q] taken literally, followed by [tail]. *)
Fixpoint literalThen (q : string) (tail : RegExp.regex) : RegExp.regex :=
  match q with
  | EmptyString => tail
  | String c q' => RegExp.Seq (RegExp.Char c) (literalThen q' tail)
  end.

(** The syntax tree of [keyword\s+.*\bshortName\b] for a plain short
    name. *)
Definition keywordUsage (keyword shortName : string) : RegExp.regex :=
  literalThen keyword
    (RegExp.Seq (RegExp.Plus (RegExp.Class RegExp.Space false))
       (RegExp.Seq (RegExp.Star RegExp.Dot)
          (RegExp.Seq (RegExp.WordBoundary false)
             (literalThen shortName
                (RegExp.Seq (RegExp.WordBoundary false) RegExp.Empty))))).

(** The syntax tree of [(new\s+shortName|shortName::|:\s*shortName\b)]
    for a plain short name. *)
Definition referenceUsage (shortName : string) : RegExp.regex :=
  RegExp.Seq
    (RegExp.Group 1
       (RegExp.Alt
          (literalThen "new"
             (RegExp.Seq (RegExp.Plus (RegExp.Class RegExp.Space false))
                (literalThen shortName RegExp.Empty)))
          (RegExp.Alt
             (literalThen shortName (literalThen "::" RegExp.Empty))
             (RegExp.Seq (RegExp.Char ":")
                (RegExp.Seq (RegExp.Star (RegExp.Class RegExp.Space false))
                   (literalThen shortName
                      (RegExp.Seq (RegExp.WordBoundary false)
                                  RegExp.Empty)))))))
    RegExp.Empty.

(** A text that does not begin with a quantifier. *)
Definition unquantified (s : string) : bool :=
  match s with
  | EmptyString => true
  | String d _ => negb (Pattern.oneOf d "*+?{")
  end.

(** A text that does not begin with a quantifier, a bar or a closing
    parenthesis: what comes after an escaped character of a query. *)
Definition plainHead (s : string) : Prop :=
  match s with
  | EmptyString => True
  | String d _ => Pattern.oneOf d "*+?{|)" = false
  end.

(** A matcher that looks at its continuation only at positions not
    before its own. *)
Definition localMatcher
    (body : (RegExp.mstate -> option RegExp.mstate) ->
            RegExp.mstate -> option RegExp.mstate) : Prop :=
  forall k1 k2 x,
    (forall y, remaining y <= remaining x -> k1 y = k2 y) ->
    body k1 x = body k2 x.

(* ================================================================== *)
(** * The other handlers of the server *)
(* ================================================================== *)

From Stdlib Require Import NArith ZArith.

(** ** Numbers as text *)

(** The decimal digits of [n] in front of [acc]; [fuel] bounds the number
    of digits. *)
Fixpoint digitsOfN (fuel : nat) (n : N) (acc : string) : string :=
  match fuel with
  | O => acc
  | S fuel' =>
      let acc' := String (ascii_of_N (48 + n mod 10)) acc in
      if (n <? 10)%N then acc' else digitsOfN fuel' (n / 10) acc'
  end.

(** [String(n)] for a natural number. *)
Definition showN (n : N) : string := digitsOfN (S (N.size_nat n)) n "".

(** [String(z)] for an integer. *)
Definition showZ (z : Z) : string :=
  match z with
  | Z0 => "0"
  | Zpos p => showN (Npos p)
  | Zneg p => String "-"%char (showN (Npos p))
  end.

(** [unit.repeat(count)] *)
Fixpoint repeatString (unit : string) (count : nat) : string :=
  match count with
  | O => EmptyString
  | S count' => (unit ++ repeatString unit count')%string
  end.

(** [s.padStart(width, " ")] *)
Definition padStart (width : nat) (s : string) : string :=
  (repeatString " " (width - String.length s) ++ s)%string.

(** [arr.slice(start, end)]: a negative index counts from the end. *)
Definition slice (A : Type) (l : list A) (start stop : Z) : list A :=
  let len := Z.of_nat (List.length l) in
  let from := if (start <? 0)%Z then Z.max (len + start) 0
              else Z.min start len in
  let to := if (stop <? 0)%Z then Z.max (len + stop) 0
            else Z.min stop len in
  firstn (Z.to_nat (to - from)) (skipn (Z.to_nat from) l).

(** ** Formatting a size *)

(** [x.toFixed(digits)] for a non-negative [x = num / den] and 0 or 1
    digits: the integer [n] with [n / 10^digits] nearest to [x], the
    larger one of two, printed with its point. *)
Definition toFixed (num den : N) (digits : nat) : string :=
  let scale := (match digits with O => 1 | _ => 10 end)%N in
  let n := ((2 * num * scale + den) / (2 * den))%N in
  match digits with
  | O => showN n
  | _ => (showN (n / 10) ++ "." ++ showN (n mod 10))%string
  end.

Definition sizeUnits : list string := ["B"; "KB"; "MB"; "GB"].

(** The loop of [formatSize].  The variable [size] holds
    [bytes / 1024^unitIndex]; dividing a number below 2^53 by 1024 is
    exact in binary floating point, so the quotient is kept as the pair
    of [bytes] and the divisor [den].  The loop runs three times at
    most. *)
Fixpoint formatSizeLoop (fuel : nat) (bytes den : N) (unitIndex : nat)
  : N * nat :=
  match fuel with
  | O => (den, unitIndex)
  | S fuel' =>
      if (1024 * den <=? bytes)%N
         && (unitIndex <? List.length sizeUnits - 1)%nat
      then formatSizeLoop fuel' bytes (den * 1024)%N (S unitIndex)
      else (den, unitIndex)
  end.

(** [formatSize(bytes)] for the size of a file. *)
Definition formatSize (bytes : N) : string :=
  let (den, unitIndex) := formatSizeLoop 3 bytes 1 0 in
  (toFixed bytes den (if (0 <? unitIndex)%nat then 1 else 0)
   ++ " " ++ nth unitIndex sizeUnits "")%string.

(** ** The file system *)

(** The files with their contents and the directories, by absolute
    path.  Permissions are left out: what exists can be read and
    written. *)
Record fileSystem : Type := FileSystem {
  files : fileStore;
  directories : string -> bool
}.

Inductive errno : Type := ENOENT | ENOTDIR | EISDIR | EEXIST.

(** The error of a system call: [error.code] and [error.message]. *)
Record fsError : Type := FsError {
  code : errno;
  message : string
}.

Inductive outcome (A : Type) : Type :=
| Done (value : A)
| Failed (error : fsError).

Arguments Done {A} value.
Arguments Failed {A} error.

Definition errorText (c : errno) : string :=
  match c with
  | ENOENT => "ENOENT: no such file or directory"
  | ENOTDIR => "ENOTDIR: not a directory"
  | EISDIR => "EISDIR: illegal operation on a directory"
  | EEXIST => "EEXIST: file already exists"
  end.

Definition systemError (c : errno) (syscall path : string) : fsError :=
  FsError c (errorText c ++ ", " ++ syscall ++ " '" ++ path ++ "'")%string.

(** [path.dirname(p)] for an absolute path in normal form, as
    [path.resolve] returns it: the path without its last segment. *)
Definition dirname (p : string) : string :=
  absolutePathOf (removelast (NodePath.normalizeSegments false p)).

(** The calls of [fs/promises] the handlers make, on paths in normal
    form. *)
Module Fs.

Definition isFile (fs : fileSystem) (p : string) : bool :=
  match files fs p with Some _ => true | None => false end.

(** The directory [p] and the directories above it, the root of the
    file system apart. *)
Definition chain (p : string) : list string :=
  let segments := NodePath.normalizeSegments false p in
  map (fun k => absolutePathOf (firstn k segments))
      (seq 1 (List.length segments)).

(** The directories above [p]. *)
Definition ancestors (p : string) : list string :=
  let segments := NodePath.normalizeSegments false p in
  map (fun k => absolutePathOf (firstn k segments))
      (seq 1 (List.length segments - 1)).

(** The error for a path that holds nothing: a file stands where a
    directory above it should be, or there is no such entry. *)
Definition missing (fs : fileSystem) (syscall p : string) : fsError :=
  if existsb (isFile fs) (ancestors p)
  then systemError ENOTDIR syscall p
  else systemError ENOENT syscall p.

(** [fs.access(p)]: the error thrown, if any. *)
Definition access (fs : fileSystem) (p : string) : option fsError :=
  if isFile fs p || directories fs p then None
  else Some (missing fs "access" p).

(** [fs.readFile(p, "utf-8")] *)
Definition readFile (fs : fileSystem) (p : string) : outcome string :=
  match files fs p with
  | Some content => Done content
  | None =>
      if directories fs p
      then Failed (FsError EISDIR (errorText EISDIR ++ ", read"))
      else Failed (missing fs "open" p)
  end.

(** [fs.writeFile(p, content, "utf-8")]; the files afterwards are
    those of [writeFile] on the contents. *)
Definition writeFile (fs : fileSystem) (p content : string)
  : outcome fileSystem :=
  let written :=
    FileSystem (writeFile (files fs) p content) (directories fs) in
  if directories fs p then Failed (systemError EISDIR "open" p)
  else if isFile fs p then Done written
  else if existsb (isFile fs) (ancestors p)
  then Failed (systemError ENOTDIR "open" p)
  else if forallb (directories fs) (ancestors p) then Done written
  else Failed (systemError ENOENT "open" p).

(** [fs.unlink(p)]; on a directory the call fails, with this error on
    Linux. *)
Definition unlink (fs : fileSystem) (p : string) : outcome fileSystem :=
  if isFile fs p
  then Done (FileSystem
               (fun q => if String.eqb q p then None else files fs q)
               (directories fs))
  else if directories fs p then Failed (systemError EISDIR "unlink" p)
  else Failed (missing fs "unlink" p).

(** [fs.mkdir(p, { recursive: true })]: the directories of the chain
    that are missing are made. *)
Definition mkdirRecursive (fs : fileSystem) (p : string)
  : outcome fileSystem :=
  if isFile fs p then Failed (systemError EEXIST "mkdir" p)
  else if existsb (isFile fs) (ancestors p)
  then Failed (systemError ENOTDIR "mkdir" p)
  else Done (FileSystem (files fs)
               (fun d => directories fs d
                         || existsb (String.eqb d) (chain p))).

End Fs.

Section FileHandlers.

Variable cwd : string.
Variable PROJECT_ROOT : string.

(** [content.split("\n").length] *)
Definition lineCount (content : string) : nat :=
  List.length (split LF content).

(** ** Reading a file, whole or by a range of lines *)

(** The selection of [read_file]: the lines, the first line number and
    the last one as the header states it. *)
Definition selectLines (lines : list string) (start_line end_line : option Z)
  : list string * Z * Z :=
  let len := Z.of_nat (List.length lines) in
  match start_line with
  | None => (lines, 1%Z, len)
  | Some start =>
      let startLine := Z.max 1 start in
      let endLine :=
        if match end_line with Some e => (e =? -1)%Z | None => false end
        then len
        else Z.min len (match end_line with
                        | Some e => if (e =? 0)%Z then len else e
                        | None => len
                        end) in
      (slice lines (startLine - 1) endLine, startLine, endLine)
  end.

(** [selectedLines.map((line, index) => ...)] from index [index] on. *)
Fixpoint numberLines (startLine : Z) (index : nat) (selected : list string)
  : list string :=
  match selected with
  | [] => []
  | line :: selected' =>
      (padStart 4 (showZ (startLine + Z.of_nat index)) ++ " | " ++ line)
      %string
      :: numberLines startLine (S index) selected'
  end.

Definition rule : string := repeatString "─" 60.

(** The first two lines of the answer of [read_file]. *)
Definition readHeader (path : string) (startLine endLine : Z)
                      (total : nat) : string :=
  ("File: " ++ path ++ " (lines " ++ showZ startLine ++ "-"
   ++ showZ endLine ++ " of " ++ showZ (Z.of_nat total) ++ ")" ++ newline
   ++ rule)%string.

(** The [read_file] handler. *)
Definition read_file (fs : fileSystem) (path : string)
                     (start_line end_line : option Z) : result string :=
  match resolvePath cwd PROJECT_ROOT path with
  | Err e => Err e
  | Ok filePath =>
      match Fs.readFile fs filePath with
      | Failed e => Err (message e)
      | Done content =>
          let lines := split LF content in
          let '(selectedLines, startLine, endLine) :=
            selectLines lines start_line end_line in
          let numberedLines := numberLines startLine 0 selectedLines in
          let header :=
            readHeader path startLine endLine (List.length lines) in
          Ok (header ++ newline ++ join newline numberedLines)%string
      end
  end.

(** ** Reading several files *)

(** An entry of the [results] object of [read_multiple_files]. *)
Inductive readEntry : Type :=
| ReadOk (content : string)
| ReadFailed (error : string).

(** The body of the callback for one path. *)
Definition readOne (fs : fileSystem) (filePath : string) : readEntry :=
  match resolvePath cwd PROJECT_ROOT filePath with
  | Err e => ReadFailed e
  | Ok absolutePath =>
      match Fs.readFile fs absolutePath with
      | Done content => ReadOk content
      | Failed e => ReadFailed (message e)
      end
  end.

(** [results[key] = value] on an object literal used as a map, as
    [JSON.stringify] sees it afterwards: the assignment of an object
    to the key [__proto__] sets the prototype and adds no entry. *)
Definition setKey (results : string -> option readEntry) (key : string)
                  (value : readEntry) : string -> option readEntry :=
  if String.eqb key "__proto__" then results
  else fun k => if String.eqb k key then Some value else results k.

(** The [read_multiple_files] handler; the reads finish in the order
    [completion] gives. *)
Definition read_multiple_files (fs : fileSystem) (paths : list string)
                               (completion : list string -> list string)
  : string -> option readEntry :=
  fold_left (fun results filePath =>
               setKey results filePath (readOne fs filePath))
            (completion paths) (fun _ => None).

(** ** Writing, creating and deleting a file *)

Definition write_file (fs : fileSystem) (path content : string)
  : result string * fileSystem :=
  match resolvePath cwd PROJECT_ROOT path with
  | Err e => (Err e, fs)
  | Ok filePath =>
      match Fs.access fs filePath with
      | Some e => (Err (message e), fs)
      | None =>
          match Fs.writeFile fs filePath content with
          | Failed e => (Err (message e), fs)
          | Done fs' =>
              (Ok ("Successfully wrote " ++ showNat (lineCount content)
                   ++ " lines to " ++ path)%string,
               fs')
          end
      end
  end.

(** The error thrown inside the [try] is caught by its own [catch],
    which throws again whatever is not [ENOENT]. *)
Definition create_file (fs : fileSystem) (path content : string)
  : result string * fileSystem :=
  match resolvePath cwd PROJECT_ROOT path with
  | Err e => (Err e, fs)
  | Ok filePath =>
      match Fs.access fs filePath with
      | None =>
          (Err ("File already exists: " ++ path
                ++ ". Use write_file to overwrite.")%string, fs)
      | Some e =>
          match code e with
          | ENOENT =>
              match Fs.mkdirRecursive fs (dirname filePath) with
              | Failed e' => (Err (message e'), fs)
              | Done fs1 =>
                  match Fs.writeFile fs1 filePath content with
                  | Failed e' => (Err (message e'), fs1)
                  | Done fs2 =>
                      (Ok ("Successfully created " ++ path ++ " with "
                           ++ showNat (lineCount content) ++ " lines")
                          %string,
                       fs2)
                  end
              end
          | _ => (Err (message e), fs)
          end
      end
  end.

Definition delete_file (fs : fileSystem) (path : string)
  : result string * fileSystem :=
  match resolvePath cwd PROJECT_ROOT path with
  | Err e => (Err e, fs)
  | Ok filePath =>
      match Fs.unlink fs filePath with
      | Failed e => (Err (message e), fs)
      | Done fs' => (Ok ("Successfully deleted " ++ path)%string, fs')
      end
  end.

End FileHandlers.

(** [Promise.all(xs.map(f))], the promises settling in the order
    [settled xs]: the values in the order of [xs], or the error of the
    promise that is the first to fail. *)
Fixpoint firstError (A B : Type) (f : A -> result B) (xs : list A)
  : option string :=
  match xs with
  | [] => None
  | x :: xs' =>
      match f x with
      | Err e => Some e
      | Ok _ => firstError f xs'
      end
  end.

Fixpoint values (A B : Type) (f : A -> result B) (xs : list A) : list B :=
  match xs with
  | [] => []
  | x :: xs' =>
      match f x with
      | Ok v => v :: values f xs'
      | Err _ => values f xs'
      end
  end.

Definition promiseAll (A B : Type) (f : A -> result B)
                      (settled : list A -> list A) (xs : list A)
  : result (list B) :=
  match firstError f (settled xs) with
  | Some e => Err e
  | None => Ok (values f xs)
  end.

Section Listing.

Variable cwd : string.
Variable PROJECT_ROOT : string.
Variable localeCompare : string -> string -> comparison.

(** [fs.readdir(path, { withFileTypes: true })]: the listing of a
    directory, or the message of the error thrown. *)
Variable readdir : string -> result (list dirent).

(** [(await fs.stat(path)).size], or the message of the error [stat]
    throws. *)
Variable stat : string -> result N.

(** The order in which the [stat] calls of a listing settle. *)
Variable settled : list dirent -> list dirent.

(** An item of the one-level listing. *)
Record listedItem : Type := ListedItem {
  liName : string;
  liType : itemType;
  liSize : option string
}.

(** What [list_files] reports: the files found below the directory, or
    the items of the directory. *)
Inductive listing : Type :=
| FoundFiles (directory pattern : string) (files : list string) (count : nat)
| ListedItems (directory : string) (items : list listedItem) (count : nat).

Definition compareListed (a b : listedItem) : comparison :=
  compareEntries localeCompare
    (match liType a with TDirectory => true | TFile => false end) (liName a)
    (match liType b with TDirectory => true | TFile => false end) (liName b).

(** [args.directory || "."] *)
Definition directoryOrDot (directory : option string) : string :=
  match directory with
  | Some d => if truthy d then d else "."
  | None => "."
  end.

(** The callback of [map] in the one-level listing. *)
Definition itemOf (dirPath : string) (entry : dirent)
  : result listedItem :=
  match stat (NodePath.joinPaths [dirPath; direntName entry]) with
  | Ok size =>
      Ok (ListedItem (direntName entry)
            (if isDirectory entry then TDirectory else TFile)
            (if isDirectory entry then None
             else Some (formatSize size)))
  | Err e => Err e
  end.

(** The handler of [list_files]. *)
Definition list_files (directory : option string) (recursive : bool)
                      (pattern : option string) : result listing :=
  let directory := directoryOrDot directory in
  match resolvePath cwd PROJECT_ROOT directory with
  | Err e => Err e
  | Ok dirPath =>
      if recursive && truthyOpt pattern
      then
        let p := match pattern with Some p => p | None => "" end in
        let files :=
          match readdir dirPath with
          | Ok entries =>
              getFilesRecursively cwd PROJECT_ROOT dirPath true entries [p]
          | Err _ =>
              getFilesRecursively cwd PROJECT_ROOT dirPath false [] [p]
          end in
        Ok (FoundFiles directory p files (List.length files))
      else
        match readdir dirPath with
        | Err e => Err e
        | Ok entries =>
            match
              promiseAll (itemOf dirPath) settled
                (filter (fun e => negb (truthyOpt pattern)
                                  || match pattern with
                                     | Some p => endsWith (direntName e) p
                                     | None => true
                                     end)
                   (filter (fun e => negb (excludedName (direntName e)))
                      (filter
                         (fun e => negb (startsWith (direntName e) "."))
                         entries)))
            with
            | Err e => Err e
            | Ok items =>
                let items := sortBy compareListed items in
                Ok (ListedItems directory items (List.length items))
            end
        end
  end.

End Listing.

(** [path.basename(p)]: the last segment of the path, separators at the
    end left aside. *)
Definition basename (p : string) : string :=
  last (filter truthy (split NodePath.sep p)).

(** The [get_project_structure] handler, on the listing of the project
    root. *)
Definition get_project_structure
    (PROJECT_ROOT : string) (localeCompare : string -> string -> comparison)
    (readable : bool) (entries : list dirent) (max_depth : option nat)
  : string :=
  let maxDepth := match max_depth with
                  | Some (S d) => S d
                  | Some O | None => 3
                  end in
  let tree := buildTree localeCompare readable entries "" 0 maxDepth in
  (basename PROJECT_ROOT ++ "/" ++ newline ++ tree)%string.

(* ================================================================== *)
(** * Notions used in the further statements *)
(* ================================================================== *)

(** [located entries X]: the names [X] lead from a listing to a file,
    through directories that can be read. *)
Inductive located : list dirent -> list string -> Prop :=
| located_file (entries : list dirent) (n : string) :
    In (File n) entries -> located entries [n]
| located_dir (entries : list dirent) (n : string) (es : list dirent)
              (X : list string) :
    In (Dir n true es) entries -> located es X -> located entries (n :: X).

(** The entries of a listing that the tree shows, level by level and in
    the order of the listing, down to [remaining] levels. *)
Fixpoint shownWithin (remaining : nat) (readable : bool)
                     (entries : list dirent) : list dirent :=
  match remaining with
  | O => []
  | S remaining' =>
      if readable
      then flat_map
             (fun e =>
                e :: match e with
                     | Dir _ r es => shownWithin remaining' r es
                     | File _ => []
                     end)
             (filter (fun e => negb (excludedName (direntName e)))
                (filter (fun e => negb (startsWith (direntName e) "."))
                   entries))
      else []
  end.

(** The entries of a listing that the one-level operations keep. *)
Definition shownEntries (entries : list dirent) : list dirent :=
  filter (fun e => negb (excludedName (direntName e)))
    (filter (fun e => negb (startsWith (direntName e) ".")) entries).

(** The order of the names alone. *)
Definition byName (A : Type) (localeCompare : string -> string -> comparison)
                  (name : A -> string) (a b : A) : comparison :=
  localeCompare (name a) (name b).

(** The text of an absolute path in front of what follows its segments. *)
Definition stem (R : list string) : string :=
  match R with
  | [] => "/"
  | _ => (absolutePathOf R ++ "/")%string
  end.

(** The listing that serves the sample project at [/srv/app], and the
    items of that directory when every file has 2048 bytes. *)
Definition sampleReaddir (p : string) : result (list dirent) :=
  if String.eqb p "/srv/app" then Ok sampleProject
  else Err (message (systemError ENOENT "scandir" p)).

(** Every entry has 2048 bytes. *)
Definition sampleStat (p : string) : result N := Ok 2048%N.



Definition sampleItems : list listedItem :=
  [ ListedItem "app" TDirectory None;
    ListedItem "storage" TDirectory None;
    ListedItem "vendor-old" TDirectory None;
    ListedItem "artisan.php" TFile (Some "2.0 KB") ].

(** A file of four lines at [/srv/app/notes.txt], for the examples. *)
Definition sampleNotes : string :=
  ("one" ++ newline ++ "two" ++ newline ++ "three" ++ newline ++ "four")
  %string.

Definition sampleStore : fileStore :=
  fun p => if String.eqb p "/srv/app/notes.txt" then Some sampleNotes
           else None.

Definition sampleSystem : fileSystem :=
  FileSystem sampleStore
    (fun p => String.eqb p "/srv" || String.eqb p "/srv/app").

(** A project root with a sibling directory whose name begins with the
    name of the root. *)
Definition siblingSystem : fileSystem :=
  FileSystem
    (fun p => if String.eqb p "/srv/app-old/config.php" then Some "old"
              else sampleStore p)
    (fun p => String.eqb p "/srv" || String.eqb p "/srv/app"
              || String.eqb p "/srv/app-old").

(** Two states of the files differ at most at the path [resolvePath]
    gives for [path], which begins with the text of the root. *)
Definition changesInside (cwd PROJECT_ROOT path : string)
                         (st st' : fileStore) : Prop :=
  forall q,
    st' q <> st q ->
    resolvePath cwd PROJECT_ROOT path = Ok q
    /\ startsWith q PROJECT_ROOT = true.

(** What the rules for the parents of a class capture on a line. *)
Definition extendsOf (line : string) : option string :=
  match lineMatch Patterns.extendsRegex line with
  | Some extendsMatch => RegExp.cap extendsMatch 1
  | None => None
  end.

Definition implementsOf (line : string) : list string :=
  match lineMatch Patterns.implRegex line with
  | Some implMatch =>
      filter truthy (map trim (split ","%char (capText implMatch 1)))
  | None => []
  end.

(** What the rules for the members of a class record for the line with
    number [lineNum]. *)
Definition constantOf (lineNum : nat) (line : string)
  : option Analysis.constant :=
  match lineMatch Patterns.constRegex line with
  | Some constMatch =>
      Some (Analysis.Constant (capText constMatch 2)
              (if truthyOpt (RegExp.cap constMatch 1)
               then capText constMatch 1 else "public")
              lineNum)
  | None => None
  end.

Definition propertyOf (lineNum : nat) (line : string)
  : option Analysis.property :=
  match lineMatch Patterns.propRegex line with
  | Some propMatch =>
      Some (Analysis.Property (capText propMatch 4) (capText propMatch 1)
              (truthyOpt (RegExp.cap propMatch 2))
              (orNull (RegExp.cap propMatch 3))
              lineNum)
  | None => None
  end.

Definition methodOf (lineNum : nat) (line : string)
  : option Analysis.method :=
  match lineMatch Patterns.methodRegex line with
  | Some methodMatch =>
      Some (Analysis.Method (capText methodMatch 3) (capText methodMatch 1)
              (truthyOpt (RegExp.cap methodMatch 2))
              (orNull (Some (trim (capText methodMatch 4))))
              (match lineMatch Patterns.returnRegex line with
               | Some rm => RegExp.cap rm 1
               | None => None
               end)
              lineNum)
  | None => None
  end.

(** The records of a rule for the lines of a file, the first line having
    index [i]. *)
Fixpoint recorded (A : Type) (rule : nat -> string -> option A) (i : nat)
                  (lines : list string) : list A :=
  match lines with
  | [] => []
  | line :: lines' =>
      match rule (i + 1) line with
      | Some v => [v]
      | None => []
      end ++ recorded rule (S i) lines'
  end.

(** The keywords of the analyzer's alternatives. *)
Definition visibilities : list string := ["public"; "protected"; "private"].
Definition classKinds : list string :=
  ["class"; "interface"; "trait"; "enum"].

(** The alternative of the literal texts [q], [qs]. *)
Fixpoint anyOf (q : string) (qs : list string) : RegExp.regex :=
  match qs with
  | [] => literalPattern q
  | q' :: qs' => RegExp.Alt (literalPattern q) (anyOf q' qs')
  end.

(** A pattern without the capturing group [n]. *)
Fixpoint groupFree (n : nat) (r : RegExp.regex) : bool :=
  match r with
  | RegExp.Seq r1 r2 | RegExp.Alt r1 r2 => groupFree n r1 && groupFree n r2
  | RegExp.Group i r1 => negb (i =? n)%nat && groupFree n r1
  | RegExp.Star r1 | RegExp.Plus r1 | RegExp.Opt r1 => groupFree n r1
  | _ => true
  end.

(** A matcher that lets a match through has called its continuation
    with the capture of group [n] as it found it. *)
Definition keeps (n : nat)
    (body : (RegExp.mstate -> option RegExp.mstate) ->
            RegExp.mstate -> option RegExp.mstate) : Prop :=
  forall k x y,
    body k x = Some y ->
    exists x', k x' = Some y
               /\ RegExp.lookupCap n (RegExp.caps x')
                  = RegExp.lookupCap n (RegExp.caps x).

(** The change [search_and_replace] records for the line with number
    [lineNum]. *)
Definition changeOf (search replace : string) (lineNum : nat)
                    (line : string) : option change :=
  if includes line search
  then Some (Change lineNum (trim line)
               (trim (replaceAll line search replace)))
  else None.

(* ================================================================== *)
(** * Facts about the string primitives *)
(* ================================================================== *)

Module JsStringFacts.

Lemma append_nil_r (s : string) : (s ++ "")%string = s.
Proof. induction s; simpl; congruence. Qed.

Lemma append_assoc (a b c : string) :
  ((a ++ b) ++ c = a ++ (b ++ c))%string.
Proof. induction a; simpl; congruence. Qed.

Lemma length_append (a b : string) :
  String.length (a ++ b) = String.length a + String.length b.
Proof. induction a; simpl; congruence. Qed.

Lemma startsWith_append (p t : string) : startsWith (p ++ t) p = true.
Proof.
  induction p as [|c p IH]; simpl; [reflexivity|].
  now rewrite Ascii.eqb_refl.
Qed.

(** [startsWith] decides the prefix relation. *)
Lemma startsWith_spec (s p : string) :
  startsWith s p = true <-> exists t, s = (p ++ t)%string.
Proof.
  split.
  - revert s; induction p as [|c p IH]; intros s H.
    + now exists s.
    + destruct s as [|d s]; simpl in H; [discriminate|].
      apply andb_true_iff in H as [Hc Hp].
      apply Ascii.eqb_eq in Hc; subst d.
      destruct (IH _ Hp) as [t ->]. now exists t.
  - intros [t ->]. apply startsWith_append.
Qed.

Lemma startsWith_false (s p : string) :
  startsWith s p = false <-> forall t, s <> (p ++ t)%string.
Proof.
  split.
  - intros H t ->. now rewrite startsWith_append in H.
  - intros H. destruct (startsWith s p) eqn:E; [|reflexivity].
    apply startsWith_spec in E as [t ->]. now destruct (H t).
Qed.

Lemma includes_unfold (s sub : string) :
  includes s sub =
  startsWith s sub ||
  match s with
  | EmptyString => false
  | String _ s' => includes s' sub
  end.
Proof. destruct s; reflexivity. Qed.

(** [includes] decides the substring relation. *)
Lemma includes_spec (s sub : string) :
  includes s sub = true <->
  exists a b, s = (a ++ sub ++ b)%string.
Proof.
  split.
  - induction s as [|c s IH]; simpl; intros H.
    + rewrite orb_false_r in H. apply startsWith_spec in H as [t ->].
      now exists "", t.
    + apply orb_true_iff in H as [H|H].
      * apply startsWith_spec in H as [t Ht]. exists "", t. exact Ht.
      * destruct (IH H) as (a & b & ->). now exists (String c a), b.
  - intros (a & b & ->). induction a as [|c a IH].
    + simpl. rewrite includes_unfold. now rewrite startsWith_append.
    + rewrite includes_unfold. simpl in *. rewrite IH. apply orb_true_r.
Qed.

Lemma includes_empty (s : string) : includes s "" = true.
Proof. destruct s; reflexivity. Qed.

Lemma drop_append (a b : string) : drop (String.length a) (a ++ b) = b.
Proof. induction a; simpl; auto. Qed.

Lemma take_append (a b : string) : take (String.length a) (a ++ b) = a.
Proof. induction a; simpl; congruence. Qed.

Lemma take_drop (n : nat) (s : string) : (take n s ++ drop n s)%string = s.
Proof.
  revert s; induction n as [|n IH]; intros [|c s]; simpl; auto.
  now rewrite IH.
Qed.

Lemma length_drop (n : nat) (s : string) :
  String.length (drop n s) = String.length s - n.
Proof.
  revert s; induction n as [|n IH]; intros [|c s]; simpl; auto.
Qed.

Lemma length_take (n : nat) (s : string) :
  String.length (take n s) = Nat.min n (String.length s).
Proof.
  revert s; induction n as [|n IH]; intros [|c s]; simpl; auto.
Qed.

(** [endsWith] decides the suffix relation. *)
Lemma endsWith_spec (s suf : string) :
  endsWith s suf = true <-> exists a, s = (a ++ suf)%string.
Proof.
  unfold endsWith. split.
  - intros H. apply andb_true_iff in H as [Hl He].
    apply Nat.leb_le in Hl. apply String.eqb_eq in He.
    exists (take (String.length s - String.length suf) s).
    pose proof (take_drop (String.length s - String.length suf) s) as E.
    rewrite He in E. now symmetry.
  - intros [a ->]. rewrite length_append.
    apply andb_true_iff; split.
    + apply Nat.leb_le. lia.
    + replace (String.length a + String.length suf - String.length suf)
        with (String.length a) by lia.
      rewrite drop_append. apply String.eqb_refl.
Qed.

Lemma endsWith_append (a s suf : string) :
  endsWith s suf = true -> endsWith (a ++ s) suf = true.
Proof.
  intros H. apply endsWith_spec in H as [b ->].
  apply endsWith_spec. exists (a ++ b)%string. now rewrite append_assoc.
Qed.

Lemma split_not_nil (sep : ascii) (s : string) : split sep s <> [].
Proof.
  induction s as [|c s IH]; simpl; [discriminate|].
  destruct (Ascii.eqb c sep); [discriminate|].
  destruct (split sep s); [contradiction|discriminate].
Qed.

(** Joining the pieces of a split gives the text back. *)
Lemma join_split (sep : ascii) (s : string) :
  join (String sep "") (split sep s) = s.
Proof.
  induction s as [|c s IH]; simpl; [reflexivity|].
  destruct (Ascii.eqb c sep) eqn:E.
  - apply Ascii.eqb_eq in E; subst c.
    destruct (split sep s) eqn:Es; [now destruct (split_not_nil sep s)|].
    simpl in *. now rewrite IH.
  - destruct (split sep s) as [|h t] eqn:Es;
      [now destruct (split_not_nil sep s)|].
    destruct t; simpl in *; now rewrite <- IH.
Qed.

End JsStringFacts.

(* ================================================================== *)
(** * Path sandbox *)
(* ================================================================== *)

Section SandboxProperties.
Variables cwd PROJECT_ROOT : string.

Lemma resolvePath_cases (p : string) :
  resolvePath cwd PROJECT_ROOT p =
  if startsWith (NodePath.resolve cwd [PROJECT_ROOT; p]) PROJECT_ROOT
  then Ok (NodePath.resolve cwd [PROJECT_ROOT; p])
  else Err accessDenied.
Proof.
  unfold resolvePath.
  now destruct (startsWith _ PROJECT_ROOT).
Qed.

(** C1.  For every caller-supplied path, [resolvePath] either returns the
    resolved absolute path, which then has the project root's string as
    a prefix, or fails with the access-denied error; it fails exactly
    when the resolved absolute path does not begin with the project
    root's string, so no path without that prefix is ever returned. *)
Theorem resolvePath_sandbox (p : string) :
  let absolutePath := NodePath.resolve cwd [PROJECT_ROOT; p] in
  match resolvePath cwd PROJECT_ROOT p with
  | Ok a =>
      a = absolutePath
      /\ startsWith a PROJECT_ROOT = true
      /\ exists rest, a = (PROJECT_ROOT ++ rest)%string
  | Err e =>
      e = accessDenied
      /\ startsWith absolutePath PROJECT_ROOT = false
      /\ ~ exists rest, absolutePath = (PROJECT_ROOT ++ rest)%string
  end.
Proof.
  intros absolutePath. rewrite resolvePath_cases. fold absolutePath.
  destruct (startsWith absolutePath PROJECT_ROOT) eqn:E.
  - repeat split; trivial. now apply JsStringFacts.startsWith_spec.
  - repeat split; trivial. intros [rest H].
    apply (proj1 (JsStringFacts.startsWith_false _ _) E rest H).
Qed.

End SandboxProperties.

(** Paths that climb out of the root with [..] segments are refused,
    paths that climb and come back are accepted. *)
Example resolvePath_dotdot_refused :
  resolvePath "/srv" "/srv/app" "../../etc/passwd" = Err accessDenied
  /\ resolvePath "/srv" "/srv/app" "a/../../../srv/other" = Err accessDenied
  /\ resolvePath "/srv" "/srv/app" "a/b/../../c/./d.php"
     = Ok "/srv/app/c/d.php"
  /\ resolvePath "/srv" "/srv/app" "../app/routes/web.php"
     = Ok "/srv/app/routes/web.php".
Proof. repeat split; reflexivity. Qed.

(** The comparison is one of strings: a sibling directory whose name
    begins like the root's passes it. *)
Example resolvePath_sibling :
  resolvePath "/srv" "/srv/app" "../app-old/config.php"
  = Ok "/srv/app-old/config.php".
Proof. reflexivity. Qed.

(* ================================================================== *)
(** * Paths built from valid names *)
(* ================================================================== *)

Module NodePathFacts.
Import NodePath JsStringFacts.

Lemma includes_sep_cons (c : ascii) (n : string) :
  includes (String c n) "/" = Ascii.eqb c sep || includes n "/".
Proof.
  rewrite includes_unfold. simpl. now rewrite andb_true_r.
Qed.

Lemma split_sepfree (n : string) :
  includes n "/" = false -> split sep n = [n].
Proof.
  induction n as [|c n IH]; intros H; [reflexivity|].
  rewrite includes_sep_cons in H. apply orb_false_iff in H as [Hc Hn].
  simpl. rewrite Hc, IH by assumption. reflexivity.
Qed.

Lemma split_sepfree_app (n t : string) :
  includes n "/" = false ->
  split sep (n ++ String sep t) = n :: split sep t.
Proof.
  induction n as [|c n IH]; intros H.
  - reflexivity.
  - rewrite includes_sep_cons in H. apply orb_false_iff in H as [Hc Hn].
    simpl. rewrite Hc, IH by assumption. reflexivity.
Qed.

Lemma validName_parts (n : string) :
  validName n = true ->
  n <> "" /\ String.eqb n "" = false /\ String.eqb n "." = false
  /\ String.eqb n ".." = false /\ includes n "/" = false.
Proof.
  unfold validName. intros H.
  repeat (apply andb_true_iff in H as [H ?]).
  repeat match goal with
         | H : negb _ = true |- _ => apply negb_true_iff in H
         end.
  destruct n; [discriminate|]. repeat split; trivial. discriminate.
Qed.

(** A valid segment is pushed on the stack. *)
Lemma normalize_push (a : bool) (res : list string) (n t : string) :
  validName n = true ->
  normalizeString a res (split sep (n ++ String sep t))
  = normalizeString a (n :: res) (split sep t).
Proof.
  intros H. destruct (validName_parts _ H) as (_ & H0 & H1 & H2 & H3).
  rewrite split_sepfree_app by assumption. simpl. now rewrite H0, H1, H2.
Qed.

Lemma normalize_last (a : bool) (res : list string) (n : string) :
  validName n = true ->
  normalizeString a res (split sep n) = rev res ++ [n].
Proof.
  intros H. destruct (validName_parts _ H) as (_ & H0 & H1 & H2 & H3).
  rewrite split_sepfree by assumption. simpl. now rewrite H0, H1, H2.
Qed.

(** An empty segment is dropped. *)
Lemma normalize_skip (a : bool) (res : list string) (t : string) :
  normalizeString a res (split sep (String sep t))
  = normalizeString a res (split sep t).
Proof. reflexivity. Qed.

Lemma join_cons2 (s s' : string) (l : list string) :
  join "/" (s :: s' :: l) = (s ++ String sep (join "/" (s' :: l)))%string.
Proof. reflexivity. Qed.

Lemma normalize_segments_then (a : bool) (S res : list string)
                              (t : string) :
  validNames S ->
  normalizeString a res (split sep (join "/" S ++ String sep t))
  = normalizeString a (rev S ++ res) (split sep t).
Proof.
  intros HS. revert res.
  induction HS as [|s S Hs HS IH]; intros res; [reflexivity|].
  destruct S as [|s' S'].
  - simpl join. now rewrite normalize_push.
  - rewrite join_cons2, append_assoc.
    change ((String sep (join "/" (s' :: S')) ++ String sep t)%string)
      with (String sep (join "/" (s' :: S') ++ String sep t)).
    rewrite normalize_push by assumption. rewrite IH.
    simpl. now rewrite <- !app_assoc.
Qed.

Lemma normalize_segments (a : bool) (S res : list string) :
  validNames S ->
  normalizeString a res (split sep (join "/" S)) = rev res ++ S.
Proof.
  intros HS. revert res.
  induction HS as [|s S Hs HS IH]; intros res.
  - simpl. now rewrite app_nil_r.
  - destruct S as [|s' S'].
    + simpl join. now apply normalize_last.
    + rewrite join_cons2, normalize_push by assumption.
      rewrite IH. simpl. now rewrite <- app_assoc.
Qed.

(** The segments of an absolute path built from valid names. *)
Lemma segments_absolute (S : list string) :
  validNames S -> normalizeSegments false (absolutePathOf S) = S.
Proof.
  intros HS. unfold normalizeSegments, absolutePathOf.
  change (("/" ++ join "/" S)%string) with (String sep (join "/" S)).
  rewrite normalize_skip. now rewrite normalize_segments.
Qed.

Lemma join_nonempty (S : list string) :
  validNames S -> S <> [] -> String.eqb (join "/" S) "" = false.
Proof.
  intros HS HN. destruct HS as [|s S Hs HS]; [contradiction|].
  destruct (validName_parts _ Hs) as (Hn & _).
  destruct s; [contradiction|]. destruct S; reflexivity.
Qed.

Lemma join_snoc (S : list string) (n : string) :
  S <> [] -> join "/" (S ++ [n]) = (join "/" S ++ "/" ++ n)%string.
Proof.
  intros HN. induction S as [|s S IH]; [contradiction|].
  destruct S as [|s' S']; [reflexivity|].
  change ((s :: s' :: S') ++ [n]) with (s :: (s' :: S') ++ [n]).
  cbn [app]. rewrite !join_cons2.
  cbn [app] in IH. rewrite IH by discriminate.
  rewrite append_assoc. reflexivity.
Qed.

Lemma endsWith_sepfree (n : string) :
  validName n = true -> endsWith n "/" = false.
Proof.
  intros H. destruct (validName_parts _ H) as (_ & _ & _ & _ & H3).
  destruct (endsWith n "/") eqn:E; [|reflexivity].
  apply endsWith_spec in E as [a ->].
  assert (includes (a ++ "/") "/" = true) as Hi.
  { apply includes_spec. exists a, "". reflexivity. }
  congruence.
Qed.

Lemma endsWith_join_sepfree (t n : string) :
  validName n = true -> endsWith (t ++ "/" ++ n) "/" = false.
Proof.
  intros H. destruct (validName_parts _ H) as (Hne & _ & _ & _ & H3).
  destruct (endsWith (t ++ "/" ++ n) "/") eqn:E; [|reflexivity].
  apply endsWith_spec in E as [a Ha].
  assert (endsWith n "/" = true) as Hn.
  { unfold endsWith.
    assert (String.length n <> 0) by (destruct n; simpl; congruence).
    apply andb_true_iff; split.
    - apply Nat.leb_le. simpl. lia.
    - assert (drop (String.length (t ++ "/" ++ n) - 1) (t ++ "/" ++ n)
              = "/") as Hd.
      { rewrite Ha at 2. rewrite Ha, length_append. simpl.
        replace (String.length a + 1 - 1) with (String.length a) by lia.
        apply drop_append. }
      rewrite <- append_assoc in Hd.
      rewrite length_append in Hd.
      replace (String.length (t ++ "/") + String.length n - 1)
        with (String.length (t ++ "/") + (String.length n - 1)) in Hd
        by lia.
      assert (forall a b k, drop (String.length a + k) (a ++ b)
                            = drop k b) as Hdd.
      { intros a0 b k. induction a0; simpl; auto. }
      rewrite Hdd in Hd. simpl String.length. rewrite Hd.
      reflexivity. }
  rewrite endsWith_sepfree in Hn by assumption. discriminate.
Qed.

(** [path.join(dir, name)] below an absolute directory. *)
Lemma joinPaths_absolute (S : list string) (n : string) :
  validNames S -> validName n = true ->
  joinPaths [absolutePathOf S; n] = absolutePathOf (S ++ [n]).
Proof.
  intros HS Hn. destruct (validName_parts _ Hn) as (Hne & H0 & _).
  unfold joinPaths. simpl filter.
  assert (truthy n = true) as Ht by (destruct n; [contradiction|easy]).
  rewrite Ht. cbn [join]. unfold normalize.
  assert (validNames (S ++ [n])) as HSn.
  { apply Forall_app; split; [assumption|now constructor]. }
  assert (normalizeSegments false (absolutePathOf S ++ "/" ++ n) = S ++ [n])
    as Hseg.
  { unfold normalizeSegments, absolutePathOf.
    change (("/" ++ join "/" S) ++ "/" ++ n)%string
      with (String sep (join "/" S ++ String sep n)).
    rewrite normalize_skip, normalize_segments_then by assumption.
    rewrite normalize_last by assumption.
    rewrite rev_app_distr, rev_involutive. simpl. reflexivity. }
  assert (isAbsolute (absolutePathOf S ++ "/" ++ n) = true) as Habs
    by reflexivity.
  assert (String.eqb (absolutePathOf S ++ "/" ++ n) "" = false) as Hnil
    by reflexivity.
  rewrite Habs, Hnil. cbn [negb]. rewrite Hseg.
  rewrite join_nonempty by (trivial; now destruct S).
  rewrite endsWith_join_sepfree by assumption.
  reflexivity.
Qed.

Lemma resolve_absolute (cwd : string) (S : list string) :
  validNames S -> resolve cwd [absolutePathOf S] = absolutePathOf S.
Proof.
  intros HS. unfold resolve. cbn [rev app resolveLoop].
  assert (isAbsolute (absolutePathOf S) = true) as Habs by reflexivity.
  assert (String.eqb (absolutePathOf S) "" = false) as Hnil
    by reflexivity.
  rewrite Habs, Hnil. cbn [negb].
  unfold normalizeSegments, absolutePathOf.
  change ((("/" ++ join "/" S) ++ "/" ++ "")%string)
    with (String sep (join "/" S ++ String sep "")).
  rewrite normalize_skip, normalize_segments_then by assumption.
  simpl. rewrite app_nil_r, rev_involutive. reflexivity.
Qed.

Lemma stripCommon_prefix (R X : list string) :
  stripCommon R (R ++ X) = ([], X).
Proof.
  induction R as [|r R IH]; simpl.
  - now destruct X.
  - now rewrite String.eqb_refl.
Qed.

Lemma absolutePathOf_inj (S T : list string) :
  validNames S -> validNames T ->
  absolutePathOf S = absolutePathOf T -> S = T.
Proof.
  intros HS HT E.
  rewrite <- (segments_absolute HS), <- (segments_absolute HT).
  now rewrite E.
Qed.

(** [path.relative(root, p)] for a path [p] below the root. *)
Lemma relative_below (cwd : string) (R X : list string) :
  validNames R -> validNames X -> X <> [] ->
  relative cwd (absolutePathOf R) (absolutePathOf (R ++ X)) = join "/" X.
Proof.
  intros HR HX HN. unfold relative.
  assert (validNames (R ++ X)) as HRX by (now apply Forall_app).
  assert (absolutePathOf R <> absolutePathOf (R ++ X)) as Hne.
  { intros E. apply absolutePathOf_inj in E; trivial.
    apply (f_equal (@List.length _)) in E. rewrite length_app in E.
    destruct X; [contradiction|simpl in E; lia]. }
  apply String.eqb_neq in Hne. rewrite Hne.
  rewrite !resolve_absolute by assumption. rewrite Hne.
  rewrite !segments_absolute by assumption.
  rewrite stripCommon_prefix. reflexivity.
Qed.

End NodePathFacts.

(* ================================================================== *)
(** * The stable sort *)
(* ================================================================== *)

Section SortFacts.
Variable A : Type.
Variable cmp : A -> A -> comparison.

Lemma insertSorted_perm (x : A) (l : list A) :
  Permutation (insertSorted cmp x l) (x :: l).
Proof.
  induction l as [|y l IH]; simpl; [apply Permutation_refl|].
  destruct (cmp x y); try apply Permutation_refl.
  eapply Permutation_trans; [apply perm_skip, IH|apply perm_swap].
Qed.

Lemma sortBy_perm (l : list A) : Permutation (sortBy cmp l) l.
Proof.
  induction l as [|x l IH]; simpl; [apply Permutation_refl|].
  eapply Permutation_trans; [apply insertSorted_perm|].
  now apply perm_skip.
Qed.

Lemma sortBy_In (l : list A) (x : A) : In x (sortBy cmp l) <-> In x l.
Proof.
  split; apply Permutation_in;
    [apply sortBy_perm|apply Permutation_sym, sortBy_perm].
Qed.

Lemma sortBy_length (l : list A) :
  List.length (sortBy cmp l) = List.length l.
Proof. apply Permutation_length, sortBy_perm. Qed.
End SortFacts.

(* ================================================================== *)
(** * Tree walker *)
(* ================================================================== *)

(** Induction over a listing, with the hypothesis for every entry of a
    directory. *)
Lemma dirent_nested_ind (P : dirent -> Prop) :
  (forall n, P (File n)) ->
  (forall n r es, Forall P es -> P (Dir n r es)) ->
  forall e, P e.
Proof.
  intros HF HD. fix IH 1. intros [n|n r es].
  - apply HF.
  - apply HD. induction es as [|e es IHes]; constructor.
    + apply IH.
    + apply IHes.
Qed.

Lemma wellFormed_Dir (n : string) (r : bool) (es : list dirent) :
  wellFormed (Dir n r es) = validName n && forallb wellFormed es.
Proof.
  reflexivity.
Qed.

Section WalkProperties.
Import NodePathFacts JsStringFacts.
Variables cwd PROJECT_ROOT : string.
Variable extensions : list string.

Local Abbreviation walkFrom := (walkEntry cwd PROJECT_ROOT extensions).

(** The loop body, with the recursion over the entries of a directory
    as a [flat_map]. *)
Lemma walkEntry_unfold (currentDir : string) (entry : dirent) :
  walkFrom currentDir entry =
  let fullPath := NodePath.joinPaths [currentDir; direntName entry] in
  let relativePath := NodePath.relative cwd PROJECT_ROOT fullPath in
  if hidden (direntName entry) || shouldExclude relativePath then []
  else match entry with
       | Dir _ readable entries =>
           if readable then flat_map (walkFrom fullPath) entries else []
       | File name =>
           if existsb (fun ext => endsWith name ext) extensions
           then [relativePath] else []
       end.
Proof.
  destruct entry as [n|n r es]; [reflexivity|].
  unfold hidden. cbn [walkEntry direntName]. cbn zeta.
  destruct (startsWith n "." || _); [reflexivity|].
  destruct r; [|reflexivity].
  induction es as [|e es IH]; [reflexivity|].
  cbn [flat_map]. now rewrite <- IH.
Qed.

(** An entry that is hidden, or whose path relative to the root
    contains an excluded fragment, contributes nothing: neither itself
    nor anything below it. *)
Lemma walkEntry_excluded (currentDir : string) (entry : dirent) :
  hidden (direntName entry) = true
  \/ shouldExclude
       (NodePath.relative cwd PROJECT_ROOT
          (NodePath.joinPaths [currentDir; direntName entry])) = true ->
  walkFrom currentDir entry = [].
Proof.
  intros H. rewrite walkEntry_unfold. cbn zeta.
  destruct H as [-> | ->]; [reflexivity|]. now rewrite orb_true_r.
Qed.

(** Every collected path passed the exclusion test. *)
Lemma walkEntry_not_excluded (entry : dirent) :
  forall currentDir p,
    In p (walkFrom currentDir entry) -> shouldExclude p = false.
Proof.
  induction entry as [n|n r es IH] using dirent_nested_ind;
    intros currentDir p; rewrite walkEntry_unfold; cbn zeta.
  - destruct (hidden _ || shouldExclude _) eqn:E; [contradiction|].
    apply orb_false_iff in E as [_ E].
    destruct (existsb _ _); [|contradiction].
    intros [<-|[]]. exact E.
  - destruct (hidden _ || shouldExclude _); [contradiction|].
    destruct r; [|contradiction].
    intros H. apply in_flat_map in H as (e & He & Hp).
    rewrite Forall_forall in IH. eapply IH; eauto.
Qed.

Lemma startsWith_join_head (s : string) (X : list string) :
  validName s = true ->
  startsWith (join "/" (s :: X)) "." = startsWith s ".".
Proof.
  intros Hs. destruct (validName_parts _ Hs) as (Hne & _).
  destruct s as [|c s]; [contradiction|].
  destruct X; reflexivity.
Qed.

Lemma endsWith_join_last (X : list string) (n ext : string) :
  endsWith n ext = true -> endsWith (join "/" (X ++ [n])) ext = true.
Proof.
  intros H. destruct X as [|x X]; [exact H|].
  rewrite join_snoc by discriminate.
  now apply endsWith_append, endsWith_append.
Qed.

(** The shape of the collected paths for a walk that starts in a
    directory below the root: the segments [D] from the root to that
    directory, then the names of the entries passed, none of them
    hidden, the last one carrying a requested suffix. *)
Lemma walkEntry_paths (R : list string) (entry : dirent) :
  validNames R -> PROJECT_ROOT = absolutePathOf R ->
  forall D p,
    validNames D -> wellFormed entry = true ->
    In p (walkFrom (absolutePathOf (R ++ D)) entry) ->
    exists X,
      p = join "/" (D ++ X) /\ X <> [] /\ validNames X
      /\ Forall (fun s => hidden s = false) X
      /\ exists ext, In ext extensions /\ endsWith p ext = true.
Proof.
  intros HR HP.
  assert (forall X, validNames X -> X <> [] ->
                    NodePath.relative cwd PROJECT_ROOT
                      (absolutePathOf (R ++ X)) = join "/" X) as Hrel.
  { intros X HX HN. rewrite HP. now apply relative_below. }
  induction entry as [n|n r es IH] using dirent_nested_ind;
    intros D p HD Hwf; rewrite walkEntry_unfold; cbn zeta;
    cbn [direntName].
  - simpl in Hwf. rewrite andb_true_r in Hwf.
    rewrite joinPaths_absolute
      by (trivial; apply Forall_app; now split).
    rewrite <- app_assoc.
    rewrite Hrel;
      [|apply Forall_app; split; trivial; now constructor
       |now destruct D].
    destruct (hidden n) eqn:Hh; [contradiction|]. cbn [orb].
    destruct (shouldExclude _); [contradiction|].
    destruct (existsb _ extensions) eqn:Hex; [|contradiction].
    intros [<-|[]]. exists [n]. repeat split.
    + discriminate.
    + now constructor.
    + now constructor.
    + apply existsb_exists in Hex as (ext & Hin & Hend).
      exists ext. split; trivial. now apply endsWith_join_last.
  - rewrite wellFormed_Dir in Hwf. apply andb_true_iff in Hwf as [Hn Hes].
    rewrite joinPaths_absolute
      by (trivial; apply Forall_app; now split).
    rewrite <- app_assoc.
    destruct (hidden n) eqn:Hh; [contradiction|]. cbn [orb].
    destruct (shouldExclude _); [contradiction|].
    destruct r; [|contradiction].
    intros H. apply in_flat_map in H as (e & He & Hp).
    rewrite Forall_forall in IH. rewrite forallb_forall in Hes.
    assert (validNames (D ++ [n])) as HDn
        by (apply Forall_app; split; trivial; now constructor).
    destruct (IH e He (D ++ [n]) p HDn (Hes e He) Hp)
      as (X & -> & HX & HvX & HhX & Hext).
    exists (n :: X). rewrite <- app_assoc. repeat split; trivial.
    + discriminate.
    + now constructor.
    + now constructor.
    + now rewrite <- app_assoc in Hext.
Qed.

End WalkProperties.

(* ================================================================== *)
(** * Tree rendering and listing *)
(* ================================================================== *)

Section RenderProperties.
Import JsStringFacts.
Variable localeCompare : string -> string -> comparison.

Lemma treeEntries_shown (entries : list dirent) (e : dirent) :
  In e (treeEntries localeCompare entries) ->
  In e entries /\ shown e.
Proof.
  unfold treeEntries. intros H. apply sortBy_In in H.
  apply filter_In in H as [H Hx]. apply filter_In in H as [H Hh].
  apply negb_true_iff in Hx, Hh. now repeat split.
Qed.

(** Every line of the rendering is for an entry that is neither hidden
    nor named like a member of the exclusion list. *)
Lemma treeLines_shown (remaining : nat) :
  forall readable entries prefix l,
    In l (treeLines localeCompare remaining readable entries prefix) ->
    shown (snd l).
Proof.
  induction remaining as [|remaining IH]; intros readable entries prefix l;
    [contradiction|].
  cbn [treeLines]. destruct readable; [|contradiction].
  pose proof (treeEntries_shown entries) as Hall.
  induction (treeEntries localeCompare entries) as [|e filtered IHf];
    [contradiction|].
  cbn [lineEntries]. intros [<-|H].
  - apply (Hall e). now left.
  - apply in_app_or in H as [H|H].
    + destruct e as [n|n r es]; [contradiction|]. eapply IH, H.
    + apply IHf; trivial. intros e' He'. apply Hall. now right.
Qed.

Lemma concat_app (l1 l2 : list string) :
  String.concat "" (l1 ++ l2)
  = (String.concat "" l1 ++ String.concat "" l2)%string.
Proof.
  induction l1 as [|x l1 IH]; [reflexivity|].
  destruct l1 as [|y l1].
  - destruct l2; simpl; [now rewrite append_nil_r|reflexivity].
  - change (String.concat "" ((x :: y :: l1) ++ l2))
      with (x ++ String.concat "" ((y :: l1) ++ l2))%string.
    rewrite IH. simpl. now rewrite append_assoc.
Qed.

Lemma concat_cons (x : string) (l : list string) :
  String.concat "" (x :: l) = (x ++ String.concat "" l)%string.
Proof. destruct l; simpl; [now rewrite append_nil_r|reflexivity]. Qed.

(** The text [buildTree] returns is the lines one after the other. *)
Lemma buildTreeFrom_lines (remaining : nat) :
  forall readable entries prefix,
    buildTreeFrom localeCompare remaining readable entries prefix
    = String.concat ""
        (map renderLine
           (treeLines localeCompare remaining readable entries prefix)).
Proof.
  induction remaining as [|remaining IH]; intros readable entries prefix;
    [reflexivity|].
  cbn [buildTreeFrom treeLines]. destruct readable; [|reflexivity].
  induction (treeEntries localeCompare entries) as [|e filtered IHf];
    [reflexivity|].
  cbn [renderEntries lineEntries].
  rewrite IHf. cbn [map]. rewrite concat_cons, map_app, concat_app.
  destruct e as [n|n r es]; unfold renderLine; cbn [fst snd map].
  - cbn [String.concat]. rewrite !append_assoc. reflexivity.
  - rewrite IH. rewrite !append_assoc. reflexivity.
Qed.

(** The recursion of [buildTree] as the program has it: nothing at the
    depth limit, and one level deeper below every directory. *)
Lemma buildTree_unfold (readable : bool) (entries : list dirent)
                       (prefix : string) (depth maxDepth : nat) :
  buildTree localeCompare readable entries prefix depth maxDepth
  = if (maxDepth <=? depth)%nat then ""
    else if readable
         then renderEntries
                (fun r es p =>
                   buildTree localeCompare r es p (depth + 1) maxDepth)
                prefix (treeEntries localeCompare entries)
         else "".
Proof.
  unfold buildTree. destruct (maxDepth <=? depth)%nat eqn:E.
  - apply Nat.leb_le in E.
    replace (maxDepth - depth) with 0 by lia. reflexivity.
  - apply Nat.leb_gt in E.
    replace (maxDepth - depth) with (S (maxDepth - (depth + 1))) by lia.
    reflexivity.
Qed.

(** Two files at depth 0 with a depth limit of 1: two lines, the
    first with the connector of an inner entry, the second with the
    connector of the last one. *)
Example buildTree_two_files :
  buildTree byCodeUnits true [File "b.txt"; File "a.txt"] "" 0 1
  = ("├── a.txt" ++ newline ++ "└── b.txt" ++ newline)%string.
Proof. reflexivity. Qed.

(** The items of the one-level listing. *)
Lemma listItems_shown (entries : list dirent) (pattern : option string)
                      (it : listItem) :
  In it (listItems localeCompare entries pattern) ->
  exists e, In e entries /\ itemName it = direntName e /\ shown e
            /\ match pattern with
               | Some p => truthy p = true ->
                           endsWith (direntName e) p = true
               | None => True
               end.
Proof.
  unfold listItems. intros H. apply sortBy_In in H.
  apply in_map_iff in H as (e & <- & H).
  apply filter_In in H as [H Hp]. apply filter_In in H as [H Hx].
  apply filter_In in H as [H Hh]. apply negb_true_iff in Hx, Hh.
  exists e. repeat split; trivial.
  destruct pattern as [p|]; [|trivial].
  intros Ht. rewrite Ht in Hp. exact Hp.
Qed.

End RenderProperties.

(* ================================================================== *)
(** * Exclusion during traversal *)
(* ================================================================== *)

Lemma shouldExclude_false (p : string) :
  shouldExclude p = false <->
  forall fragment, In fragment EXCLUDE_DIRS -> includes p fragment = false.
Proof.
  unfold shouldExclude. split.
  - intros H fragment Hin.
    destruct (includes p fragment) eqn:E; [|reflexivity].
    assert (existsb (fun dir => includes p dir) EXCLUDE_DIRS = true)
      by (apply existsb_exists; eauto).
    congruence.
  - intros H. destruct (existsb _ _) eqn:E; [|reflexivity].
    apply existsb_exists in E as (d & Hin & Hd).
    rewrite (H d Hin) in Hd. discriminate.
Qed.

(** C2, as amended.  The recursive file collection leaves out every entry
    whose name starts with the hidden-file marker or whose path relative
    to the project root contains a fragment of the exclusion list, with
    everything below it.  For every well-formed directory tree and every
    start directory inside the root, no path it returns contains a
    fragment of the exclusion list, every returned path ends with one of
    the requested suffixes, no segment below the start directory starts
    with the marker, and when the walk starts at the root no returned
    path starts with the marker.  The tree rendering and the one-level
    listing leave out every entry whose name starts with the marker or
    is a member of the exclusion list. *)
Theorem traversal_exclusion
    (cwd PROJECT_ROOT : string)
    (localeCompare : string -> string -> comparison)
    (R D : list string) (extensions : list string)
    (readable : bool) (entries : list dirent) :
  validNames R -> PROJECT_ROOT = absolutePathOf R -> validNames D ->
  forallb wellFormed entries = true ->
  (forall currentDir entry,
      hidden (direntName entry) = true
      \/ shouldExclude
           (NodePath.relative cwd PROJECT_ROOT
              (NodePath.joinPaths [currentDir; direntName entry])) = true ->
      walkEntry cwd PROJECT_ROOT extensions currentDir entry = [])
  /\ (forall p,
        In p (getFilesRecursively cwd PROJECT_ROOT (absolutePathOf (R ++ D))
                readable entries extensions) ->
        (forall fragment, In fragment EXCLUDE_DIRS ->
                          includes p fragment = false)
        /\ (exists ext, In ext extensions /\ endsWith p ext = true)
        /\ (exists X, p = join "/" (D ++ X)
                      /\ Forall (fun s => hidden s = false) X)
        /\ (D = [] -> hidden p = false))
  /\ (forall prefix depth maxDepth,
        buildTree localeCompare readable entries prefix depth maxDepth
        = String.concat ""
            (map renderLine
               (treeLines localeCompare (maxDepth - depth) readable entries
                          prefix))
        /\ forall l,
            In l (treeLines localeCompare (maxDepth - depth) readable
                            entries prefix)
            -> shown (snd l))
  /\ (forall pattern it,
        In it (listItems localeCompare entries pattern) ->
        exists e, In e entries /\ itemName it = direntName e /\ shown e).
Proof.
  intros HR HP HD Hwf. split; [|split; [|split]].
  - intros currentDir entry. apply walkEntry_excluded.
  - intros p Hp. unfold getFilesRecursively, walk in Hp.
    destruct readable; [|contradiction].
    apply in_flat_map in Hp as (e & He & Hp).
    rewrite forallb_forall in Hwf.
    destruct (@walkEntry_paths cwd PROJECT_ROOT extensions R e HR HP
                               D p HD (Hwf e He) Hp)
      as (X & HpX & HX & HvX & HhX & Hext).
    split; [|split; [|split]].
    + apply shouldExclude_false. eapply walkEntry_not_excluded; eauto.
    + exact Hext.
    + now exists X.
    + intros ->. subst p. cbn [app].
      destruct X as [|s X]; [contradiction|].
      inversion HvX; inversion HhX; subst. unfold hidden.
      now rewrite startsWith_join_head.
  - intros prefix depth maxDepth. split.
    + apply buildTreeFrom_lines.
    + intros l. apply treeLines_shown.
  - intros pattern it H.
    destruct (@listItems_shown localeCompare entries pattern it H)
      as (e & He & Hn & Hs & _).
    now exists e.
Qed.

Lemma traversal_exclusion_witness :
  validNames ["srv"; "app"]
  /\ "/srv/app" = absolutePathOf ["srv"; "app"]
  /\ forallb wellFormed sampleProject = true
  /\ forall p,
      In p (getFilesRecursively "/" "/srv/app" "/srv/app" true
              sampleProject [".php"]) ->
      (forall fragment, In fragment EXCLUDE_DIRS ->
                        includes p fragment = false)
      /\ hidden p = false.
Proof.
  assert (validNames ["srv"; "app"]) as HR by (repeat constructor).
  assert (validNames []) as HD by constructor.
  repeat split; trivial.
  - apply (proj1 (proj2 (traversal_exclusion "/" byCodeUnits [".php"] true
                           sampleProject HR eq_refl HD eq_refl))
             p H).
  - apply (proj1 (proj2 (traversal_exclusion "/" byCodeUnits [".php"] true
                           sampleProject HR eq_refl HD eq_refl))
             p H).
    reflexivity.
Defined.

(** C2 as stated fails.  Started in a hidden directory of the root, the
    recursive collection returns a path that starts with the marker; the
    tree rendering prints, and the listing lists, entries whose path
    relative to the root contains a fragment of the exclusion list. *)
Lemma traversal_exclusion_counterexample :
  getFilesRecursively "/" "/srv/app" "/srv/app/.config" true
    [File "deploy.php"] [".php"] = [".config/deploy.php"]
  /\ hidden ".config/deploy.php" = true
  /\ In ("│   ├── "%string, Dir "framework" true [File "cache.php"])
        (treeLines byCodeUnits 3 true sampleProject "")
  /\ shouldExclude "storage/framework" = true
  /\ In (ListItem "vendor-old" TDirectory)
        (listItems byCodeUnits sampleProject None)
  /\ shouldExclude "vendor-old" = true.
Proof.
  repeat split; try reflexivity.
  - vm_compute. repeat (try (left; reflexivity); right).
  - vm_compute. repeat (try (left; reflexivity); right).
Qed.

(* ================================================================== *)
(** * Escaped patterns *)
(* ================================================================== *)

Module PatternFacts.
Import RegExp Pattern.

(** Splits a hypothesis [oneOf c chars = true] into the cases. *)
Ltac one_of H :=
  unfold isMeta, oneOf in H; simpl in H;
  repeat (apply orb_true_iff in H as [H|H]);
  try discriminate H; apply Ascii.eqb_eq in H; subst.

(** Splits a hypothesis [oneOf c chars = false] into the
    inequalities. *)
Ltac none_of H :=
  unfold isMeta, oneOf in H; simpl in H;
  repeat (apply orb_false_iff in H as [? H]).

Lemma escapeRegex_cons (c : ascii) (q : string) :
  escapeRegex (String c q) =
  if isMeta c then String "\"%char (String c (escapeRegex q))
  else String c (escapeRegex q).
Proof. reflexivity. Qed.

Lemma escapeRegex_plainHead (q : string) : plainHead (escapeRegex q).
Proof.
  destruct q as [|c q]; [exact I|].
  rewrite escapeRegex_cons. destruct (isMeta c) eqn:E; [reflexivity|].
  simpl. none_of E. unfold oneOf. simpl.
  repeat match goal with H : _ = false |- _ => rewrite H; clear H end.
  reflexivity.
Qed.

Lemma parseQuantifier_plain (a : regex) (n : nat) (s : string) :
  plainHead s -> parseQuantifier a n s = Parsed (a, n, s).
Proof.
  destruct s as [|d s]; [reflexivity|]. simpl. intros H. none_of H.
  unfold parseQuantifier, isChar.
  repeat match goal with H : _ = false |- _ => rewrite H; clear H end.
  reflexivity.
Qed.

(** A character that is not a syntax character stands for itself. *)
Lemma parseTerm_plain (fuel n : nat) (c : ascii) (s : string) :
  2 <= fuel -> isMeta c = false -> plainHead s ->
  parseTerm fuel n (String c s) = Parsed (Char c, n, s).
Proof.
  intros Hf Hc Hs. destruct fuel as [|[|fuel]]; try lia. none_of Hc.
  cbn [parseTerm parseAtom]. unfold isChar, oneOf. simpl existsb.
  repeat match goal with H : _ = false |- _ => rewrite H; clear H end.
  destruct s; cbn [andb orb]; now apply parseQuantifier_plain.
Qed.

(** A syntax character behind a backslash stands for itself. *)
Lemma parseTerm_escaped (fuel n : nat) (e : ascii) (s : string) :
  2 <= fuel -> isMeta e = true -> plainHead s ->
  parseTerm fuel n (String "\"%char (String e s))
  = Parsed (Char e, n, s).
Proof.
  intros Hf He Hs. destruct fuel as [|[|fuel]]; try lia.
  one_of He; cbn [parseTerm parseAtom]; simpl;
    now apply parseQuantifier_plain.
Qed.

Lemma parseAlternative_escaped (q : string) :
  forall fuel n,
    String.length (escapeRegex q) + 3 <= fuel ->
    parseAlternative fuel n (escapeRegex q)
    = Parsed (literalPattern q, n, EmptyString).
Proof.
  induction q as [|c q IH]; intros fuel n Hf.
  - destruct fuel; [simpl in Hf; lia|reflexivity].
  - rewrite escapeRegex_cons in *.
    pose proof (escapeRegex_plainHead q) as Hp.
    destruct (isMeta c) eqn:Hc.
    + destruct fuel as [|fuel]; [simpl in Hf; lia|].
      cbn [parseAlternative]. cbn [isChar Ascii.eqb Bool.eqb orb].
      rewrite parseTerm_escaped by (trivial; simpl in Hf; lia).
      rewrite IH by (simpl in Hf; lia). reflexivity.
    + destruct fuel as [|fuel]; [simpl in Hf; lia|].
      cbn [parseAlternative].
      assert (isChar c "|" || isChar c ")" = false) as Hbar.
      { none_of Hc. unfold isChar.
        repeat match goal with H : _ = false |- _ => rewrite H; clear H end.
        reflexivity. }
      rewrite Hbar, parseTerm_plain by (trivial; simpl in Hf; lia).
      rewrite IH by (simpl in Hf; lia). reflexivity.
Qed.

(** Every escaped query compiles, to the pattern that matches its
    characters literally. *)
Lemma parse_escapeRegex (q : string) :
  parse (escapeRegex q) = Some (literalPattern q).
Proof.
  unfold parse, parsePattern.
  replace (4 * String.length (escapeRegex q) + 8)
    with (S (4 * String.length (escapeRegex q) + 7)) by lia.
  cbn [parseDisjunction].
  rewrite parseAlternative_escaped by lia. reflexivity.
Qed.


(** The patterns written in the program text all compile. *)
Lemma patterns_compile :
  parse Patterns.nsPattern = Some Patterns.nsRegex
  /\ parse Patterns.usePattern = Some Patterns.useRegex
  /\ parse Patterns.classPattern = Some Patterns.classRegex
  /\ parse Patterns.extendsPattern = Some Patterns.extendsRegex
  /\ parse Patterns.implPattern = Some Patterns.implRegex
  /\ parse Patterns.constPattern = Some Patterns.constRegex
  /\ parse Patterns.propPattern = Some Patterns.propRegex
  /\ parse Patterns.methodPattern = Some Patterns.methodRegex
  /\ parse Patterns.returnPattern = Some Patterns.returnRegex.
Proof. repeat split; vm_compute; reflexivity. Qed.

(** Left as it is, the query [a.b(c)] is a pattern with a wildcard
    and a group; escaped, it is five characters. *)
Example escape_example :
  escapeRegex "a.b(c)" = "a\.b\(c\)"
  /\ parse "a.b(c)"
     = Some (Seq (Char "a") (Seq Dot (Seq (Char "b")
               (Seq (Group 1 (Seq (Char "c") Empty)) Empty))))
  /\ parse (escapeRegex "a.b(c)") = Some (literalPattern "a.b(c)").
Proof. repeat split; reflexivity. Qed.

End PatternFacts.

(* ================================================================== *)
(** * Matching a literal pattern *)
(* ================================================================== *)

Module RegExpFacts.
Import RegExp JsStringFacts.

Lemma normalizeCase_cons (ic : bool) (c : ascii) (s : string) :
  normalizeCase ic (String c s)
  = String (if ic then canonicalize c else c) (normalizeCase ic s).
Proof. now destruct ic. Qed.

Lemma normalizeCase_nil (ic : bool) : normalizeCase ic "" = "".
Proof. now destruct ic. Qed.

Lemma charEq_cases (ic : bool) (c d : ascii) :
  charEq ic c d
  = Ascii.eqb (if ic then canonicalize d else d)
              (if ic then canonicalize c else c).
Proof. destruct ic; simpl; apply Ascii.eqb_sym. Qed.

(** The matcher for a literal pattern compares the next characters
    with the characters of the query and continues behind them. *)
Lemma m_literal (ic : bool) (q : string) :
  forall k x,
    m ic (literalPattern q) k x =
    if startsWith (normalizeCase ic (rest x)) (normalizeCase ic q)
    then k (advance x q) else None.
Proof.
  induction q as [|c q IH]; intros k x.
  - rewrite normalizeCase_nil. reflexivity.
  - cbn [literalPattern m]. unfold step.
    destruct x as [p s cs]. cbn [rest caps advance].
    destruct s as [|d s].
    + rewrite normalizeCase_nil, normalizeCase_cons. reflexivity.
    + rewrite !normalizeCase_cons. cbn [startsWith].
      rewrite <- charEq_cases.
      destruct (charEq ic c d); [|reflexivity].
      rewrite IH. reflexivity.
Qed.

Lemma rest_advance (q : string) :
  forall x, String.length (rest (advance x q)) <= String.length (rest x).
Proof.
  induction q as [|c q IH]; intros x; [simpl; lia|].
  cbn [advance]. destruct x as [p s cs]. cbn [rest caps].
  destruct s as [|d s]; [simpl; lia|].
  specialize (IH (MState (Some d) s cs)). simpl in *. lia.
Qed.

(** Searching a literal pattern from some index on finds it exactly
    when the rest of the text contains the query. *)
Lemma scan_literal (ic : bool) (q : string) :
  forall s before,
    match scan ic (literalPattern q) before s with
    | Some (i, y) =>
        includes (normalizeCase ic s) (normalizeCase ic q) = true
    | None =>
        includes (normalizeCase ic s) (normalizeCase ic q) = false
    end.
Proof.
  induction s as [|c s IH]; intros before.
  - cbn [scan]. rewrite m_literal. cbn [rest].
    rewrite normalizeCase_nil. cbn [includes]. rewrite orb_false_r.
    destruct (startsWith "" (normalizeCase ic q)); reflexivity.
  - cbn [scan]. rewrite m_literal. cbn [rest].
    rewrite (includes_unfold (normalizeCase ic (String c s))).
    destruct (startsWith _ _); [reflexivity|]. cbn [orb].
    rewrite normalizeCase_cons.
    specialize (IH (Some c)).
    destruct (scan ic (literalPattern q) (Some c) s) as [[i y]|];
      exact IH.
Qed.

(** [test] on a fresh global object for a literal pattern. *)
Lemma test_literal (ic : bool) (q line : string) :
  let re := RegExpObj (literalPattern q) (Flags true ic) 0 in
  fst (test re line)
  = includes (normalizeCase ic line) (normalizeCase ic q)
  /\ setLastIndex (snd (test re line)) 0 = re
  /\ (fst (test re line) = false -> snd (test re line) = re).
Proof.
  intros re. unfold test, re. cbn [reFlags global lastIndex source
                                   ignoreCase charBefore drop].
  pose proof (scan_literal ic q line None) as H.
  destruct (scan ic (literalPattern q) None line) as [[i y]|];
    cbn [fst snd]; rewrite H; repeat split; try reflexivity.
  discriminate.
Qed.

End RegExpFacts.

(* ================================================================== *)
(** * Text search *)
(* ================================================================== *)

Section SearchProperties.
Import RegExp RegExpFacts PatternFacts.
Variable PROJECT_ROOT : string.
Variable readFile : fileStore.
Variable case_sensitive : bool.
Variable query : string.

Lemma list_sum_cons (a : nat) (l : list nat) :
  list_sum (a :: l) = a + list_sum l.
Proof. reflexivity. Qed.

Local Abbreviation fresh := (searchPattern case_sensitive query).

Lemma containsLiteral_normalize (line : string) :
  containsLiteral case_sensitive line query
  = includes (normalizeCase (negb case_sensitive) line)
             (normalizeCase (negb case_sensitive) query).
Proof. now destruct case_sensitive. Qed.

Lemma newRegExp_escaped :
  Pattern.newRegExp (escapeRegex query)
                    (Flags true (negb case_sensitive)) = Some fresh.
Proof. unfold Pattern.newRegExp. now rewrite parse_escapeRegex. Qed.

(** One line: the record is pushed and the counter incremented exactly
    when the line contains the query; the pattern object is left as it
    was found. *)
Lemma searchLine_fresh (index : nat) (line : string)
                       (fileMatches : list searchMatch) (total : nat) :
  searchLine index line (fresh, fileMatches, total) =
  if containsLiteral case_sensitive line query
  then (fresh,
        fileMatches ++ [SearchMatch (index + 1) (take 200 (trim line))],
        total + 1)
  else (fresh, fileMatches, total).
Proof.
  unfold searchLine.
  destruct (test_literal (negb case_sensitive) query line)
    as (Hfst & Hreset & Hkeep).
  fold (searchPattern case_sensitive query) in Hfst, Hreset, Hkeep.
  destruct (test fresh line) as [found regex1]. cbn [fst snd] in *.
  rewrite containsLiteral_normalize, <- Hfst.
  destruct found; [now rewrite Hreset|now rewrite Hkeep].
Qed.

Lemma searchLines_fresh (lines : list string) :
  forall index fileMatches total,
    searchLines index lines (fresh, fileMatches, total) =
    (fresh,
     fileMatches ++ lineMatches case_sensitive query index lines,
     total
     + List.length (lineMatches case_sensitive query index lines)).
Proof.
  induction lines as [|line lines IH]; intros index fileMatches total.
  - simpl. now rewrite app_nil_r, Nat.add_0_r.
  - cbn [searchLines lineMatches]. rewrite searchLine_fresh.
    destruct (containsLiteral case_sensitive line query); rewrite IH.
    + rewrite <- app_assoc, length_app. simpl. f_equal. lia.
    + reflexivity.
Qed.

Lemma length_lineMatches (lines : list string) :
  forall index,
    List.length (lineMatches case_sensitive query index lines)
    = List.length
        (filter (fun line => containsLiteral case_sensitive line query)
                lines).
Proof.
  induction lines as [|line lines IH]; intros index; [reflexivity|].
  cbn [lineMatches filter]. rewrite length_app, IH.
  now destruct (containsLiteral case_sensitive line query).
Qed.

Local Abbreviation matchesOf :=
  (fileMatchesOf PROJECT_ROOT readFile case_sensitive query).
Local Abbreviation resultOf :=
  (fileResultOf PROJECT_ROOT readFile case_sensitive query).
Local Abbreviation linesOf :=
  (matchingLines PROJECT_ROOT readFile case_sensitive query).

Lemma length_fileMatchesOf (file : string) :
  List.length (matchesOf file) = List.length (linesOf file).
Proof.
  unfold fileMatchesOf, matchingLines.
  destruct (readFile _); [apply length_lineMatches|reflexivity].
Qed.

(** One file: its entry is appended when it has a match, and the
    counter grows by the number of its matching lines. *)
Lemma searchFile_fresh (results : list fileResult) (total : nat)
                       (file : string) :
  searchFile PROJECT_ROOT readFile (SearchState fresh results total) file
  = SearchState fresh (results ++ resultOf file)
                (total + List.length (matchesOf file)).
Proof.
  unfold searchFile, fileResultOf, fileMatchesOf.
  cbn [ssRegex ssResults ssTotal].
  destruct (readFile _) as [content|].
  - rewrite searchLines_fresh. cbn [app].
    destruct (0 <? _)%nat; [reflexivity|now rewrite app_nil_r].
  - simpl. now rewrite app_nil_r, Nat.add_0_r.
Qed.

Lemma searchFiles_fresh (files : list string) :
  forall results total,
    fold_left (searchFile PROJECT_ROOT readFile) files
              (SearchState fresh results total)
    = SearchState fresh
        (results ++ flat_map resultOf files)
        (total
         + list_sum (map (fun f => List.length (matchesOf f)) files)).
Proof.
  induction files as [|file files IH]; intros results total.
  - simpl. now rewrite app_nil_r, Nat.add_0_r.
  - cbn [fold_left flat_map map]. rewrite searchFile_fresh, IH.
    rewrite list_sum_cons, <- app_assoc. f_equal. lia.
Qed.

Lemma matchCount_fileResultOf (file : string) :
  list_sum (map matchCount (resultOf file))
  = List.length (matchesOf file).
Proof.
  unfold fileResultOf. cbn zeta.
  destruct (0 <? _)%nat eqn:E; cbn [map matchCount].
  - rewrite list_sum_cons. simpl. lia.
  - apply Nat.ltb_ge in E. simpl. lia.
Qed.

Lemma sum_fileResults (files : list string) :
  list_sum (map matchCount (flat_map resultOf files))
  = list_sum (map (fun f => List.length (matchesOf f)) files).
Proof.
  induction files as [|file files IH]; [reflexivity|].
  cbn [flat_map map]. rewrite list_sum_cons, map_app, list_sum_app, IH.
  now rewrite matchCount_fileResultOf.
Qed.

End SearchProperties.

(* ================================================================== *)
(** * Ranking *)
(* ================================================================== *)

Section RankingFacts.

Lemma byMatchCountDesc_le (a b : fileResult) :
  byMatchCountDesc a b <> Gt -> rankedBefore a b.
Proof.
  unfold byMatchCountDesc, rankedBefore. intros H.
  destruct (Nat.compare_spec (matchCount b) (matchCount a)); try lia.
  now destruct H.
Qed.

Lemma byMatchCountDesc_gt (a b : fileResult) :
  byMatchCountDesc a b = Gt -> rankedBefore b a.
Proof.
  unfold byMatchCountDesc, rankedBefore. intros H.
  apply Nat.compare_gt_iff in H. lia.
Qed.

Lemma insertSorted_ranked (x : fileResult) (l : list fileResult) :
  StronglySorted rankedBefore l ->
  StronglySorted rankedBefore (insertSorted byMatchCountDesc x l).
Proof.
  induction 1 as [|y l Hl IH Hy]; simpl.
  - constructor; constructor.
  - destruct (byMatchCountDesc x y) eqn:E.
    + assert (rankedBefore x y) by (apply byMatchCountDesc_le; congruence).
      constructor; [now constructor|]. constructor; trivial.
      eapply Forall_impl; [|exact Hy]. unfold rankedBefore in *.
      intros z Hz. lia.
    + assert (rankedBefore x y) by (apply byMatchCountDesc_le; congruence).
      constructor; [now constructor|]. constructor; trivial.
      eapply Forall_impl; [|exact Hy]. unfold rankedBefore in *.
      intros z Hz. lia.
    + constructor; trivial.
      apply Forall_forall. intros z Hz.
      apply (Permutation_in _ (insertSorted_perm byMatchCountDesc x l))
        in Hz.
      destruct Hz as [<-|Hz].
      * now apply byMatchCountDesc_gt.
      * rewrite Forall_forall in Hy. now apply Hy.
Qed.

(** The sort puts the results in descending order of match count. *)
Lemma sortBy_ranked (l : list fileResult) :
  StronglySorted rankedBefore (sortBy byMatchCountDesc l).
Proof.
  induction l as [|x l IH]; simpl; [constructor|].
  now apply insertSorted_ranked.
Qed.

(** In a ranked list, whatever comes first ranks before what comes
    later. *)
Lemma ranked_split (k : nat) :
  forall l, StronglySorted rankedBefore l ->
  forall a b, In a (firstn k l) -> In b (skipn k l) -> rankedBefore a b.
Proof.
  induction k as [|k IH]; intros l Hl a b Ha Hb; [contradiction|].
  destruct l as [|x l]; [contradiction|].
  inversion Hl as [|? ? Hl' Hx]; subst. simpl in Ha, Hb.
  destruct Ha as [<-|Ha].
  - rewrite Forall_forall in Hx. apply Hx.
    rewrite <- (firstn_skipn k l). apply in_or_app. now right.
  - now apply (IH l).
Qed.

Lemma list_sum_perm (l l' : list nat) :
  Permutation l l' -> list_sum l = list_sum l'.
Proof.
  induction 1; simpl; lia.
Qed.

End RankingFacts.

(* ================================================================== *)
(** * The search report *)
(* ================================================================== *)

Section SearchReport.
Variables cwd PROJECT_ROOT : string.
Variable rootReadable : bool.
Variable rootEntries : list dirent.
Variable readFile : fileStore.
Variable completion : list string -> list string.
Variable query : string.
Variable file_extensions : option (list string).
Variable case_sensitive : bool.

Local Abbreviation files :=
  (candidates cwd PROJECT_ROOT rootReadable rootEntries file_extensions).
Local Abbreviation ranked :=
  (rankedResults PROJECT_ROOT readFile case_sensitive query
                 (completion files)).

(** The handler never fails, and this is its report. *)
Lemma search_code_report :
  search_code cwd PROJECT_ROOT rootReadable rootEntries readFile completion
              query file_extensions case_sensitive
  = Ok (SearchReport query
          (list_sum
             (map (fun f =>
                     List.length
                       (fileMatchesOf PROJECT_ROOT readFile case_sensitive
                                      query f))
                  (completion files)))
          (List.length ranked) (firstn 50 ranked)).
Proof.
  unfold search_code. rewrite newRegExp_escaped.
  fold files. rewrite searchFiles_fresh. reflexivity.
Qed.

Lemma ranked_members (r : fileResult) :
  In r ranked ->
  exists f, In f (completion files)
            /\ frFile r = f
            /\ frMatches r
               = fileMatchesOf PROJECT_ROOT readFile case_sensitive query f
            /\ matchCount r = List.length (frMatches r)
            /\ 0 < matchCount r.
Proof.
  unfold rankedResults. intros H. apply sortBy_In in H.
  apply in_flat_map in H as (f & Hf & Hr). exists f.
  unfold fileResultOf in Hr. cbn zeta in Hr.
  destruct (0 <? _)%nat eqn:E; [|contradiction].
  destruct Hr as [<-|[]]. apply Nat.ltb_lt in E. now repeat split.
Qed.

Lemma ranked_total :
  list_sum (map matchCount ranked)
  = list_sum
      (map (fun f =>
              List.length
                (fileMatchesOf PROJECT_ROOT readFile case_sensitive
                               query f))
           (completion files)).
Proof.
  unfold rankedResults. rewrite <- sum_fileResults.
  apply list_sum_perm, Permutation_map, sortBy_perm.
Qed.

End SearchReport.


(** C4.  The search report lists the per-file results in descending
    order of their match count, reports the total number of matches of
    all scanned files, and returns the first 50 entries of the ranking
    at most: every entry left out has a count no greater than every
    entry returned.  Files with 3, 1 and 5 matches come out in the order
    5, 3, 1. *)
Theorem search_ranking
    (cwd PROJECT_ROOT : string) (rootReadable : bool)
    (rootEntries : list dirent) (readFile : fileStore)
    (completion : list string -> list string) (query : string)
    (file_extensions : option (list string)) (case_sensitive : bool) :
  (exists ranked,
      search_code cwd PROJECT_ROOT rootReadable rootEntries readFile
                  completion query file_extensions case_sensitive
      = Ok (SearchReport query (list_sum (map matchCount ranked))
                         (List.length ranked) (firstn 50 ranked))
      /\ Permutation ranked
           (flat_map
              (fileResultOf PROJECT_ROOT readFile case_sensitive query)
              (completion
                 (candidates cwd PROJECT_ROOT rootReadable rootEntries
                             file_extensions)))
      /\ StronglySorted rankedBefore ranked
      /\ List.length (firstn 50 ranked) <= 50
      /\ (forall a b,
            In a (firstn 50 ranked) -> In b (skipn 50 ranked) ->
            matchCount b <= matchCount a))
  /\ map matchCount
         (sortBy byMatchCountDesc
            [resultWith "a.php" 3; resultWith "b.php" 1;
             resultWith "c.php" 5])
     = [5; 3; 1].
Proof.
  split; [|reflexivity].
  exists (rankedResults PROJECT_ROOT readFile case_sensitive query
            (completion (candidates cwd PROJECT_ROOT rootReadable
                                    rootEntries file_extensions))).
  split; [|split; [|split; [|split]]].
  - rewrite search_code_report. now rewrite ranked_total.
  - apply sortBy_perm.
  - apply sortBy_ranked.
  - rewrite length_firstn. lia.
  - intros a b Ha Hb.
    apply (ranked_split 50 (sortBy_ranked _) a b Ha Hb).
Qed.

(** C10.  The reported total is the number of matching lines summed over
    all scanned files: a file contributes the number of its lines that
    contain the query, a line with several occurrences counting once,
    and an unreadable file nothing; that number is also the file's match
    count, so the total is the sum of the match counts of all files with
    a match. *)
Theorem total_matches_count
    (cwd PROJECT_ROOT : string) (rootReadable : bool)
    (rootEntries : list dirent) (readFile : fileStore)
    (completion : list string -> list string) (query : string)
    (file_extensions : option (list string)) (case_sensitive : bool) :
  Permutation
    (completion (candidates cwd PROJECT_ROOT rootReadable rootEntries
                            file_extensions))
    (candidates cwd PROJECT_ROOT rootReadable rootEntries file_extensions) ->
  let files :=
    candidates cwd PROJECT_ROOT rootReadable rootEntries file_extensions in
  exists report ranked,
    search_code cwd PROJECT_ROOT rootReadable rootEntries readFile completion
                query file_extensions case_sensitive = Ok report
    /\ srResults report = firstn 50 ranked
    /\ fileCount report = List.length ranked
    /\ totalMatches report
       = list_sum
           (map (fun f =>
                   List.length
                     (matchingLines PROJECT_ROOT readFile case_sensitive
                                    query f))
                files)
    /\ totalMatches report = list_sum (map matchCount ranked)
    /\ (forall r,
          In r ranked ->
          In (frFile r) files
          /\ matchCount r = List.length (frMatches r)
          /\ matchCount r
             = List.length
                 (matchingLines PROJECT_ROOT readFile case_sensitive query
                                (frFile r)))
    /\ List.length (lineMatches case_sensitive "foo" 0 ["foo, foo and foo"])
       = 1.
Proof.
  intros Hperm files. fold files in Hperm.
  eexists. exists (rankedResults PROJECT_ROOT readFile case_sensitive query
                     (completion files)).
  split; [apply search_code_report|].
  cbn [srResults fileCount totalMatches]. fold files.
  repeat split.
  - apply list_sum_perm.
    rewrite (map_ext _ _ (length_fileMatchesOf PROJECT_ROOT readFile
                                               case_sensitive query)).
    now apply Permutation_map.
  - symmetry. apply ranked_total.
  - apply ranked_members in H as (f & Hf & <- & _).
    eapply Permutation_in; eauto.
  - now apply ranked_members in H as (f & Hf & _ & _ & Hm & _).
  - apply ranked_members in H as (f & Hf & <- & Hms & Hm & _).
    rewrite Hm, Hms. apply length_fileMatchesOf.
  - now destruct case_sensitive.
Qed.

Lemma total_matches_count_witness :
  Permutation
    (rev (candidates "/" "/srv/app" true sampleProject None))
    (candidates "/" "/srv/app" true sampleProject None)
  /\ exists report,
      search_code "/" "/srv/app" true sampleProject
        (fun p => if String.eqb p "/srv/app/app/helpers.php"
                  then Some "foo, foo and foo" else None)
        (@rev string) "foo" None false = Ok report
      /\ totalMatches report = 1.
Proof.
  split; [apply Permutation_sym, Permutation_rev|].
  destruct (@total_matches_count "/" "/srv/app" true sampleProject
              (fun p => if String.eqb p "/srv/app/app/helpers.php"
                        then Some "foo, foo and foo" else None)
              (@rev string) "foo" None false
              (Permutation_sym (Permutation_rev _)))
    as (report & ranked & Hrun & _ & _ & Htotal & _).
  exists report. split; [exact Hrun|]. rewrite Htotal. reflexivity.
Defined.

(* ================================================================== *)
(** * Where a successful match continues *)
(* ================================================================== *)

Module MatcherFacts.
Import RegExp JsStringFacts.

Local Abbreviation len := remaining.

Lemma orElse_some (a b : option mstate) (y : mstate) :
  orElse a b = Some y -> a = Some y \/ b = Some y.
Proof. destruct a; simpl; auto. Qed.

Lemma step_cont (x : mstate) (A : ascii -> bool)
                (k : mstate -> option mstate) (y : mstate) :
  step x A k = Some y ->
  exists d s, rest x = String d s /\ A d = true
              /\ k (MState (Some d) s (caps x)) = Some y.
Proof.
  unfold step. destruct (rest x) as [|d s]; [discriminate|].
  destruct (A d) eqn:E; [|discriminate]. intros H. now exists d, s.
Qed.

Lemma step_progress (x : mstate) (A : ascii -> bool)
                    (k : mstate -> option mstate) (y : mstate) :
  step x A k = Some y ->
  exists x', k x' = Some y /\ len x' < len x.
Proof.
  intros H. apply step_cont in H as (d & s & Hr & _ & Hk).
  eexists. split; [exact Hk|]. unfold remaining. rewrite Hr. simpl. lia.
Qed.

Lemma repeatMatcher_cont body :
  continues body ->
  forall fuel, continues (fun k => repeatMatcher body k fuel).
Proof.
  intros Hb fuel. induction fuel as [|fuel IH]; intros k x y H.
  - exists x. split; [exact H|lia].
  - cbn [repeatMatcher] in H. apply orElse_some in H as [H|H].
    + apply Hb in H as (x1 & H & Hl).
      destruct (progress x x1); [|discriminate].
      apply IH in H as (x' & H & Hl'). exists x'. split; [exact H|lia].
    + exists x. split; [exact H|lia].
Qed.

Lemma m_cont (ic : bool) (r : regex) : continues (m ic r).
Proof.
  induction r as [| c | | cl neg | neg items | | | neg
                  | r1 IH1 r2 IH2 | r1 IH1 r2 IH2 | n r1 IH1
                  | r1 IH1 | r1 IH1 | r1 IH1];
    intros k x y H; cbn [m] in H.
  - exists x. split; [exact H|lia].
  - apply step_progress in H as (x' & H & Hl). exists x'. split; [easy|lia].
  - apply step_progress in H as (x' & H & Hl). exists x'. split; [easy|lia].
  - apply step_progress in H as (x' & H & Hl). exists x'. split; [easy|lia].
  - apply step_progress in H as (x' & H & Hl). exists x'. split; [easy|lia].
  - destruct (prev x); [discriminate|]. exists x. split; [exact H|lia].
  - destruct (rest x); [|discriminate]. exists x. split; [exact H|lia].
  - destruct (xorb _ _); [|discriminate]. exists x. split; [exact H|lia].
  - apply IH1 in H as (x1 & H & Hl1). apply IH2 in H as (x2 & H & Hl2).
    exists x2. split; [exact H|lia].
  - apply orElse_some in H as [H|H]; [apply IH1 in H|apply IH2 in H];
      exact H.
  - apply IH1 in H as (x1 & H & Hl1). eexists. split; [exact H|].
    unfold remaining in *. simpl. lia.
  - now apply (repeatMatcher_cont IH1) in H.
  - apply IH1 in H as (x1 & H & Hl1).
    apply (repeatMatcher_cont IH1) in H as (x2 & H & Hl2).
    exists x2. split; [exact H|lia].
  - apply orElse_some in H as [H|H].
    + apply IH1 in H as (x1 & H & Hl1).
      destruct (progress x x1); [|discriminate]. now exists x1.
    + exists x. split; [exact H|lia].
Qed.

Lemma m_Seq (ic : bool) (r1 r2 : regex) k x :
  m ic (Seq r1 r2) k x = m ic r1 (fun y => m ic r2 k y) x.
Proof. reflexivity. Qed.

Lemma m_Group (ic : bool) (n : nat) (r : regex) k x :
  m ic (Group n r) k x
  = m ic r (fun y => k (MState (prev y) (rest y)
                               ((n, consumed x y) :: caps y))) x.
Proof. reflexivity. Qed.

(** Behind the first part of a sequence the second part matches. *)
Lemma m_seq_rest (ic : bool) (r1 r2 : regex) k x y :
  m ic (Seq r1 r2) k x = Some y -> exists x1, m ic r2 k x1 = Some y.
Proof.
  rewrite m_Seq. intros H. apply m_cont in H as (x1 & H & _).
  now exists x1.
Qed.

(** One or more characters of a class consume something. *)
Lemma m_plus_class (ic : bool) (cl : klass) (neg : bool) k x y :
  m ic (Plus (Class cl neg)) k x = Some y ->
  exists x', k x' = Some y /\ len x' < len x.
Proof.
  cbn [m]. intros H. apply step_progress in H as (x1 & H & Hl1).
  apply (repeatMatcher_cont (m_cont ic (Class cl neg))) in H
    as (x2 & H & Hl2).
  exists x2. split; [exact H|lia].
Qed.

Lemma scan_found (ic : bool) (r : regex) :
  forall s before i y,
    scan ic r before s = Some (i, y) ->
    exists before' s', m ic r Some (MState before' s' []) = Some y.
Proof.
  induction s as [|c s IH]; intros before i y H; cbn [scan] in H.
  - destruct (m ic r Some (MState before "" [])) eqn:E; [|discriminate].
    injection H as _ <-. eauto.
  - destruct (m ic r Some (MState before (String c s) [])) eqn:E.
    + injection H as _ <-. eauto.
    + destruct (scan ic r (Some c) s) as [[j z]|] eqn:Es; [|discriminate].
      injection H as _ <-. eapply IH; eauto.
Qed.

Lemma consumed_truthy (x y : mstate) :
  len y < len x -> truthy (consumed x y) = true.
Proof.
  unfold remaining, consumed. intros H.
  destruct (rest x) as [|d s]; [simpl in H; lia|].
  destruct (String.length (String d s) - String.length (rest y)) eqn:E;
    [lia|reflexivity].
Qed.

(** The name a class header captures is never empty. *)
Lemma classRegex_name (line : string) (classMatch : matchResult) :
  lineMatch Patterns.classRegex line = Some classMatch ->
  exists name, cap classMatch 4 = Some name /\ truthy name = true.
Proof.
  unfold lineMatch, exec. intros H.
  destruct (scan false Patterns.classRegex None line) as [[i y]|] eqn:Es;
    [|discriminate].
  injection H as <-. unfold cap. cbn [captures].
  apply scan_found in Es as (before & s & Hm).
  unfold Patterns.classRegex in Hm.
  do 6 (apply m_seq_rest in Hm as [? Hm]).
  rewrite m_Seq, m_Group, m_Seq in Hm.
  apply m_plus_class in Hm as (x' & Hm & Hl).
  cbn [m] in Hm. injection Hm as <-. cbn [caps lookupCap Nat.eqb].
  eexists. split; [reflexivity|]. now apply consumed_truthy.
Qed.

(** ** The fuel of a quantifier *)

Lemma step_local (A : ascii -> bool) :
  localMatcher (fun k x => step x A k).
Proof.
  intros k1 k2 x H. unfold step.
  destruct (rest x) as [|d s] eqn:E; [reflexivity|].
  destruct (A d); [|reflexivity]. apply H.
  unfold remaining. rewrite E. simpl. lia.
Qed.

Lemma repeatMatcher_local body :
  localMatcher body ->
  forall fuel, localMatcher (fun k => repeatMatcher body k fuel).
Proof.
  intros Hb fuel. induction fuel as [|fuel IH]; intros k1 k2 x H.
  - apply H. lia.
  - cbn [repeatMatcher]. rewrite (H x) by lia. f_equal.
    apply Hb. intros y Hy. unfold progress.
    destruct (_ <? _)%nat; [|reflexivity].
    apply IH. intros z Hz. apply H. lia.
Qed.

Lemma m_local (ic : bool) (r : regex) : localMatcher (m ic r).
Proof.
  induction r as [| c | | cl neg | neg items | | | neg
                  | r1 IH1 r2 IH2 | r1 IH1 r2 IH2 | n r1 IH1
                  | r1 IH1 | r1 IH1 | r1 IH1];
    intros k1 k2 x H; cbn [m];
    try (now apply step_local).
  - apply H. lia.
  - destruct (prev x); [reflexivity|]. apply H. lia.
  - destruct (rest x); [|reflexivity]. apply H. lia.
  - destruct (xorb _ _); [|reflexivity]. apply H. lia.
  - apply IH1. intros y Hy. apply IH2. intros z Hz. apply H. lia.
  - rewrite (IH1 k1 k2 x H), (IH2 k1 k2 x H). reflexivity.
  - apply IH1. intros y Hy. apply H. unfold remaining in *. simpl. lia.
  - now apply (repeatMatcher_local IH1).
  - apply IH1. intros y Hy.
    apply (repeatMatcher_local IH1). intros z Hz. apply H. lia.
  - rewrite (H x) by lia. f_equal. apply IH1. intros y Hy.
    destruct (progress x y); [|reflexivity]. now apply H.
Qed.

(** An iteration consumes at least one character, so fuel beyond the
    length of the remaining input changes nothing: the bound on the
    iterations is never what ends them. *)
Lemma repeatMatcher_fuel body :
  localMatcher body ->
  forall fuel k x,
    remaining x < fuel ->
    repeatMatcher body k (S fuel) x = repeatMatcher body k fuel x.
Proof.
  intros Hb fuel. induction fuel as [|fuel IH]; intros k x Hx; [lia|].
  cbn [repeatMatcher]. f_equal. apply Hb. intros y Hy.
  unfold progress. destruct (_ <? _)%nat eqn:E; [|reflexivity].
  apply Nat.ltb_lt in E. change (String.length (rest y)) with (remaining y) in E.
  change (String.length (rest x)) with (remaining x) in E.
  apply (IH k y). lia.
Qed.

Lemma repeatMatcher_enough body (extra : nat) :
  localMatcher body ->
  forall k x,
    repeatMatcher body k (S (remaining x) + extra) x
    = repeatMatcher body k (S (remaining x)) x.
Proof.
  intros Hb k x. induction extra as [|extra IH].
  - now rewrite Nat.add_0_r.
  - rewrite <- IH. rewrite Nat.add_succ_r.
    apply repeatMatcher_fuel; trivial. lia.
Qed.

End MatcherFacts.

(* ================================================================== *)
(** * Structural analyzer *)
(* ================================================================== *)

Section AnalyzerProperties.
Import Analysis.

(** What one pass of the loop body does to the fields the class-level
    rules write. *)
Lemma analyzeLine_fields (lineNum : nat) (line : string)
                         (a : Analysis.t) (insideClass : bool) :
  let st' := analyzeLine lineNum line (a, insideClass) in
  let fresh := negb (truthyOpt (className a)) in
  namespace (fst st')
  = match namespaceOf line with
    | Some v => Some v
    | None => namespace a
    end
  /\ (classType (fst st'), className (fst st'))
     = match classHeaderOf line with
       | Some header => if fresh then header
                        else (classType a, className a)
       | None => (classType a, className a)
       end
  /\ snd st'
     = match classHeaderOf line with
       | Some _ => if fresh then true else insideClass
       | None => insideClass
       end
  /\ fullClassName (fst st') = fullClassName a
  /\ traits (fst st')
     = traits a
       ++ match lineMatch Patterns.useRegex line with
          | Some useMatch =>
              if insideClass
                 && negb (includes (capText useMatch 1) backslash)
              then [trim (capText useMatch 1)] else []
          | None => []
          end
  /\ imports (fst st')
     = imports a
       ++ match lineMatch Patterns.useRegex line with
          | Some useMatch =>
              if negb insideClass
              then [Import (trim (capText useMatch 1)) lineNum] else []
          | None => []
          end.
Proof.
  unfold analyzeLine, namespaceOf, classHeaderOf.
  destruct (lineMatch Patterns.nsRegex line);
    destruct (lineMatch Patterns.useRegex line);
    destruct (lineMatch Patterns.classRegex line);
    destruct (lineMatch Patterns.extendsRegex line);
    destruct (lineMatch Patterns.implRegex line);
    destruct (lineMatch Patterns.constRegex line);
    destruct (lineMatch Patterns.propRegex line);
    destruct (lineMatch Patterns.methodRegex line);
    destruct insideClass;
    try destruct (includes (capText _ 1) backslash);
    destruct (truthyOpt (className a)) eqn:E;
    cbn -[lineMatch trim capText]; rewrite ?E; cbn -[lineMatch trim capText];
    rewrite ?app_nil_r; repeat split.
Qed.

Lemma analyzeLines_app (l1 l2 : list string) :
  forall i st,
    analyzeLines i (l1 ++ l2) st
    = analyzeLines (i + List.length l1) l2 (analyzeLines i l1 st).
Proof.
  induction l1 as [|l l1 IH]; intros i st; simpl.
  - now rewrite Nat.add_0_r.
  - rewrite IH. f_equal. lia.
Qed.

(** Every namespace line overwrites the field. *)
Lemma analyzeLines_namespace (lines : list string) :
  forall i a insideClass,
    namespace (fst (analyzeLines i lines (a, insideClass)))
    = match lastSome (map namespaceOf lines) with
      | Some v => Some v
      | None => namespace a
      end.
Proof.
  induction lines as [|l lines IH]; intros i a insideClass;
    [reflexivity|].
  cbn [analyzeLines map lastSome].
  destruct (analyzeLine (i + 1) l (a, insideClass)) as [a1 f1] eqn:E.
  rewrite IH.
  destruct (lastSome (map namespaceOf lines)); [reflexivity|].
  pose proof (analyzeLine_fields (i + 1) l a insideClass) as (H & _).
  rewrite E in H. exact H.
Qed.

Lemma analyzeLines_fullClassName (lines : list string) :
  forall i a insideClass,
    fullClassName (fst (analyzeLines i lines (a, insideClass)))
    = fullClassName a.
Proof.
  induction lines as [|l lines IH]; intros i a insideClass;
    [reflexivity|].
  cbn [analyzeLines].
  destruct (analyzeLine (i + 1) l (a, insideClass)) as [a1 f1] eqn:E.
  rewrite IH.
  pose proof (analyzeLine_fields (i + 1) l a insideClass)
    as (_ & _ & _ & H & _).
  rewrite E in H. exact H.
Qed.

Lemma classHeaderOf_truthy (line : string) header :
  classHeaderOf line = Some header -> truthyOpt (snd header) = true.
Proof.
  unfold classHeaderOf.
  destruct (lineMatch Patterns.classRegex line) as [cm|] eqn:E;
    [|discriminate].
  intros H. injection H as <-. cbn [snd].
  destruct (MatcherFacts.classRegex_name _ E) as (name & -> & Ht).
  exact Ht.
Qed.

Lemma analyzeLine_classState (lineNum : nat) (line : string) st :
  classState st ->
  classState (analyzeLine lineNum line st)
  /\ snd (analyzeLine lineNum line st) = snd st || isClassHeader line
  /\ (classType (fst (analyzeLine lineNum line st)),
      className (fst (analyzeLine lineNum line st)))
     = if snd st then (classType (fst st), className (fst st))
       else match classHeaderOf line with
            | Some header => header
            | None => (None, None)
            end.
Proof.
  destruct st as [a flag]. unfold classState. cbn [fst snd].
  pose proof (analyzeLine_fields lineNum line a flag)
    as (_ & Hc & Hf & _).
  cbn zeta in Hc, Hf. unfold isClassHeader.
  destruct (analyzeLine lineNum line (a, flag)) as [a1 f1].
  cbn [fst snd] in *. intros H.
  destruct flag.
  - rewrite H in *. cbn [negb] in *.
    assert (f1 = true) as -> by (destruct (classHeaderOf line); exact Hf).
    assert ((classType a1, className a1) = (classType a, className a))
      as Hc' by (destruct (classHeaderOf line); exact Hc).
    injection Hc' as Hk Hn. rewrite Hk, Hn. now repeat split.
  - destruct H as [Hn Hk]. rewrite Hn, Hk in *. cbn [truthyOpt negb] in *.
    destruct (classHeaderOf line) as [header|] eqn:E.
    + subst f1. destruct header as [kind name].
      injection Hc as Hk' Hn'. rewrite Hk', Hn'. repeat split.
      apply (classHeaderOf_truthy _ E).
    + subst f1. injection Hc as Hk' Hn'. rewrite Hk', Hn'.
      now repeat split.
Qed.

Lemma analyzeLines_classState (lines : list string) :
  forall i st,
    classState st ->
    classState (analyzeLines i lines st)
    /\ snd (analyzeLines i lines st)
       = snd st || existsb isClassHeader lines
    /\ (classType (fst (analyzeLines i lines st)),
        className (fst (analyzeLines i lines st)))
       = if snd st then (classType (fst st), className (fst st))
         else match firstSome (map classHeaderOf lines) with
              | Some header => header
              | None => (None, None)
              end.
Proof.
  induction lines as [|l lines IH]; intros i st Hst.
  - cbn [analyzeLines existsb map firstSome]. rewrite orb_false_r.
    repeat split; trivial. destruct st as [a flag].
    unfold classState in Hst. cbn [fst snd] in *.
    destruct flag; [reflexivity|]. destruct Hst as [-> ->]. reflexivity.
  - cbn [analyzeLines existsb map firstSome].
    destruct (@analyzeLine_classState (i + 1) l st Hst)
      as (H1 & Hf1 & Hc1).
    destruct (IH (S i) _ H1) as (H2 & Hf2 & Hc2).
    split; [exact H2|]. split.
    + rewrite Hf2, Hf1. now rewrite orb_assoc.
    + rewrite Hc2, Hf1, Hc1. unfold isClassHeader.
      destruct (snd st); [reflexivity|]. cbn [orb].
      destruct (classHeaderOf l); reflexivity.
Qed.

End AnalyzerProperties.

Lemma initial_classState (path : string) :
  classState (Analysis.initial path, false).
Proof. now split. Qed.

Lemma analyzeContent_fields (path content : string) :
  let st := analyzeLines 0 (split LF content) (Analysis.initial path, false) in
  let a := analyzeContent path content in
  Analysis.namespace a = Analysis.namespace (fst st)
  /\ Analysis.className a = Analysis.className (fst st)
  /\ Analysis.classType a = Analysis.classType (fst st)
  /\ Analysis.traits a = Analysis.traits (fst st)
  /\ Analysis.imports a = Analysis.imports (fst st)
  /\ Analysis.fullClassName a
     = match Analysis.namespace (fst st), Analysis.className (fst st) with
       | Some ns, Some cn =>
           if truthy ns && truthy cn
           then Some (ns ++ backslash ++ cn)%string
           else None
       | _, _ => None
       end.
Proof.
  cbn zeta. unfold analyzeContent.
  pose proof (analyzeLines_fullClassName (split LF content) 0
                (Analysis.initial path) false) as Hf.
  destruct (analyzeLines 0 (split LF content) (Analysis.initial path, false))
    as [a flag].
  cbn [fst] in *. cbn [Analysis.initial Analysis.fullClassName] in Hf.
  destruct (Analysis.namespace a) as [ns|] eqn:En;
    destruct (Analysis.className a) as [cn|] eqn:Ec;
    try destruct (truthy ns && truthy cn);
    cbn [Analysis.setFullClassName Analysis.namespace Analysis.className
         Analysis.classType Analysis.traits Analysis.imports
         Analysis.fullClassName];
    rewrite ?En, ?Ec; now repeat split.
Qed.

(** C5, as amended.  The analyzer records at most one namespace and at
    most one primary class, interface, trait or enum per file.  For the
    class header the first declaration wins: only the kind and the name
    of the first class-header line are reported.  For the namespace each
    declaration line overwrites the one before, so the last occurrence
    is the one kept. *)
Theorem first_class_last_namespace (path content : string) :
  let a := analyzeContent path content in
  let lines := split LF content in
  Analysis.namespace a = lastSome (map namespaceOf lines)
  /\ (Analysis.classType a, Analysis.className a)
     = match firstSome (map classHeaderOf lines) with
       | Some header => header
       | None => (None, None)
       end.
Proof.
  cbn zeta.
  destruct (analyzeContent_fields path content) as (Hn & Hc & Hk & _).
  rewrite Hn, Hc, Hk. split.
  - rewrite analyzeLines_namespace. cbn [Analysis.initial Analysis.namespace].
    now destruct (lastSome _).
  - destruct (@analyzeLines_classState (split LF content) 0 _
                (initial_classState path)) as (_ & _ & H).
    exact H.
Qed.

(** C5 as stated fails for the namespace: of two declaration lines the
    second is the one reported. *)
Lemma first_namespace_counterexample :
  let content :=
    ("namespace App\First;" ++ newline ++ "namespace App\Second;")%string in
  map namespaceOf (split LF content)
  = [Some "App\First"; Some "App\Second"]
  /\ Analysis.namespace (analyzeContent "a.php" content)
     = Some "App\Second"
  /\ Analysis.namespace (analyzeContent "a.php" content)
     <> Some "App\First".
Proof. repeat split; try reflexivity. discriminate. Qed.

(** C6, as amended.  A line of the use-style import shape is appended to
    the used traits exactly when a class header was seen on an earlier
    line and the captured name contains no namespace separator; it is
    recorded as an import, with its line number, exactly when no class
    header was seen on an earlier line.  A use line after the class
    header whose captured name contains a separator is recorded in
    neither list. *)
Theorem use_rule (path : string) (before : list string) (line : string)
                 (after : list string) (useMatch : RegExp.matchResult) :
  lineMatch Patterns.useRegex line = Some useMatch ->
  let start := (Analysis.initial path, false) in
  let reached := analyzeLines 0 before start in
  let lineNum := List.length before + 1 in
  let next := analyzeLine lineNum line reached in
  let name := capText useMatch 1 in
  let seen := existsb isClassHeader before in
  analyzeLines 0 (before ++ line :: after) start
  = analyzeLines (S (List.length before)) after next
  /\ snd reached = seen
  /\ Analysis.traits (fst next)
     = Analysis.traits (fst reached)
       ++ (if seen && negb (includes name backslash)
           then [trim name] else [])
  /\ Analysis.imports (fst next)
     = Analysis.imports (fst reached)
       ++ (if negb seen
           then [Analysis.Import (trim name) lineNum] else []).
Proof.
  intros Hm. cbn zeta.
  destruct (@analyzeLines_classState before 0 _ (initial_classState path))
    as (_ & Hflag & _).
  cbn [snd orb] in Hflag.
  split; [|split; [exact Hflag|]].
  - rewrite analyzeLines_app. cbn [analyzeLines]. reflexivity.
  - destruct (analyzeLines 0 before (Analysis.initial path, false))
      as [a flag].
    cbn [fst snd] in *. subst flag.
    pose proof (analyzeLine_fields (List.length before + 1) line a
                  (existsb isClassHeader before))
      as (_ & _ & _ & _ & Ht & Hi).
    cbn zeta in Ht, Hi. rewrite Hm in Ht, Hi. now split.
Qed.

Lemma use_rule_witness :
  lineMatch Patterns.useRegex "    use HasFactory;"
  = Some (RegExp.MatchResult 0 "    use HasFactory" [(1, "HasFactory")])
  /\ Analysis.traits
       (fst (analyzeLine 2 "    use HasFactory;"
               (analyzeLines 0 ["class User extends Model"]
                             (Analysis.initial "User.php", false))))
     = ["HasFactory"].
Proof.
  split; [reflexivity|].
  exact (proj1 (proj2 (proj2
           (@use_rule "User.php" ["class User extends Model"]
                      "    use HasFactory;" []
                      (RegExp.MatchResult 0 "    use HasFactory"
                                          [(1, "HasFactory")])
                      eq_refl)))).
Defined.

(** C6 as stated fails: a use line behind the class header whose name
    contains a separator matches the import shape and is recorded
    neither as a trait nor as an import. *)
Lemma use_rule_counterexample :
  let content :=
    ("class User extends Model" ++ newline
     ++ "    use App\Traits\HasRoles;")%string in
  lineMatch Patterns.useRegex "    use App\Traits\HasRoles;"
  = Some (RegExp.MatchResult 0 "    use App\Traits\HasRoles"
                             [(1, "App\Traits\HasRoles")])
  /\ Analysis.traits (analyzeContent "User.php" content) = []
  /\ Analysis.imports (analyzeContent "User.php" content) = [].
Proof. repeat split; reflexivity. Qed.

(** C7.  For [namespace App\Models;] followed by
    [class User extends Model implements Authenticatable] the analyzer
    reports the namespace, the class name, the kind, the parent, the
    one-element list of interfaces and the fully qualified name
    [App\Models\User].  For every text, the fully qualified name is the
    namespace, the separator and the class name whenever a non-empty
    namespace and a class name were captured, and absent otherwise. *)
Theorem qualified_name_scenario :
  (let a :=
     analyzeContent "User.php"
       ("namespace App\Models;" ++ newline
        ++ "class User extends Model implements Authenticatable")%string in
   Analysis.namespace a = Some "App\Models"
   /\ Analysis.className a = Some "User"
   /\ Analysis.classType a = Some "class"
   /\ Analysis.extends a = Some "Model"
   /\ Analysis.implements a = ["Authenticatable"]
   /\ Analysis.fullClassName a = Some "App\Models\User")
  /\ forall path content,
      let a := analyzeContent path content in
      Analysis.fullClassName a
      = match Analysis.namespace a, Analysis.className a with
        | Some ns, Some cn =>
            if truthy ns then Some (ns ++ backslash ++ cn)%string else None
        | _, _ => None
        end.
Proof.
  split; [repeat split; reflexivity|].
  intros path content. cbn zeta.
  destruct (analyzeContent_fields path content)
    as (Hn & Hc & _ & _ & _ & Hf).
  rewrite Hf, Hn, Hc.
  destruct (@analyzeLines_classState (split LF content) 0 _
              (initial_classState path)) as (Hst & _ & _).
  unfold classState in Hst.
  destruct (analyzeLines 0 (split LF content) (Analysis.initial path, false))
    as [a flag].
  cbn [fst snd] in *.
  destruct (Analysis.namespace a) as [ns|]; [|reflexivity].
  destruct (Analysis.className a) as [cn|] eqn:Ec; [|reflexivity].
  destruct flag; [|now destruct Hst].
  cbn [truthyOpt] in Hst. rewrite Hst. now rewrite andb_true_r.
Qed.

(** C7 as stated fails: a namespace line whose captured text is blank
    is recorded as the empty namespace.  The namespace and the class
    name were then both captured, and no fully qualified name is
    derived. *)
Lemma qualified_name_counterexample :
  let a :=
    analyzeContent "A.php"
      ("namespace  ;" ++ newline ++ "class A")%string in
  lineMatch Patterns.nsRegex "namespace  ;"
  = Some (RegExp.MatchResult 0 "namespace  " [(1, " ")])
  /\ Analysis.namespace a = Some ""
  /\ Analysis.className a = Some "A"
  /\ Analysis.fullClassName a = None.
Proof. repeat split; reflexivity. Qed.

(* ================================================================== *)
(** * Search and replace *)
(* ================================================================== *)

Section ReplaceProperties.
Variables search replace : string.

(** The new lines, and one change for every line that contains the
    search text. *)
Lemma replaceLines_spec (lines : list string) :
  forall index,
    fst (replaceLines search replace index lines)
    = map (replacedLine search replace) lines
    /\ List.length (snd (replaceLines search replace index lines))
       = List.length (filter (fun line => includes line search) lines).
Proof.
  induction lines as [|line lines IH]; intros index; [now split|].
  cbn [replaceLines map filter]. unfold replaceLine, replacedLine.
  destruct (IH (S index)) as [Hl Hc].
  destruct (replaceLines search replace (S index) lines)
    as [newLines changes].
  cbn [fst snd] in *.
  destruct (includes line search); cbn [fst snd app List.length];
    now rewrite Hl, Hc.
Qed.


Lemma filter_cons_existsb (A : Type) (f : A -> bool) (l : list A) :
  existsb f l = true -> filter f l <> [].
Proof.
  induction l as [|x l IH]; simpl; [discriminate|].
  destruct (f x); [discriminate|]. exact IH.
Qed.

End ReplaceProperties.



(** Without a file to work on nothing is written either. *)
Lemma replace_failure_writes_nothing
    (cwd PROJECT_ROOT : string) (st : fileStore)
    (path search replace : string) :
  (forall filePath, resolvePath cwd PROJECT_ROOT path = Ok filePath ->
                    st filePath = None) ->
  snd (search_and_replace cwd PROJECT_ROOT st path search replace) = st.
Proof.
  intros H. unfold search_and_replace.
  destruct (resolvePath cwd PROJECT_ROOT path) as [filePath|e];
    [|reflexivity].
  now rewrite (H filePath eq_refl).
Qed.

(* ================================================================== *)
(** * The patterns of the usage finder *)
(* ================================================================== *)

Module UsagePatternFacts.
Import RegExp Pattern.

(** Splits a hypothesis [isSyntaxCharacter c = false] into the
    inequalities. *)
Ltac not_syntax H :=
  unfold isSyntaxCharacter, oneOf in H; simpl in H;
  repeat (apply orb_false_iff in H as [? H]).

Lemma plainName_cons (c : ascii) (q : string) :
  plainName (String c q) = true
  <-> isSyntaxCharacter c = false /\ plainName q = true.
Proof.
  unfold plainName. cbn [list_ascii_of_string forallb].
  rewrite andb_true_iff, negb_true_iff. reflexivity.
Qed.

Lemma unquantified_plain (c : ascii) (s : string) :
  isSyntaxCharacter c = false -> unquantified (String c s) = true.
Proof.
  intros H. not_syntax H. unfold unquantified, oneOf. simpl.
  repeat match goal with E : _ = false |- _ => rewrite E; clear E end.
  reflexivity.
Qed.

Lemma unquantified_app (q tail : string) :
  plainName q = true -> unquantified tail = true ->
  unquantified (q ++ tail) = true.
Proof.
  destruct q as [|c q]; [trivial|]. intros H _.
  apply plainName_cons in H as [H _]. now apply unquantified_plain.
Qed.

Lemma parseQuantifier_unquantified (a : regex) (n : nat) (s : string) :
  unquantified s = true -> parseQuantifier a n s = Parsed (a, n, s).
Proof.
  destruct s as [|d s]; [reflexivity|].
  unfold unquantified, oneOf. simpl. rewrite negb_true_iff. intros H.
  repeat (apply orb_false_iff in H as [? H]).
  unfold parseQuantifier, isChar.
  repeat match goal with E : _ = false |- _ => rewrite E; clear E end.
  reflexivity.
Qed.

(** A character that is not a syntax character stands for itself. *)
Lemma parseTerm_char (c : ascii) (s : string) (n : nat) :
  isSyntaxCharacter c = false -> unquantified s = true ->
  forall fuel, 2 <= fuel ->
    parseTerm fuel n (String c s) = Parsed (Char c, n, s).
Proof.
  intros Hc Hs fuel Hf. destruct fuel as [|[|fuel]]; try lia.
  not_syntax Hc.
  cbn [parseTerm parseAtom]. unfold isChar, oneOf. simpl existsb.
  repeat match goal with E : _ = false |- _ => rewrite E; clear E end.
  destruct s; cbn [andb orb]; now apply parseQuantifier_unquantified.
Qed.

(** A term in front of the rest of an alternative. *)
Lemma parseAlternative_cons (k n n1 n2 : nat) (c : ascii)
                            (s s1 s2 : string) (t r : regex) :
  isChar c "|" || isChar c ")" = false ->
  (forall fuel, k <= fuel ->
     parseTerm fuel n (String c s) = Parsed (t, n1, s1)) ->
  (forall fuel, k <= fuel ->
     parseAlternative fuel n1 s1 = Parsed (r, n2, s2)) ->
  forall fuel, S k <= fuel ->
    parseAlternative fuel n (String c s) = Parsed (Seq t r, n2, s2).
Proof.
  intros Hc Ht Hr fuel Hf. destruct fuel as [|fuel]; [lia|].
  cbn [parseAlternative]. rewrite Hc, Ht, Hr by lia. reflexivity.
Qed.

(** The characters of a plain text in front of the rest of an
    alternative. *)
Lemma parseAlternative_literal (q tail : string) (r : regex)
                               (n n' : nat) (s' : string) (k : nat) :
  plainName q = true -> unquantified tail = true -> 2 <= k ->
  (forall fuel, k <= fuel ->
     parseAlternative fuel n tail = Parsed (r, n', s')) ->
  forall fuel, String.length q + k <= fuel ->
    parseAlternative fuel n (q ++ tail)
    = Parsed (literalThen q r, n', s').
Proof.
  intros Hq Htail Hk Hr. induction q as [|c q IH]; intros fuel Hf.
  - apply Hr. simpl in Hf. lia.
  - apply plainName_cons in Hq as [Hc Hq]. specialize (IH Hq).
    cbn [append literalThen String.length] in *.
    apply (@parseAlternative_cons (String.length q + k) n n n' c
             (q ++ tail) (q ++ tail) s' (Char c) (literalThen q r));
      [| |exact IH|lia].
    + not_syntax Hc. unfold isChar.
      repeat match goal with E : _ = false |- _ => rewrite E; clear E end.
      reflexivity.
    + intros f Hle. apply parseTerm_char; trivial; [|lia].
      now apply unquantified_app.
Qed.

Lemma parseTerm_spaces (plus : bool) (s : string) (n : nat) :
  unquantified s = true ->
  forall fuel, 2 <= fuel ->
    parseTerm fuel n (String "\" (String "s"
                        (String (if plus then "+" else "*")%char s)))
    = Parsed ((if plus then Plus else Star) (Class Space false), n, s).
Proof.
  intros Hs fuel Hf. destruct fuel as [|[|fuel]]; try lia.
  destruct s as [|d s]; [now destruct plus|].
  unfold unquantified, oneOf in Hs. simpl in Hs.
  rewrite negb_true_iff in Hs.
  repeat (apply orb_false_iff in Hs as [? Hs]).
  destruct plus; cbn; unfold isChar;
    repeat match goal with E : _ = false |- _ => rewrite E; clear E end;
    reflexivity.
Qed.

Lemma parseTerm_anything (s : string) (n : nat) :
  unquantified s = true ->
  forall fuel, 2 <= fuel ->
    parseTerm fuel n (String "." (String "*" s))
    = Parsed (Star Dot, n, s).
Proof.
  intros Hs fuel Hf. destruct fuel as [|[|fuel]]; try lia.
  destruct s as [|d s]; [reflexivity|].
  unfold unquantified, oneOf in Hs. simpl in Hs.
  rewrite negb_true_iff in Hs.
  repeat (apply orb_false_iff in Hs as [? Hs]).
  cbn; unfold isChar;
    repeat match goal with E : _ = false |- _ => rewrite E; clear E end;
    reflexivity.
Qed.

Lemma parseTerm_boundary (s : string) (n : nat) :
  forall fuel, 1 <= fuel ->
    parseTerm fuel n (String "\" (String "b" s))
    = Parsed (WordBoundary false, n, s).
Proof. intros fuel Hf. destruct fuel; [lia|reflexivity]. Qed.

(** The end of an alternative: a bar, a closing parenthesis or the
    end of the pattern. *)
Lemma parseAlternative_end (s : string) (n : nat) :
  match s with
  | EmptyString => True
  | String c _ => isChar c "|" || isChar c ")" = true
  end ->
  forall fuel, 1 <= fuel ->
    parseAlternative fuel n s = Parsed (Empty, n, s).
Proof.
  intros H fuel Hf. destruct fuel; [lia|].
  destruct s as [|c s]; [reflexivity|].
  cbn [parseAlternative]. now rewrite H.
Qed.

Lemma parseDisjunction_bar (k n n1 n2 : nat) (s s1 s2 : string)
                           (r1 r2 : regex) :
  (forall fuel, k <= fuel ->
     parseAlternative fuel n s = Parsed (r1, n1, String "|" s1)) ->
  (forall fuel, k <= fuel ->
     parseDisjunction fuel n1 s1 = Parsed (r2, n2, s2)) ->
  forall fuel, S k <= fuel ->
    parseDisjunction fuel n s = Parsed (Alt r1 r2, n2, s2).
Proof.
  intros H1 H2 fuel Hf. destruct fuel as [|fuel]; [lia|].
  cbn [parseDisjunction]. rewrite H1 by lia.
  cbn [isChar Ascii.eqb Bool.eqb]. rewrite H2 by lia. reflexivity.
Qed.

Lemma parseDisjunction_last (k n n1 : nat) (s s1 : string) (r : regex) :
  (forall fuel, k <= fuel ->
     parseAlternative fuel n s = Parsed (r, n1, s1)) ->
  match s1 with
  | EmptyString => True
  | String c _ => isChar c "|" = false
  end ->
  forall fuel, S k <= fuel ->
    parseDisjunction fuel n s = Parsed (r, n1, s1).
Proof.
  intros H1 Hs fuel Hf. destruct fuel as [|fuel]; [lia|].
  cbn [parseDisjunction]. rewrite H1 by lia.
  destruct s1 as [|c s1]; [reflexivity|]. now rewrite Hs.
Qed.

(** A capturing group. *)
Lemma parseTerm_group (k n n1 : nat) (c : ascii) (body s : string)
                      (r : regex) :
  isChar c "?" = false ->
  (forall fuel, k <= fuel ->
     parseDisjunction fuel (S n) (String c body)
     = Parsed (r, n1, String ")" s)) ->
  unquantified s = true ->
  forall fuel, k + 2 <= fuel ->
    parseTerm fuel n (String "(" (String c body))
    = Parsed (Group n r, n1, s).
Proof.
  intros Hc H Hs fuel Hf. destruct fuel as [|[|fuel]]; try lia.
  cbn [parseTerm parseAtom isChar Ascii.eqb Bool.eqb andb].
  unfold isChar in Hc. rewrite Hc, H by lia.
  cbn [expectClose isChar Ascii.eqb Bool.eqb].
  now apply parseQuantifier_unquantified.
Qed.

(** The pattern [keyword\s+.*\bname\b]. *)
Lemma keyword_pattern (keyword name : string) :
  plainName keyword = true -> plainName name = true ->
  parsePattern (keyword ++ "\s+.*\b" ++ name ++ "\b")
  = Parsed (keywordUsage keyword name).
Proof.
  intros Hk Hn.
  assert (forall n fuel, 2 <= fuel ->
            parseAlternative fuel n "\b"
            = Parsed (Seq (WordBoundary false) Empty, n, "")) as T1.
  { intros n.
    apply (@parseAlternative_cons 1 n n n _ _ "" _ _ _); [reflexivity| |].
    - now apply parseTerm_boundary.
    - now apply parseAlternative_end. }
  pose proof (fun n => @parseAlternative_literal name "\b" _ n n "" 2
                         Hn eq_refl (le_n 2) (T1 n)) as T2.
  assert (forall n fuel, String.length name + 3 <= fuel ->
            parseAlternative fuel n ("\b" ++ name ++ "\b")
            = Parsed (Seq (WordBoundary false)
                        (literalThen name
                           (Seq (WordBoundary false) Empty)), n, ""))
    as T3.
  { intros n fuel Hf.
    apply (@parseAlternative_cons (String.length name + 2) n n n
             _ _ (name ++ "\b") _ _ _);
      [reflexivity| |apply T2|lia].
    intros f Hle. apply parseTerm_boundary. lia. }
  assert (forall n fuel, String.length name + 4 <= fuel ->
            parseAlternative fuel n (".*\b" ++ name ++ "\b")
            = Parsed (Seq (Star Dot)
                        (Seq (WordBoundary false)
                           (literalThen name
                              (Seq (WordBoundary false) Empty))), n, ""))
    as T4.
  { intros n fuel Hf.
    apply (@parseAlternative_cons (String.length name + 3) n n n
             _ _ ("\b" ++ name ++ "\b") _ _ _);
      [reflexivity| |apply T3|lia].
    intros f Hle. apply parseTerm_anything; [reflexivity|lia]. }
  assert (forall n fuel, String.length name + 5 <= fuel ->
            parseAlternative fuel n ("\s+.*\b" ++ name ++ "\b")
            = Parsed (Seq (Plus (Class Space false))
                        (Seq (Star Dot)
                           (Seq (WordBoundary false)
                              (literalThen name
                                 (Seq (WordBoundary false) Empty)))),
                      n, ""))
    as T5.
  { intros n fuel Hf.
    apply (@parseAlternative_cons (String.length name + 4) n n n
             _ _ (".*\b" ++ name ++ "\b") _ _ _);
      [reflexivity| |apply T4|lia].
    intros f Hle. apply (@parseTerm_spaces true); [reflexivity|lia]. }
  pose proof (fun n => @parseAlternative_literal keyword
                         ("\s+.*\b" ++ name ++ "\b") _ n n ""
                         (String.length name + 5)
                         Hk eq_refl ltac:(lia) (T5 n)) as T6.
  unfold parsePattern.
  rewrite (@parseDisjunction_last
             (String.length keyword + (String.length name + 5)) 1 1
             _ "" _ (T6 1) I); [reflexivity|].
  rewrite !JsStringFacts.length_append. simpl. lia.
Qed.

(** The pattern [(new\s+name|name::|:\s*name\b)]. *)
Lemma reference_pattern (name : string) :
  plainName name = true ->
  parsePattern (referencePattern name) = Parsed (referenceUsage name).
Proof.
  intros Hn. set (L := String.length name).
  (* the third alternative *)
  assert (forall n fuel, 2 <= fuel ->
            parseAlternative fuel n "\b)"
            = Parsed (Seq (WordBoundary false) Empty, n, ")")) as A1.
  { intros n.
    apply (@parseAlternative_cons 1 n n n _ _ ")" _ _ _); [reflexivity| |].
    - now apply parseTerm_boundary.
    - now apply parseAlternative_end. }
  pose proof (fun n => @parseAlternative_literal name "\b)" _ n n ")" 2
                         Hn eq_refl (le_n 2) (A1 n)) as A2.
  fold L in A2.
  assert (forall n fuel, L + 3 <= fuel ->
            parseAlternative fuel n ("\s*" ++ name ++ "\b)")
            = Parsed (Seq (Star (Class Space false))
                        (literalThen name
                           (Seq (WordBoundary false) Empty)), n, ")"))
    as A3.
  { intros n fuel Hf.
    apply (@parseAlternative_cons (L + 2) n n n
             _ _ (name ++ "\b)") _ _ _);
      [reflexivity| |apply A2|lia].
    intros f Hle. apply (@parseTerm_spaces false); [|lia].
    now apply unquantified_app. }
  assert (forall n fuel, L + 4 <= fuel ->
            parseAlternative fuel n (":\s*" ++ name ++ "\b)")
            = Parsed (Seq (Char ":")
                        (Seq (Star (Class Space false))
                           (literalThen name
                              (Seq (WordBoundary false) Empty))),
                      n, ")"))
    as A4.
  { intros n fuel Hf.
    apply (@parseAlternative_cons (L + 3) n n n
             _ _ ("\s*" ++ name ++ "\b)") _ _ _);
      [reflexivity| |apply A3|lia].
    intros f Hle. apply parseTerm_char; [reflexivity|reflexivity|lia]. }
  assert (forall n fuel, L + 5 <= fuel ->
            parseDisjunction fuel n (":\s*" ++ name ++ "\b)")
            = Parsed (Seq (Char ":")
                        (Seq (Star (Class Space false))
                           (literalThen name
                              (Seq (WordBoundary false) Empty))),
                      n, ")"))
    as D3.
  { intros n fuel Hf.
    apply (@parseDisjunction_last (L + 4) n n _ ")" _ (A4 n));
      [reflexivity|lia]. }
  (* the second alternative *)
  set (third := (":\s*" ++ name ++ "\b)")%string) in *.
  assert (forall n fuel, 4 <= fuel ->
            parseAlternative fuel n ("::|" ++ third)
            = Parsed (literalThen "::" Empty, n, String "|" third))
    as B1.
  { intros n fuel Hf.
    apply (@parseAlternative_literal "::" (String "|" third) Empty
             n n (String "|" third) 2); trivial.
    intros f Hle. apply parseAlternative_end; [reflexivity|lia]. }
  pose proof (fun n => @parseAlternative_literal name ("::|" ++ third)
                         _ n n _ 4 Hn eq_refl ltac:(lia) (B1 n)) as B2.
  fold L in B2.
  assert (forall n fuel, L + 6 <= fuel ->
            parseDisjunction fuel n (name ++ "::|" ++ third)
            = Parsed (Alt (literalThen name (literalThen "::" Empty))
                        (Seq (Char ":")
                           (Seq (Star (Class Space false))
                              (literalThen name
                                 (Seq (WordBoundary false) Empty)))),
                      n, ")"))
    as D2.
  { intros n fuel Hf.
    apply (@parseDisjunction_bar (L + 5) n n n _ third ")"); [| |lia].
    - intros f Hle. apply B2. lia.
    - intros f Hle. now apply D3. }
  (* the first alternative *)
  set (second := (name ++ "::|" ++ third)%string) in *.
  assert (forall n fuel, 1 <= fuel ->
            parseAlternative fuel n (String "|" second)
            = Parsed (Empty, n, String "|" second)) as C0.
  { intros n fuel Hf. now apply parseAlternative_end. }
  pose proof (fun n => @parseAlternative_literal name
                         (String "|" second) Empty n n _ 2
                         Hn eq_refl (le_n 2)
                         (fun f Hle => C0 n f ltac:(lia))) as C1.
  fold L in C1.
  assert (forall n fuel, L + 3 <= fuel ->
            parseAlternative fuel n ("\s+" ++ name ++ String "|" second)
            = Parsed (Seq (Plus (Class Space false))
                        (literalThen name Empty),
                      n, String "|" second))
    as C2.
  { intros n fuel Hf.
    apply (@parseAlternative_cons (L + 2) n n n
             _ _ (name ++ String "|" second) _ _ _);
      [reflexivity| |apply C1|lia].
    intros f Hle. apply (@parseTerm_spaces true); [|lia].
    now apply unquantified_app. }
  pose proof (fun n => @parseAlternative_literal "new"
                         ("\s+" ++ name ++ String "|" second) _ n n _
                         (L + 3) eq_refl eq_refl ltac:(lia) (C2 n))
    as C3.
  assert (forall n fuel, L + 7 <= fuel ->
            parseDisjunction fuel n
              ("new\s+" ++ name ++ String "|" second)
            = Parsed (Alt (literalThen "new"
                             (Seq (Plus (Class Space false))
                                (literalThen name Empty)))
                        (Alt (literalThen name (literalThen "::" Empty))
                           (Seq (Char ":")
                              (Seq (Star (Class Space false))
                                 (literalThen name
                                    (Seq (WordBoundary false) Empty))))),
                      n, ")"))
    as D1.
  { intros n fuel Hf.
    apply (@parseDisjunction_bar (L + 6) n n n _ second ")"); [| |lia].
    - intros f Hle. apply C3. simpl. lia.
    - intros f Hle. now apply D2. }
  (* the group *)
  assert (forall fuel, L + 10 <= fuel ->
            parseAlternative fuel 1 (referencePattern name)
            = Parsed (referenceUsage name, 2, "")) as G.
  { intros fuel Hf.
    apply (@parseAlternative_cons (L + 9) 1 2 2 "("%char
             ("new\s+" ++ name ++ String "|" second) "" "" _ _);
      [reflexivity| | |lia].
    - intros f Hle.
      apply (@parseTerm_group (L + 7) 1 2 "n"%char); trivial; [|lia].
      intros f' Hle'. now apply D1.
    - intros f Hle. apply parseAlternative_end; [exact I|lia]. }
  unfold parsePattern.
  rewrite (@parseDisjunction_last (L + 10) 1 2 _ "" _ G I);
    [reflexivity|].
  unfold referencePattern. rewrite !JsStringFacts.length_append.
  fold L. simpl. lia.
Qed.

(** The four patterns of the usage finder compile for every plain
    short name. *)
Lemma usage_patterns (name : string) :
  plainName name = true ->
  parsePattern (importPattern name)
  = Parsed (keywordUsage "use" name)
  /\ parsePattern (extendsPattern name)
     = Parsed (keywordUsage "extends" name)
  /\ parsePattern (implementsPattern name)
     = Parsed (keywordUsage "implements" name)
  /\ parsePattern (referencePattern name)
     = Parsed (referenceUsage name).
Proof.
  intros Hn. repeat split.
  - now apply (@keyword_pattern "use").
  - now apply (@keyword_pattern "extends").
  - now apply (@keyword_pattern "implements").
  - now apply reference_pattern.
Qed.

End UsagePatternFacts.

(* ================================================================== *)
(** * Usage finder *)
(* ================================================================== *)

Section UsageProperties.
Variable shortName : string.
Variables reImport reExtends reImplements reReference : RegExp.regex.

Hypothesis import_compiles :
  Pattern.parsePattern (importPattern shortName)
  = Pattern.Parsed reImport.
Hypothesis extends_compiles :
  Pattern.parsePattern (extendsPattern shortName)
  = Pattern.Parsed reExtends.
Hypothesis implements_compiles :
  Pattern.parsePattern (implementsPattern shortName)
  = Pattern.Parsed reImplements.
Hypothesis reference_compiles :
  Pattern.parsePattern (referencePattern shortName)
  = Pattern.Parsed reReference.

Lemma testInsensitive_compiled (pattern : string) (re : RegExp.regex)
                               (line : string) :
  Pattern.parsePattern pattern = Pattern.Parsed re ->
  testInsensitive pattern line
  = Pattern.Parsed (matchesInsensitive re line).
Proof. unfold testInsensitive. now intros ->. Qed.

Lemma check_compiled (pattern : string) (re : RegExp.regex)
                     push u line r :
  Pattern.parsePattern pattern = Pattern.Parsed re ->
  check pattern push u line r
  = (if matchesInsensitive re line then push r u else r, Normal).
Proof.
  intros H. unfold check.
  rewrite (@testInsensitive_compiled pattern re line H).
  now destruct (matchesInsensitive re line).
Qed.

(** One line: each of the four checks appends to its own list, or
    not, whatever the other three do. *)
Lemma usageLine_compiled (file : string) (index : nat) (line : string)
                         (r : Usages.t) :
  let u := Usages.Usage file (index + 1) (trim line) in
  usageLine shortName file index line r
  = (Usages.Make
       (Usages.imports r
        ++ if matchesInsensitive reImport line then [u] else [])
       (Usages.extends r
        ++ if matchesInsensitive reExtends line then [u] else [])
       (Usages.implements r
        ++ if matchesInsensitive reImplements line then [u] else [])
       (Usages.references r
        ++ if matchesInsensitive reReference line then [u] else []),
     Normal).
Proof.
  cbn zeta. unfold usageLine.
  rewrite (@check_compiled _ _ _ _ _ _ import_compiles).
  rewrite (@check_compiled _ _ _ _ _ _ extends_compiles).
  rewrite (@check_compiled _ _ _ _ _ _ implements_compiles).
  rewrite (@check_compiled _ _ _ _ _ _ reference_compiles).
  destruct r as [i e m f].
  destruct (matchesInsensitive reImport line),
           (matchesInsensitive reExtends line),
           (matchesInsensitive reImplements line),
           (matchesInsensitive reReference line);
    cbn [Usages.pushImport Usages.pushExtends Usages.pushImplements
         Usages.pushReference Usages.imports Usages.extends
         Usages.implements Usages.references];
    rewrite ?app_nil_r; reflexivity.
Qed.

Local Abbreviation extended :=
  (extendedBy reImport reExtends reImplements reReference).

Lemma extended_nil (r : Usages.t) : extended r (fun _ => []) = r.
Proof. destruct r. unfold extendedBy. simpl. now rewrite !app_nil_r. Qed.

Lemma extended_twice (r : Usages.t) f g :
  extended (extended r f) g = extended r (fun re => f re ++ g re).
Proof. unfold extendedBy. simpl. now rewrite <- !app_assoc. Qed.

Lemma usageLines_compiled (file : string) (lines : list string) :
  forall index r,
    usageLines shortName file index lines r
    = (extended r (fun re => usagesOf re file index lines), Normal).
Proof.
  induction lines as [|line lines IH]; intros index r.
  - cbn [usageLines usagesOf]. now rewrite extended_nil.
  - cbn [usageLines usagesOf]. rewrite usageLine_compiled. cbn zeta.
    rewrite IH.
    change (Usages.Make ?i ?e ?m ?f)
      with (extended r (fun re =>
              if matchesInsensitive re line
              then [Usages.Usage file (index + 1) (trim line)] else [])).
    now rewrite extended_twice.
Qed.

Lemma usageFile_compiled (PROJECT_ROOT : string) (readFile : fileStore)
                         (r : Usages.t) (file : string) :
  usageFile PROJECT_ROOT readFile shortName (Some r) file
  = Some (extended r (fun re => fileUsages PROJECT_ROOT readFile re file)).
Proof.
  unfold usageFile, fileUsages.
  destruct (readFile _); [now rewrite usageLines_compiled|].
  now rewrite extended_nil.
Qed.

Lemma usageFiles_compiled (PROJECT_ROOT : string) (readFile : fileStore)
                          (files : list string) :
  forall r,
    fold_left (usageFile PROJECT_ROOT readFile shortName) files (Some r)
    = Some (extended r
              (fun re =>
                 flat_map (fileUsages PROJECT_ROOT readFile re) files)).
Proof.
  induction files as [|file files IH]; intros r.
  - simpl. now rewrite extended_nil.
  - cbn [fold_left flat_map]. rewrite usageFile_compiled, IH.
    now rewrite extended_twice.
Qed.

End UsageProperties.

(** The candidate files of the scenario. *)
Lemma usageProject_files :
  getFilesRecursively "/" "/srv/app" "/srv/app" true usageProject [".php"]
  = ["Profile.php"; "Admin.php"].
Proof. reflexivity. Qed.

(** C8.  For a class name whose short name holds no syntax character of
    the pattern grammar, the four patterns built from the short name
    compile, and the usage finder tests every line of every candidate
    file it can read against each of them, without regard to case; each
    test decides on its own whether the line is appended to its category
    list, so that one line may be appended to several lists; the
    reported total is the sum of the lengths of the four lists.  For one
    file containing [use App\Models\User;] and another containing
    [class Admin extends User], the search for [User] puts the first
    line under imports and the second under extends, whatever the order
    in which the files are read, and reports a total of 2. *)
Theorem usage_classification
    (class_name : string) (completion : list string -> list string) :
  plainName (shortNameOf class_name) = true ->
  Permutation (completion ["Profile.php"; "Admin.php"])
              ["Profile.php"; "Admin.php"] ->
  let shortName := shortNameOf class_name in
  let reImport := keywordUsage "use" shortName in
  let reExtends := keywordUsage "extends" shortName in
  let reImplements := keywordUsage "implements" shortName in
  let reReference := referenceUsage shortName in
  (Pattern.parsePattern (importPattern shortName)
   = Pattern.Parsed reImport
   /\ Pattern.parsePattern (extendsPattern shortName)
      = Pattern.Parsed reExtends
   /\ Pattern.parsePattern (implementsPattern shortName)
      = Pattern.Parsed reImplements
   /\ Pattern.parsePattern (referencePattern shortName)
      = Pattern.Parsed reReference)
  /\ (forall file index line r,
        let u := Usages.Usage file (index + 1) (trim line) in
        usageLine shortName file index line r
        = (Usages.Make
             (Usages.imports r
              ++ if matchesInsensitive reImport line then [u] else [])
             (Usages.extends r
              ++ if matchesInsensitive reExtends line then [u] else [])
             (Usages.implements r
              ++ if matchesInsensitive reImplements line then [u] else [])
             (Usages.references r
              ++ if matchesInsensitive reReference line then [u] else []),
           Normal))
  /\ (forall cwd PROJECT_ROOT rootReadable rootEntries readFile order,
        let scanned :=
          order (getFilesRecursively cwd PROJECT_ROOT PROJECT_ROOT
                   rootReadable rootEntries [".php"]) in
        let found re :=
          flat_map (fileUsages PROJECT_ROOT readFile re) scanned in
        exists report,
          find_class_usages cwd PROJECT_ROOT rootReadable rootEntries
                            readFile order class_name
          = Some report
          /\ Usages.lists report
             = Usages.Make (found reImport) (found reExtends)
                           (found reImplements) (found reReference)
          /\ Usages.totalUsages report
             = List.length (Usages.imports (Usages.lists report))
               + List.length (Usages.extends (Usages.lists report))
               + List.length (Usages.implements (Usages.lists report))
               + List.length (Usages.references (Usages.lists report)))
  /\ find_class_usages "/" "/srv/app" true usageProject usageFiles
       completion "User"
     = Some (Usages.Report "User" "User" 2
               (Usages.Make
                  [Usages.Usage "Profile.php" 1 "use App\Models\User;"]
                  [Usages.Usage "Admin.php" 1 "class Admin extends User"]
                  [] []))
  /\ usageLine "User" "Owner.php" 0
       "class Owner extends Account implements user" Usages.empty
     = (Usages.Make
          []
          [Usages.Usage "Owner.php" 1
             "class Owner extends Account implements user"]
          [Usages.Usage "Owner.php" 1
             "class Owner extends Account implements user"]
          [],
        Normal).
Proof.
  intros Hplain Hperm. cbn zeta.
  destruct (UsagePatternFacts.usage_patterns _ Hplain)
    as (H1 & H2 & H3 & H4).
  split; [now repeat split|]. split; [|split; [|split]].
  - intros file index line r.
    now apply usageLine_compiled.
  - intros cwd PROJECT_ROOT rootReadable rootEntries readFile order.
    unfold find_class_usages.
    rewrite (@usageFiles_compiled _ _ _ _ _ H1 H2 H3 H4).
    eexists. split; [reflexivity|]. split; reflexivity.
  - unfold find_class_usages. rewrite usageProject_files.
    apply Permutation_sym, Permutation_length_2_inv in Hperm
      as [-> | ->]; reflexivity.
  - reflexivity.
Qed.

Lemma usage_classification_witness :
  plainName (shortNameOf "App\Models\User") = true
  /\ Permutation (rev ["Profile.php"; "Admin.php"])
                 ["Profile.php"; "Admin.php"]
  /\ Pattern.parsePattern (importPattern (shortNameOf "App\Models\User"))
     = Pattern.Parsed (keywordUsage "use" "User")
  /\ find_class_usages "/" "/srv/app" true usageProject usageFiles
                       (@rev string) "User"
     = Some (Usages.Report "User" "User" 2
               (Usages.Make
                  [Usages.Usage "Profile.php" 1 "use App\Models\User;"]
                  [Usages.Usage "Admin.php" 1 "class Admin extends User"]
                  [] [])).
Proof.
  split; [reflexivity|]. split; [apply perm_swap|].
  pose proof (@usage_classification "App\Models\User" (@rev string)
                eq_refl (perm_swap _ _ _)) as H.
  cbn zeta in H. split; [exact (proj1 (proj1 H))|].
  exact (proj1 (proj2 (proj2 (proj2 H)))).
Defined.

(** C8 as stated fails: the short name goes into the patterns
    unescaped.  For [User(] the first pattern does not compile, and no
    line of any file is tested or recorded.  For [a)|(b] the reference
    pattern compiles and matches the line [new a], which is still not
    recorded as a reference, because the import pattern, built first,
    throws. *)
Lemma usage_classification_counterexample :
  Pattern.parsePattern (importPattern "User(") = Pattern.SyntaxError
  /\ (forall file index line r,
        usageLine "User(" file index line r = (r, Thrown))
  /\ find_class_usages "/" "/srv/app" true usageProject usageFiles
       (fun files => files) "User("
     = Some (Usages.Report "User(" "User(" 0 Usages.empty)
  /\ testInsensitive (referencePattern "a)|(b") "new a"
     = Pattern.Parsed true
  /\ usageLine "a)|(b" "F.php" 0 "new a" Usages.empty
     = (Usages.empty, Thrown).
Proof. repeat split; reflexivity. Qed.

(* ================================================================== *)
(** * Which paths the sandbox admits *)
(* ================================================================== *)

Module SandboxFacts.
Import NodePath JsStringFacts NodePathFacts.

Lemma join_app (A B : list string) :
  A <> [] -> B <> [] ->
  join "/" (A ++ B) = (join "/" A ++ "/" ++ join "/" B)%string.
Proof.
  intros HA HB. induction A as [|a A IH]; [contradiction|].
  destruct A as [|a' A'].
  - destruct B; [contradiction|]. reflexivity.
  - change ((a :: a' :: A') ++ B) with (a :: a' :: (A' ++ B)).
    rewrite !join_cons2. change (a' :: A' ++ B) with ((a' :: A') ++ B).
    rewrite IH by discriminate. now rewrite append_assoc.
Qed.

Lemma absolutePathOf_app (R Y : list string) :
  Y <> [] -> absolutePathOf (R ++ Y) = (stem R ++ join "/" Y)%string.
Proof.
  intros HY. unfold absolutePathOf, stem. destruct R as [|r R].
  - reflexivity.
  - rewrite join_app by (trivial; discriminate).
    cbn [append]. now rewrite append_assoc.
Qed.

Lemma startsWith_same_prefix (p a b : string) :
  startsWith (p ++ a) (p ++ b) = startsWith a b.
Proof.
  induction p as [|c p IH]; [reflexivity|].
  cbn [append startsWith]. now rewrite Ascii.eqb_refl.
Qed.

Lemma startsWith_length (s p : string) :
  startsWith s p = true -> String.length p <= String.length s.
Proof.
  intros H. apply startsWith_spec in H as [t ->].
  rewrite length_append. lia.
Qed.

(** A name without separator is a prefix of [n/...] only as a prefix
    of [n]. *)
Lemma startsWith_segment (n t r : string) :
  includes r "/" = false ->
  startsWith (n ++ String sep t) r = startsWith n r.
Proof.
  revert r. induction n as [|c n IH]; intros r Hr.
  - destruct r as [|d r]; [reflexivity|].
    rewrite includes_sep_cons in Hr. apply orb_false_iff in Hr as [Hd _].
    cbn [append startsWith]. unfold sep in *.
    rewrite Ascii.eqb_sym, Hd. reflexivity.
  - destruct r as [|d r]; [reflexivity|].
    rewrite includes_sep_cons in Hr. apply orb_false_iff in Hr as [_ Hr].
    cbn [append startsWith]. now rewrite IH.
Qed.

Lemma validName_relative (n : string) (X : list string) :
  validName n = true ->
  String.eqb (join "/" (n :: X)) "" = false
  /\ isAbsolute (join "/" (n :: X)) = false.
Proof.
  intros H. destruct (validName_parts _ H) as (Hn & _ & _ & _ & Hs).
  destruct n as [|c n]; [contradiction|].
  rewrite includes_sep_cons in Hs. apply orb_false_iff in Hs as [Hc _].
  unfold isAbsolute. destruct X; cbn; unfold sep in Hc; now rewrite ?Hc.
Qed.

(** [path.resolve(root, p)] for a relative path that is not empty: the
    segments of [p] are applied to those of the root. *)
Lemma resolve_below (cwd : string) (R : list string) (p : string) :
  validNames R -> String.eqb p "" = false -> isAbsolute p = false ->
  resolve cwd [absolutePathOf R; p]
  = ("/" ++ join "/" (normalizeString false (rev R)
                        (split sep (p ++ "/"))))%string.
Proof.
  intros HR Hp Ha. unfold resolve. cbn [rev app resolveLoop].
  rewrite Hp, Ha.
  assert (isAbsolute (absolutePathOf R) = true) as Habs by reflexivity.
  assert (String.eqb (absolutePathOf R) "" = false) as Hnil
    by reflexivity.
  rewrite Habs, Hnil. cbn [negb].
  unfold normalizeSegments, absolutePathOf.
  change ((("/" ++ join "/" R) ++ "/" ++ p ++ "/" ++ "")%string)
    with (String sep (join "/" R ++ String sep (p ++ "/"))).
  rewrite normalize_skip, normalize_segments_then by assumption.
  now rewrite app_nil_r.
Qed.

Lemma resolve_root (cwd : string) (R : list string) :
  validNames R -> resolve cwd [absolutePathOf R; ""] = absolutePathOf R.
Proof.
  intros HR. rewrite <- (resolve_absolute cwd HR) at 2. reflexivity.
Qed.

(** A path of valid names resolves to the place below the root that it
    names. *)
Lemma resolve_descend (cwd : string) (R X : list string) :
  validNames R -> validNames X ->
  resolve cwd [absolutePathOf R; join "/" X] = absolutePathOf (R ++ X).
Proof.
  intros HR HX. destruct X as [|n X].
  - rewrite app_nil_r. now apply resolve_root.
  - inversion HX as [|? ? Hn HX']; subst.
    destruct (@validName_relative n X Hn) as [Hne Hrel].
    rewrite resolve_below by assumption.
    change ((join "/" (n :: X) ++ "/")%string)
      with ((join "/" (n :: X) ++ String sep "")%string).
    rewrite normalize_segments_then by assumption.
    cbn [split normalizeString String.eqb orb].
    now rewrite rev_app_distr, !rev_involutive.
Qed.

Lemma startsWith_below (R X : list string) :
  startsWith (absolutePathOf (R ++ X)) (absolutePathOf R) = true.
Proof.
  destruct X as [|x X].
  - rewrite app_nil_r. rewrite <- (append_nil_r (absolutePathOf R)) at 1.
    apply startsWith_append.
  - rewrite absolutePathOf_app by discriminate. unfold stem.
    destruct R as [|r R].
    + reflexivity.
    + rewrite append_assoc. apply startsWith_append.
Qed.

(** A [..] segment drops the innermost segment kept so far. *)
Lemma normalize_pop (res : list string) (t : string) :
  validNames res ->
  normalizeString false res (split sep (".." ++ String sep t))
  = normalizeString false (tl res) (split sep t).
Proof.
  intros Hres.
  rewrite (@split_sepfree_app ".." t) by reflexivity.
  cbn [normalizeString String.eqb Ascii.eqb Bool.eqb orb].
  destruct Hres as [|top res Htop _]; [reflexivity|].
  destruct (validName_parts _ Htop) as (_ & _ & _ & -> & _).
  reflexivity.
Qed.

Lemma normalize_climb (k : nat) :
  forall (res : list string) (t : string),
    validNames res ->
    normalizeString false res
      (split sep (join "/" (repeat ".." (S k)) ++ String sep t))
    = normalizeString false (skipn (S k) res) (split sep t).
Proof.
  induction k as [|k IH]; intros res t Hres.
  - cbn [repeat join]. rewrite normalize_pop by assumption.
    now destruct res.
  - change (repeat ".." (S (S k))) with (".." :: repeat ".." (S k)).
    cbn [repeat]. rewrite join_cons2, append_assoc.
    change ((String sep (join "/" (".." :: repeat ".." k))
             ++ String sep t)%string)
      with (String sep (join "/" (".." :: repeat ".." k)
                        ++ String sep t)).
    rewrite normalize_pop by assumption.
    change (".." :: repeat ".." k) with (repeat ".." (S k)).
    rewrite IH.
    + now destruct res.
    + destruct Hres; [constructor|assumption].
Qed.

Lemma length_join_app (T Y : list string) :
  validNames Y -> Y <> [] ->
  String.length (join "/" T) < String.length (join "/" (T ++ Y)).
Proof.
  intros HY HN. destruct T as [|t T].
  - cbn [app join String.length].
    pose proof (join_nonempty HY HN) as H.
    destruct (join "/" Y); [discriminate|]. simpl. lia.
  - rewrite join_app by (trivial; discriminate).
    rewrite !length_append. simpl. lia.
Qed.

(** [path.join(root, p)] for a path of valid names. *)
Lemma joinPaths_descend (R Y : list string) :
  validNames R -> validNames Y -> Y <> [] ->
  joinPaths [absolutePathOf R; join "/" Y] = absolutePathOf (R ++ Y).
Proof.
  intros HR HY HN. unfold joinPaths. simpl filter.
  pose proof (join_nonempty HY HN) as Hne.
  assert (truthy (join "/" Y) = true) as Ht
      by (destruct (join "/" Y); [discriminate|reflexivity]).
  rewrite Ht. cbn [join]. unfold normalize.
  assert (normalizeSegments false (absolutePathOf R ++ "/" ++ join "/" Y)
          = R ++ Y) as Hseg.
  { unfold normalizeSegments, absolutePathOf.
    change (("/" ++ join "/" R) ++ "/" ++ join "/" Y)%string
      with (String sep (join "/" R ++ String sep (join "/" Y))).
    rewrite normalize_skip, normalize_segments_then by assumption.
    rewrite normalize_segments by assumption.
    now rewrite ?app_nil_r, ?rev_involutive. }
  assert (isAbsolute (absolutePathOf R ++ "/" ++ join "/" Y) = true)
    as Habs by reflexivity.
  assert (String.eqb (absolutePathOf R ++ "/" ++ join "/" Y) "" = false)
    as Hnil by reflexivity.
  rewrite Habs, Hnil. cbn [negb]. rewrite Hseg.
  assert (String.eqb (join "/" (R ++ Y)) "" = false) as ->.
  { apply join_nonempty; [now apply Forall_app|].
    destruct R; [assumption|discriminate]. }
  assert (endsWith (absolutePathOf R ++ "/" ++ join "/" Y) "/" = false)
    as ->; [|reflexivity].
  destruct (exists_last HN) as (Y' & n & ->).
  apply Forall_app in HY as [HY' Hn]. inversion Hn; subst.
  destruct Y' as [|y Y'].
  - cbn [app join]. now apply endsWith_join_sepfree.
  - rewrite join_snoc by discriminate.
    replace (absolutePathOf R ++ "/" ++ join "/" (y :: Y') ++ "/" ++ n)
      %string
      with ((absolutePathOf R ++ "/" ++ join "/" (y :: Y')) ++ "/" ++ n)
           %string
      by (now rewrite !append_assoc).
    now apply endsWith_join_sepfree.
Qed.

End SandboxFacts.

Section SandboxAdmission.
Import NodePath JsStringFacts NodePathFacts SandboxFacts.
Variable cwd : string.

(** X1.  [resolvePath] admits every path that only descends: for a
    project root made of ordinary names and a relative path made of
    ordinary names (none empty, [.] or [..]), the result is the
    absolute path of that place below the root; the empty path gives
    the root itself. *)
Theorem resolvePath_descend (R X : list string) :
  validNames R -> validNames X ->
  resolvePath cwd (absolutePathOf R) (join "/" X)
  = Ok (absolutePathOf (R ++ X)).
Proof.
  intros HR HX. rewrite resolvePath_cases.
  rewrite resolve_descend by assumption.
  now rewrite startsWith_below.
Qed.

(** X2.  A path that only climbs, one or more [..] segments, is
    refused whenever the project root is not the file-system root. *)
Theorem resolvePath_climb (R : list string) (k : nat) :
  validNames R -> R <> [] ->
  resolvePath cwd (absolutePathOf R) (join "/" (repeat ".." (S k)))
  = Err accessDenied.
Proof.
  intros HR HN. rewrite resolvePath_cases.
  rewrite resolve_below; trivial;
    [|destruct k; reflexivity|destruct k; reflexivity].
  change ((join "/" (repeat ".." (S k)) ++ "/")%string)
    with ((join "/" (repeat ".." (S k)) ++ String sep "")%string).
  rewrite normalize_climb by now apply Forall_rev.
  cbn [split normalizeString String.eqb orb].
  destruct (startsWith _ (absolutePathOf R)) eqn:E; [|reflexivity].
  exfalso. apply startsWith_length in E.
  set (T := rev (skipn (S k) (rev R))) in *.
  set (Y := rev (firstn (S k) (rev R))).
  assert (R = T ++ Y) as HRY.
  { unfold T, Y. rewrite <- rev_app_distr, firstn_skipn.
    now rewrite rev_involutive. }
  assert (validNames Y) as HY.
  { rewrite HRY in HR. now apply Forall_app in HR. }
  assert (Y <> []) as HYN.
  { unfold Y. intros HE. apply (f_equal (@rev string)) in HE.
    rewrite rev_involutive in HE. cbn [rev] in HE.
    destruct (rev R) eqn:ER; [|discriminate].
    apply (f_equal (@rev string)) in ER. rewrite rev_involutive in ER.
    now apply HN. }
  pose proof (@length_join_app T Y HY HYN) as Hl.
  rewrite <- HRY in Hl. unfold absolutePathOf in E. simpl in E. lia.
Qed.

(** X3.  One step up and down again into a sibling of the project
    root: the path is admitted exactly when the sibling's name begins
    with the name of the root directory, because the test compares
    the text of the paths; in particular a sibling directory such as
    [app-old] next to the root [app] is inside the sandbox. *)
Theorem resolvePath_sibling_prefix
    (R0 : list string) (r n : string) (X : list string) :
  validNames (R0 ++ [r]) -> validNames (n :: X) ->
  resolvePath cwd (absolutePathOf (R0 ++ [r]))
              (join "/" (".." :: n :: X))
  = if startsWith n r then Ok (absolutePathOf (R0 ++ n :: X))
    else Err accessDenied.
Proof.
  intros HR HX. rewrite resolvePath_cases.
  pose proof HR as HR'. apply Forall_app in HR' as [HR0 Hr].
  inversion Hr as [|? ? Hr' _]; subst.
  rewrite resolve_below; trivial; try reflexivity.
  rewrite join_cons2, append_assoc.
  change ((String sep (join "/" (n :: X)) ++ "/")%string)
    with (String sep (join "/" (n :: X) ++ String sep "")).
  rewrite normalize_pop by now apply Forall_rev.
  rewrite rev_app_distr. cbn [rev app tl].
  rewrite normalize_segments_then by assumption.
  cbn [split normalizeString String.eqb orb].
  rewrite rev_app_distr, !rev_involutive.
  change (("/" ++ join "/" (R0 ++ n :: X))%string)
    with (absolutePathOf (R0 ++ n :: X)).
  rewrite !absolutePathOf_app by discriminate.
  rewrite startsWith_same_prefix.
  destruct (validName_parts _ Hr') as (_ & _ & _ & _ & Hsep).
  assert (startsWith (join "/" (n :: X)) (join "/" [r])
          = startsWith n r) as ->.
  { destruct X as [|x X]; [reflexivity|].
    rewrite join_cons2. now apply startsWith_segment. }
  reflexivity.
Qed.

End SandboxAdmission.

Lemma resolvePath_descend_witness :
  resolvePath "/" (absolutePathOf ["srv"; "app"])
              (join "/" ["app"; "Models"; "User.php"])
  = Ok (absolutePathOf (["srv"; "app"] ++ ["app"; "Models"; "User.php"])).
Proof.
  apply (@resolvePath_descend "/" ["srv"; "app"]
           ["app"; "Models"; "User.php"]);
    repeat constructor.
Defined.

Lemma resolvePath_climb_witness :
  resolvePath "/" (absolutePathOf ["srv"; "app"])
              (join "/" (repeat ".." 3))
  = Err accessDenied.
Proof.
  apply (@resolvePath_climb "/" ["srv"; "app"] 2);
    [repeat constructor|discriminate].
Defined.

Lemma resolvePath_sibling_prefix_witness :
  resolvePath "/" (absolutePathOf (["srv"] ++ ["app"]))
              (join "/" [".."; "app-old"; ".env"])
  = if startsWith "app-old" "app"
    then Ok (absolutePathOf (["srv"] ++ ["app-old"; ".env"]))
    else Err accessDenied.
Proof.
  apply (@resolvePath_sibling_prefix "/" ["srv"] "app" "app-old" [".env"]);
    repeat constructor.
Defined.

(* ================================================================== *)
(** * What the recursive collection returns *)
(* ================================================================== *)

Lemma shouldExclude_prefix (a b : string) :
  shouldExclude (a ++ b) = false -> shouldExclude a = false.
Proof.
  rewrite !shouldExclude_false. intros H fragment Hin.
  specialize (H fragment Hin).
  destruct (includes a fragment) eqn:E; [|reflexivity].
  apply JsStringFacts.includes_spec in E as (x & y & ->).
  assert (includes ((x ++ fragment ++ y) ++ b) fragment = true) as Hi.
  { apply JsStringFacts.includes_spec. exists x, (y ++ b)%string.
    now rewrite !JsStringFacts.append_assoc. }
  congruence.
Qed.

Lemma located_In (entries : list dirent) (X : list string) :
  located entries X <-> exists e, In e entries /\ located [e] X.
Proof.
  split.
  - intros H. destruct H as [entries n Hin|entries n es X Hin HX].
    + exists (File n). split; trivial. constructor. now left.
    + exists (Dir n true es). split; trivial.
      econstructor; [now left|eassumption].
  - intros (e & Hin & H).
    inversion H as [? n He|? n es X' He HX]; subst;
      destruct He as [He|[]]; subst.
    + now constructor.
    + econstructor; eassumption.
Qed.

Lemma located_nonempty (entries : list dirent) (X : list string) :
  located entries X -> X <> [].
Proof.
  intros []; discriminate.
Qed.

Lemma last_cons (n : string) (X : list string) :
  X <> [] -> last (n :: X) = last X.
Proof.
  unfold last. destruct X; [contradiction|reflexivity].
Qed.

(** Without a requested suffix nothing is collected. *)
Lemma walkEntry_no_extension (cwd PROJECT_ROOT : string) (entry : dirent) :
  forall currentDir, walkEntry cwd PROJECT_ROOT [] currentDir entry = [].
Proof.
  induction entry as [n|n r es IH] using dirent_nested_ind;
    intros currentDir; rewrite walkEntry_unfold; cbn zeta.
  - cbn [existsb]. now destruct (_ || _).
  - cbn [direntName].
    destruct (_ || _); [reflexivity|]. destruct r; [|reflexivity].
    induction IH as [|e es He _ IHes]; [reflexivity|].
    cbn [flat_map]. now rewrite He, IHes.
Qed.

Section CollectionProperties.
Import NodePathFacts JsStringFacts SandboxFacts.
Variables cwd : string.
Variable R : list string.
Variable extensions : list string.
Hypothesis HR : validNames R.

Local Abbreviation ROOT := (absolutePathOf R).
Local Abbreviation collect := (walkEntry cwd ROOT extensions).

Lemma relative_root (X : list string) :
  validNames X -> X <> [] ->
  NodePath.relative cwd ROOT (absolutePathOf (R ++ X)) = join "/" X.
Proof.
  intros HX HN. now apply relative_below.
Qed.

(** The walk below one entry returns exactly the files located under
    it that pass the tests on the way. *)
Lemma walkEntry_exact (entry : dirent) :
  forall D p,
    validNames D -> wellFormed entry = true ->
    In p (collect (absolutePathOf (R ++ D)) entry) <->
    exists X,
      p = join "/" (D ++ X) /\ located [entry] X
      /\ Forall (fun s => hidden s = false) X
      /\ shouldExclude p = false
      /\ existsb (fun ext => endsWith (last X) ext) extensions = true.
Proof.
  induction entry as [n|n r es IH] using dirent_nested_ind;
    intros D p HD Hwf; rewrite walkEntry_unfold; cbn zeta;
    cbn [direntName].
  - simpl in Hwf. rewrite andb_true_r in Hwf.
    assert (validNames (D ++ [n])) as HDn
        by (apply Forall_app; split; trivial; now constructor).
    rewrite joinPaths_absolute
      by (trivial; apply Forall_app; now split).
    rewrite <- app_assoc.
    rewrite relative_root by (trivial; now destruct D).
    split.
    + destruct (hidden n) eqn:Hh; [contradiction|]. cbn [orb].
      destruct (shouldExclude _) eqn:Hx; [contradiction|].
      destruct (existsb _ extensions) eqn:Hex; [|contradiction].
      intros [<-|[]]. exists [n].
      split; [reflexivity|]. split; [constructor; now left|].
      split; [now constructor|]. now split.
    + intros (X & -> & Hloc & Hh & Hx & Hex).
      inversion Hloc as [? n' He|? n' es X' He HX]; subst;
        destruct He as [He|[]]; [|discriminate].
      injection He as He. subst n'. inversion Hh; subst.
      replace (hidden n) with false by congruence.
      cbn [orb]. rewrite Hx. unfold last in Hex. cbn [List.last] in Hex.
      rewrite Hex. now left.
  - rewrite wellFormed_Dir in Hwf. apply andb_true_iff in Hwf as [Hn Hes].
    assert (validNames (D ++ [n])) as HDn
        by (apply Forall_app; split; trivial; now constructor).
    rewrite joinPaths_absolute
      by (trivial; apply Forall_app; now split).
    rewrite <- app_assoc.
    rewrite relative_root by (trivial; now destruct D).
    rewrite Forall_forall in IH. rewrite forallb_forall in Hes.
    split.
    + destruct (hidden n) eqn:Hh; [contradiction|]. cbn [orb].
      destruct (shouldExclude _) eqn:Hx; [contradiction|].
      destruct r; [|contradiction].
      intros H. apply in_flat_map in H as (e & He & Hp).
      apply (IH e He (D ++ [n]) p HDn (Hes e He)) in Hp
        as (X & -> & Hloc & HhX & HxX & Hex).
      exists (n :: X). rewrite <- app_assoc.
      split; [reflexivity|]. split.
      { econstructor; [now left|]. apply located_In. eauto. }
      split; [now constructor|].
      split; [now rewrite <- app_assoc in HxX|].
      rewrite last_cons; trivial. eapply located_nonempty; eauto.
    + intros (X & -> & Hloc & Hh & Hx & Hex).
      inversion Hloc as [? n' He|? n' es' X' He HX]; subst;
        destruct He as [He|[]]; [discriminate|].
      injection He as E1 E2 E3. subst n' es' r. inversion Hh; subst.
      pose proof (located_nonempty HX) as HXN.
      replace (hidden n) with false by congruence. cbn [orb].
      assert (shouldExclude (join "/" (D ++ [n])) = false) as ->.
      { replace (D ++ n :: X') with ((D ++ [n]) ++ X') in Hx
          by now rewrite <- app_assoc.
        rewrite join_app in Hx by (trivial; now destruct D).
        now apply shouldExclude_prefix in Hx. }
      apply located_In in HX as (e & He & Hloce).
      apply in_flat_map. exists e. split; trivial.
      apply (IH e He (D ++ [n]) _ HDn (Hes e He)).
      exists X'. rewrite <- app_assoc.
      rewrite last_cons in Hex by assumption. now repeat split.
Qed.

(** X4.  [getFilesRecursively] returns exactly the files that lie
    below the start directory through readable directories, have no
    segment starting with the hidden-file marker, end with a requested
    suffix, and whose path relative to the project root contains no
    fragment of the exclusion list; each is returned as that relative
    path. *)
Theorem getFilesRecursively_exact
    (D : list string) (entries : list dirent) (p : string) :
  validNames D -> forallb wellFormed entries = true ->
  In p (getFilesRecursively cwd ROOT (absolutePathOf (R ++ D)) true
          entries extensions) <->
  exists X,
    p = join "/" (D ++ X) /\ located entries X
    /\ Forall (fun s => hidden s = false) X
    /\ shouldExclude p = false
    /\ existsb (fun ext => endsWith (last X) ext) extensions = true.
Proof.
  intros HD Hwf. unfold getFilesRecursively, walk.
  rewrite forallb_forall in Hwf. rewrite in_flat_map. split.
  - intros (e & He & Hp).
    apply (@walkEntry_exact e D p HD (Hwf e He)) in Hp
      as (X & -> & Hloc & H).
    exists X. repeat split; try apply H. apply located_In. eauto.
  - intros (X & -> & Hloc & H). apply located_In in Hloc as (e & He & Hl).
    exists e. split; trivial.
    apply (@walkEntry_exact e D _ HD (Hwf e He)). exists X. tauto.
Qed.

(** X5.  Every path the collection returns is one the sandbox admits,
    and the sandbox resolves it to [path.join(PROJECT_ROOT, p)], the
    file the search handlers read for it. *)
Theorem collected_paths_admitted
    (D : list string) (readable : bool) (entries : list dirent)
    (p : string) :
  validNames D -> forallb wellFormed entries = true ->
  In p (getFilesRecursively cwd ROOT (absolutePathOf (R ++ D)) readable
          entries extensions) ->
  resolvePath cwd ROOT p = Ok (NodePath.joinPaths [ROOT; p])
  /\ startsWith (NodePath.joinPaths [ROOT; p]) ROOT = true.
Proof.
  intros HD Hwf. unfold getFilesRecursively, walk.
  destruct readable; [|contradiction].
  rewrite forallb_forall in Hwf. rewrite in_flat_map.
  intros (e & He & Hp).
  apply (@walkEntry_paths cwd ROOT extensions R e HR eq_refl D p HD
           (Hwf e He)) in Hp as (X & -> & HXN & HX & _).
  assert (validNames (D ++ X)) as HDX by now apply Forall_app.
  rewrite joinPaths_descend; trivial; [|now destruct D].
  rewrite resolvePath_cases, resolve_descend by assumption.
  now rewrite startsWith_below.
Qed.

End CollectionProperties.

Lemma getFilesRecursively_exact_witness :
  In "app/Models/User.php"
     (getFilesRecursively "/" (absolutePathOf ["srv"; "app"])
        (absolutePathOf (["srv"; "app"] ++ ["app"])) true
        [Dir "Models" true [File "User.php"; File ".keep"]] [".php"]) <->
  exists X,
    "app/Models/User.php" = join "/" (["app"] ++ X)
    /\ located [Dir "Models" true [File "User.php"; File ".keep"]] X
    /\ Forall (fun s => hidden s = false) X
    /\ shouldExclude "app/Models/User.php" = false
    /\ existsb (fun ext => endsWith (last X) ext) [".php"] = true.
Proof.
  apply (@getFilesRecursively_exact "/" ["srv"; "app"] [".php"]);
    repeat constructor.
Defined.

Lemma collected_paths_admitted_witness :
  resolvePath "/" (absolutePathOf ["srv"; "app"]) "app/Models/User.php"
  = Ok (NodePath.joinPaths
          [absolutePathOf ["srv"; "app"]; "app/Models/User.php"])
  /\ startsWith
       (NodePath.joinPaths
          [absolutePathOf ["srv"; "app"]; "app/Models/User.php"])
       (absolutePathOf ["srv"; "app"]) = true.
Proof.
  apply (@collected_paths_admitted "/" ["srv"; "app"] [".php"]
           ltac:(repeat constructor) ["app"] true
           [Dir "Models" true [File "User.php"; File ".keep"]]);
    [repeat constructor|reflexivity|].
  vm_compute. now left.
Defined.

(* ================================================================== *)
(** * The order of a listing *)
(* ================================================================== *)

Section DirectoriesFirst.
Variable A : Type.
Variable localeCompare : string -> string -> comparison.
Variable isDir : A -> bool.
Variable name : A -> string.

Local Abbreviation cmp :=
  (fun a b => compareEntries localeCompare (isDir a) (name a)
                                           (isDir b) (name b)).
Local Abbreviation files := (fun a => negb (isDir a)).

Lemma insertSorted_among_files (x : A) (F : list A) :
  isDir x = false -> Forall (fun a => isDir a = false) F ->
  insertSorted cmp x F = insertSorted (byName localeCompare name) x F.
Proof.
  intros Hx HF. induction HF as [|f F Hf HF IH]; [reflexivity|].
  cbn [insertSorted]. unfold compareEntries at 1, byName at 1.
  rewrite Hx, Hf. cbn [Bool.eqb negb]. now rewrite IH.
Qed.

Lemma insertSorted_file (x : A) (D F : list A) :
  isDir x = false -> Forall (fun a => isDir a = true) D ->
  Forall (fun a => isDir a = false) F ->
  insertSorted cmp x (D ++ F)
  = D ++ insertSorted (byName localeCompare name) x F.
Proof.
  intros Hx HD HF. induction HD as [|d D Hd HD IH].
  - now apply insertSorted_among_files.
  - cbn [app insertSorted]. unfold compareEntries at 1.
    rewrite Hx, Hd. cbn [Bool.eqb negb]. now rewrite IH.
Qed.

Lemma insertSorted_directory (x : A) (D F : list A) :
  isDir x = true -> Forall (fun a => isDir a = true) D ->
  Forall (fun a => isDir a = false) F ->
  insertSorted cmp x (D ++ F)
  = insertSorted (byName localeCompare name) x D ++ F.
Proof.
  intros Hx HD HF. induction HD as [|d D Hd HD IH].
  - destruct HF as [|f F Hf HF]; [reflexivity|].
    cbn [app insertSorted]. unfold compareEntries.
    now rewrite Hx, Hf.
  - cbn [app insertSorted]. unfold compareEntries at 1, byName at 1.
    rewrite Hx, Hd. cbn [Bool.eqb negb]. rewrite IH.
    now destruct (localeCompare (name x) (name d)).
Qed.

Lemma insertSorted_Forall (P : A -> Prop) (c : A -> A -> comparison)
                          (x : A) (l : list A) :
  P x -> Forall P l -> Forall P (insertSorted c x l).
Proof.
  intros Hx Hl. induction Hl as [|y l Hy Hl IH]; cbn [insertSorted].
  - now constructor.
  - destruct (c x y); repeat constructor; trivial.
Qed.

Lemma sortBy_Forall (P : A -> Prop) (c : A -> A -> comparison)
                    (l : list A) :
  Forall P l -> Forall P (sortBy c l).
Proof.
  intros Hl. induction Hl as [|y l Hy Hl IH]; cbn [sortBy].
  - constructor.
  - now apply insertSorted_Forall.
Qed.

Lemma filter_Forall (f : A -> bool) (l : list A) :
  Forall (fun a => f a = true) (filter f l).
Proof.
  apply Forall_forall. intros a H. now apply filter_In in H.
Qed.

(** A sort with the comparator of the listings puts the directories,
    sorted by name, in front of the files, sorted by name. *)
Lemma sortBy_directories_first (l : list A) :
  sortBy cmp l
  = sortBy (byName localeCompare name) (filter isDir l)
    ++ sortBy (byName localeCompare name) (filter files l).
Proof.
  induction l as [|x l IH]; [reflexivity|].
  cbn [sortBy filter]. rewrite IH.
  assert (Forall (fun a => isDir a = true)
            (sortBy (byName localeCompare name) (filter isDir l))) as HD
      by apply sortBy_Forall, filter_Forall.
  assert (Forall (fun a => isDir a = false)
            (sortBy (byName localeCompare name) (filter files l))) as HF.
  { apply sortBy_Forall. apply Forall_forall. intros a H.
    apply filter_In in H as [_ H]. now apply negb_true_iff in H. }
  destruct (isDir x) eqn:Hx; cbn [negb sortBy].
  - now apply insertSorted_directory.
  - now apply insertSorted_file.
Qed.

End DirectoriesFirst.

Section TreeProperties.
Variable localeCompare : string -> string -> comparison.

(** X6.  The entries of a level of the tree are the shown directories
    in the order of their names, followed by the shown files in the
    order of their names; a directory is never printed after a file
    of the same level, whatever order [localeCompare] gives the
    names. *)
Theorem treeEntries_directories_first (entries : list dirent) :
  treeEntries localeCompare entries
  = sortBy (byName localeCompare direntName)
      (filter isDirectory (shownEntries entries))
    ++ sortBy (byName localeCompare direntName)
         (filter (fun e => negb (isDirectory e)) (shownEntries entries)).
Proof.
  unfold treeEntries. fold (shownEntries entries).
  apply (sortBy_directories_first localeCompare isDirectory direntName).
Qed.

Lemma lineEntries_entries
    (descend : bool -> list dirent -> string -> list (string * dirent))
    (shownBelow : bool -> list dirent -> list dirent) :
  (forall r es prefix,
      Permutation (map snd (descend r es prefix)) (shownBelow r es)) ->
  forall prefix l,
    Permutation
      (map snd (lineEntries descend prefix l))
      (flat_map (fun e => e :: match e with
                               | Dir _ r es => shownBelow r es
                               | File _ => []
                               end) l).
Proof.
  intros H prefix l. induction l as [|e l IH]; [constructor|].
  cbn [lineEntries flat_map map]. rewrite map_app. cbn [snd app].
  constructor. apply Permutation_app; [|exact IH].
  destruct e as [n|n r es]; [constructor|apply H].
Qed.

Lemma treeLines_entries (remaining : nat) :
  forall readable entries prefix,
    Permutation
      (map snd (treeLines localeCompare remaining readable entries prefix))
      (shownWithin remaining readable entries).
Proof.
  induction remaining as [|remaining IH]; intros readable entries prefix;
    [constructor|].
  cbn [treeLines shownWithin]. destruct readable; [|constructor].
  etransitivity; [apply lineEntries_entries, IH|].
  apply Permutation_flat_map. unfold treeEntries. apply sortBy_perm.
Qed.

(** X7.  [buildTree] prints one line for every entry that is shown
    together with all the directories above it, lies below readable
    directories and within the depth limit, and no other line. *)
Theorem buildTree_lists_shown
    (readable : bool) (entries : list dirent) (prefix : string)
    (depth maxDepth : nat) :
  exists lines,
    buildTree localeCompare readable entries prefix depth maxDepth
    = String.concat "" (map renderLine lines)
    /\ Permutation (map snd lines)
         (shownWithin (maxDepth - depth) readable entries).
Proof.
  exists (treeLines localeCompare (maxDepth - depth) readable entries
            prefix).
  split.
  - unfold buildTree. apply buildTreeFrom_lines.
  - apply treeLines_entries.
Qed.

End TreeProperties.

(* ================================================================== *)
(** * The listing handlers *)
(* ================================================================== *)

Section PromiseFacts.
Variables A B : Type.
Variable f : A -> result B.





End PromiseFacts.

Section ListingProperties.
Import NodePathFacts JsStringFacts SandboxFacts.
Variable cwd : string.
Variable PROJECT_ROOT : string.
Variable localeCompare : string -> string -> comparison.
Variable readdir : string -> result (list dirent).
Variable stat : string -> result N.
Variable settled : list dirent -> list dirent.

(** X8.  A directory that cannot be read is an error for a one-level
    listing, which fails with the error of [readdir], but the
    recursive search below it reports no file and no error. *)
Theorem list_files_unreadable
    (directory dirPath pattern error : string) :
  truthy directory = true -> truthy pattern = true ->
  resolvePath cwd PROJECT_ROOT directory = Ok dirPath ->
  readdir dirPath = Err error ->
  list_files cwd PROJECT_ROOT localeCompare readdir stat settled
    (Some directory) true (Some pattern)
  = Ok (FoundFiles directory pattern [] 0)
  /\ list_files cwd PROJECT_ROOT localeCompare readdir stat settled
       (Some directory) false (Some pattern)
     = Err error
  /\ list_files cwd PROJECT_ROOT localeCompare readdir stat settled
       (Some directory) true None
     = Err error.
Proof.
  intros Hd Hp Hr Hn. unfold list_files, directoryOrDot.
  rewrite Hd, Hr. cbn [truthyOpt]. rewrite Hp, Hn. repeat split.
Qed.



(** X10.  The items of the one-level listing are the directories in
    the order of their names followed by the files in the order of
    their names. *)
Theorem list_files_directories_first
    (directory : option string) (recursive : bool)
    (pattern : option string) (d : string) (items : list listedItem)
    (count : nat) :
  list_files cwd PROJECT_ROOT localeCompare readdir stat settled
    directory recursive pattern
  = Ok (ListedItems d items count) ->
  exists unsorted,
    Permutation items unsorted
    /\ items
       = sortBy (byName localeCompare liName)
           (filter (fun it => match liType it with
                              | TDirectory => true
                              | TFile => false
                              end) unsorted)
         ++ sortBy (byName localeCompare liName)
              (filter (fun it => match liType it with
                                 | TDirectory => false
                                 | TFile => true
                                 end) unsorted).
Proof.
  unfold list_files.
  destruct (resolvePath _ _ _) as [dirPath|]; [|discriminate].
  destruct (_ && _); [discriminate|].
  destruct (readdir dirPath) as [entries|]; [|discriminate].
  destruct (promiseAll _ _ _) as [unsorted|]; [|discriminate].
  intros H. injection H as _ <- _.
  exists unsorted. split; [apply sortBy_perm|].
  unfold compareListed.
  rewrite (sortBy_directories_first localeCompare
             (fun it => match liType it with
                        | TDirectory => true
                        | TFile => false
                        end) liName).
  f_equal. f_equal. apply filter_ext. intros it.
  now destruct (liType it).
Qed.

End ListingProperties.

Lemma split_valid (S : list string) :
  validNames S -> S <> [] -> split NodePath.sep (join "/" S) = S.
Proof.
  intros HS HN. induction HS as [|s S Hs HS IH]; [contradiction|].
  destruct (NodePathFacts.validName_parts _ Hs) as (_ & _ & _ & _ & Hsep).
  destruct S as [|s' S'].
  - now apply NodePathFacts.split_sepfree.
  - rewrite NodePathFacts.join_cons2.
    rewrite NodePathFacts.split_sepfree_app by assumption.
    now rewrite IH.
Qed.

Lemma filter_truthy_valid (S : list string) :
  validNames S -> filter truthy S = S.
Proof.
  intros HS. induction HS as [|s S Hs HS IH]; [reflexivity|].
  destruct (NodePathFacts.validName_parts _ Hs) as (Hn & _).
  cbn [filter]. destruct s; [contradiction|]. cbn [truthy]. now rewrite IH.
Qed.

(** The base name of an absolute path of ordinary names is its last
    name. *)
Lemma basename_absolute (S : list string) (r : string) :
  validNames (S ++ [r]) -> basename (absolutePathOf (S ++ [r])) = r.
Proof.
  intros HS. unfold basename, absolutePathOf.
  change (("/" ++ join "/" (S ++ [r]))%string)
    with (String NodePath.sep (join "/" (S ++ [r]))).
  cbn [split]. rewrite Ascii.eqb_refl.
  rewrite split_valid by (trivial; now destruct S).
  cbn [filter truthy]. rewrite filter_truthy_valid by assumption.
  unfold last. apply last_last.
Qed.

(** X11.  [get_project_structure] prints the name of the root directory
    and below it one line for every entry shown within the depth
    limit; a limit that is missing or zero stands for three levels. *)
Theorem get_project_structure_text
    (localeCompare : string -> string -> comparison)
    (R0 : list string) (r : string) (readable : bool)
    (entries : list dirent) (max_depth : option nat) :
  validNames (R0 ++ [r]) ->
  exists lines,
    get_project_structure (absolutePathOf (R0 ++ [r])) localeCompare
      readable entries max_depth
    = (r ++ "/" ++ newline ++ String.concat "" (map renderLine lines))%string
    /\ Permutation (map snd lines)
         (shownWithin (match max_depth with
                       | Some (S d) => S d
                       | _ => 3
                       end) readable entries).
Proof.
  intros HR. unfold get_project_structure.
  rewrite basename_absolute by assumption.
  set (maxDepth := match max_depth with Some (S d) => S d | _ => 3 end).
  exists (treeLines localeCompare maxDepth readable entries "").
  split.
  - unfold buildTree. rewrite Nat.sub_0_r.
    now rewrite buildTreeFrom_lines.
  - apply treeLines_entries.
Qed.

(* ================================================================== *)
(** * Sizes *)
(* ================================================================== *)

Section SizeProperties.
Open Scope N_scope.

Lemma toFixed_nearest (num den : N) :
  0 < den ->
  let n := (2 * num * 10 + den) / (2 * den) in
  2 * den * n <= 20 * num + den < 2 * den * (n + 1).
Proof.
  intros Hd n.
  pose proof (N.div_mod (2 * num * 10 + den) (2 * den)) as E.
  pose proof (N.mod_lt (2 * num * 10 + den) (2 * den)) as L.
  assert (2 * den <> 0) as Hz by lia. specialize (L Hz).
  fold n in E. rewrite N.mul_add_distr_l.
  set (m := (2 * num * 10 + den) mod (2 * den)) in *.
  set (q := 2 * den * n) in *. lia.
Qed.

Lemma formatSizeLoop_cases (bytes : N) :
  formatSizeLoop 3 bytes 1 0
  = if 1024 <=? bytes
    then if 1048576 <=? bytes
         then if 1073741824 <=? bytes then (1073741824, 3%nat)
              else (1048576, 2%nat)
         else (1024, 1%nat)
    else (1, 0%nat).
Proof.
  cbn [formatSizeLoop].
  change (1024 * 1) with 1024. change (1 * 1024) with 1024.
  change (1024 * 1024) with 1048576.
  change (1024 * 1048576) with 1073741824.
  change (1048576 * 1024) with 1073741824.
  change (0 <? List.length sizeUnits - 1)%nat with true.
  change (1 <? List.length sizeUnits - 1)%nat with true.
  change (2 <? List.length sizeUnits - 1)%nat with true.
  rewrite !andb_true_r. reflexivity.
Qed.

(** X12.  [formatSize] picks the largest unit, up to GB, in which the
    size is at least one, prints bytes as they are and the other
    units with one decimal, rounded to the nearest tenth and upwards
    from the middle.  Sizes of 1024 GB and more stay in GB, and a
    size just below the next unit may print as 1024.0 of the unit
    chosen. *)
Theorem formatSize_units (bytes : N) :
  bytes < 2 ^ 53 ->
  exists (k : nat) (n : N),
    (k <= 3)%nat
    /\ (k = 0%nat \/ 1024 ^ N.of_nat k <= bytes)
    /\ (k = 3%nat \/ bytes < 1024 ^ (N.of_nat k + 1))
    /\ 2 * 1024 ^ N.of_nat k * n <= 20 * bytes + 1024 ^ N.of_nat k
       < 2 * 1024 ^ N.of_nat k * (n + 1)
    /\ formatSize bytes
       = ((if (k =? 0)%nat then showN bytes
           else showN (n / 10) ++ "." ++ showN (n mod 10))
          ++ " " ++ nth k sizeUnits "")%string.
Proof.
  intros _. unfold formatSize. rewrite formatSizeLoop_cases.
  destruct (1024 <=? bytes) eqn:H1;
    [destruct (1048576 <=? bytes) eqn:H2;
     [destruct (1073741824 <=? bytes) eqn:H3|]|];
    rewrite ?N.leb_le, ?N.leb_gt in *.
  - exists 3%nat, ((2 * bytes * 10 + 1073741824) / (2 * 1073741824)).
    change (1024 ^ N.of_nat 3) with 1073741824.
    repeat split; try (now right); try (now left); try lia;
      apply (@toFixed_nearest bytes 1073741824); lia.
  - exists 2%nat, ((2 * bytes * 10 + 1048576) / (2 * 1048576)).
    change (1024 ^ N.of_nat 2) with 1048576.
    change (1024 ^ (N.of_nat 2 + 1)) with 1073741824.
    repeat split; try (now right); try lia;
      apply (@toFixed_nearest bytes 1048576); lia.
  - exists 1%nat, ((2 * bytes * 10 + 1024) / (2 * 1024)).
    change (1024 ^ N.of_nat 1) with 1024.
    change (1024 ^ (N.of_nat 1 + 1)) with 1048576.
    repeat split; try (now right); try lia;
      apply (@toFixed_nearest bytes 1024); lia.
  - exists 0%nat, ((2 * bytes * 10 + 1) / (2 * 1)).
    change (1024 ^ N.of_nat 0) with 1.
    change (1024 ^ (N.of_nat 0 + 1)) with 1024.
    repeat split; try (now left); try (now right); try lia;
      try (apply (@toFixed_nearest bytes 1); lia).
    unfold toFixed. cbn [Nat.ltb Nat.leb Nat.eqb].
    replace ((2 * bytes * 1 + 1) / (2 * 1)) with bytes; [reflexivity|].
    apply N.div_unique with (r := 1); lia.
Qed.

End SizeProperties.

Lemma formatSize_units_witness :
  exists (k : nat) (n : N),
    (k <= 3)%nat
    /\ (k = 0%nat \/ (1024 ^ N.of_nat k <= 1048575)%N)
    /\ (k = 3%nat \/ (1048575 < 1024 ^ (N.of_nat k + 1))%N)
    /\ (2 * 1024 ^ N.of_nat k * n <= 20 * 1048575 + 1024 ^ N.of_nat k
        < 2 * 1024 ^ N.of_nat k * (n + 1))%N
    /\ formatSize 1048575
       = ((if (k =? 0)%nat then showN 1048575
           else showN (n / 10) ++ "." ++ showN (n mod 10))
          ++ " " ++ nth k sizeUnits "")%string.
Proof.
  apply (@formatSize_units 1048575). reflexivity.
Defined.

Lemma list_files_unreadable_witness :
  list_files "/" "/srv/app" byCodeUnits sampleReaddir sampleStat
    (@rev dirent) (Some "app") true (Some ".php")
  = Ok (FoundFiles "app" ".php" [] 0)
  /\ list_files "/" "/srv/app" byCodeUnits sampleReaddir sampleStat
       (@rev dirent) (Some "app") false (Some ".php")
     = Err (message (systemError ENOENT "scandir" "/srv/app/app"))
  /\ list_files "/" "/srv/app" byCodeUnits sampleReaddir sampleStat
       (@rev dirent) (Some "app") true None
     = Err (message (systemError ENOENT "scandir" "/srv/app/app")).
Proof.
  apply (@list_files_unreadable "/" "/srv/app" byCodeUnits sampleReaddir
           sampleStat (@rev dirent) "app" "/srv/app/app" ".php"
           (message (systemError ENOENT "scandir" "/srv/app/app")));
    reflexivity.
Defined.


Lemma list_files_directories_first_witness :
  exists unsorted,
    Permutation sampleItems unsorted
    /\ sampleItems
       = sortBy (byName byCodeUnits liName)
           (filter (fun it => match liType it with
                              | TDirectory => true
                              | TFile => false
                              end) unsorted)
         ++ sortBy (byName byCodeUnits liName)
              (filter (fun it => match liType it with
                                 | TDirectory => false
                                 | TFile => true
                                 end) unsorted).
Proof.
  apply (@list_files_directories_first "/" "/srv/app" byCodeUnits
           sampleReaddir sampleStat (@rev dirent) None false None "."
           sampleItems 4).
  reflexivity.
Defined.

Lemma get_project_structure_text_witness :
  exists lines,
    get_project_structure (absolutePathOf (["srv"] ++ ["app"])) byCodeUnits
      true sampleProject None
    = ("app" ++ "/" ++ newline
       ++ String.concat "" (map renderLine lines))%string
    /\ Permutation (map snd lines) (shownWithin 3 true sampleProject).
Proof.
  apply (@get_project_structure_text byCodeUnits ["srv"] "app" true
           sampleProject None).
  repeat constructor.
Defined.

(* ================================================================== *)
(** * Reading files *)
(* ================================================================== *)

Lemma resolvePath_inside (cwd PROJECT_ROOT p a : string) :
  resolvePath cwd PROJECT_ROOT p = Ok a -> startsWith a PROJECT_ROOT = true.
Proof.
  rewrite resolvePath_cases.
  destruct (startsWith _ PROJECT_ROOT) eqn:E; [|discriminate].
  intros H. injection H as <-. exact E.
Qed.

Section SelectionProperties.
Open Scope Z_scope.

Lemma slice_nth (A : Type) (l : list A) (start stop : Z) (i : nat)
                (x : A) :
  0 <= start ->
  nth_error (slice l start stop) i = Some x ->
  nth_error l (Z.to_nat start + i) = Some x.
Proof.
  intros Hs. unfold slice.
  replace (start <? 0) with false by (symmetry; apply Z.ltb_ge; lia).
  intros H.
  assert (nth_error
            (skipn (Z.to_nat (Z.min start (Z.of_nat (List.length l)))) l)
            i = Some x) as Hk.
  { revert H. generalize (skipn (Z.to_nat (Z.min start
                                    (Z.of_nat (List.length l)))) l).
    generalize (Z.to_nat
                  ((if stop <? 0
                    then Z.max (Z.of_nat (List.length l) + stop) 0
                    else Z.min stop (Z.of_nat (List.length l)))
                   - Z.min start (Z.of_nat (List.length l)))).
    intros c l'. revert c l'.
    induction i as [|i IH]; intros [|c] [|y l']; simpl;
      try discriminate; trivial.
    apply IH. }
  rewrite nth_error_skipn in Hk.
  destruct (Z.le_gt_cases start (Z.of_nat (List.length l))) as [Hle|Hgt].
  - now rewrite Z.min_l in Hk by assumption.
  - rewrite Z.min_r in Hk by lia. rewrite Nat2Z.id in Hk.
    assert (nth_error l (List.length l + i) = None) as Hn
        by (apply nth_error_None; lia).
    congruence.
Qed.

Lemma slice_all (A : Type) (l : list A) :
  slice l 0 (Z.of_nat (List.length l)) = l.
Proof.
  unfold slice.
  replace (0 <? 0) with false by reflexivity.
  replace (Z.of_nat (List.length l) <? 0) with false
    by (symmetry; apply Z.ltb_ge; lia).
  rewrite Z.min_id, Z.min_l by lia. rewrite Z.sub_0_r, Nat2Z.id.
  cbn [Z.to_nat skipn]. apply firstn_all.
Qed.

(** Every selected line is the line of the file at its place in the
    selection, counted from the first line number. *)
Lemma selectLines_lines (lines : list string)
                        (start_line end_line : option Z) :
  let '(selected, startLine, _) :=
    selectLines lines start_line end_line in
  1 <= startLine
  /\ forall i line,
      nth_error selected i = Some line ->
      nth_error lines (Z.to_nat (startLine - 1) + i) = Some line.
Proof.
  unfold selectLines. destruct start_line as [start|].
  - split; [lia|]. intros i line. apply slice_nth. lia.
  - split; [lia|]. intros i line H. exact H.
Qed.

Lemma numberLines_nth (startLine : Z) (selected : list string) :
  forall index i out,
    nth_error (numberLines startLine index selected) i = Some out ->
    exists line,
      nth_error selected i = Some line
      /\ out = (padStart 4 (showZ (startLine + Z.of_nat (index + i)))
                ++ " | " ++ line)%string.
Proof.
  induction selected as [|l selected IH]; intros index i out;
    [destruct i; discriminate|].
  destruct i as [|i]; cbn [numberLines nth_error].
  - intros H. injection H as <-. exists l. now rewrite Nat.add_0_r.
  - intros H. apply IH in H as (line & Hl & ->). exists line.
    split; trivial. now rewrite Nat.add_succ_r.
Qed.

Lemma length_numberLines (startLine : Z) (selected : list string) :
  forall index,
    List.length (numberLines startLine index selected)
    = List.length selected.
Proof.
  induction selected as [|l selected IH]; intros index; [reflexivity|].
  cbn [numberLines List.length]. now rewrite IH.
Qed.

Lemma selectLines_defaults (lines : list string) (s e : Z)
                           (end_line : option Z) :
  selectLines lines (Some s) (Some 0) = selectLines lines (Some s) None
  /\ selectLines lines (Some s) (Some (-1))
     = selectLines lines (Some s) None
  /\ (Z.of_nat (List.length lines) <= e -> lines <> [] ->
      selectLines lines (Some s) (Some e)
      = selectLines lines (Some s) None)
  /\ (s <= 1 ->
      selectLines lines (Some s) end_line
      = selectLines lines (Some 1) end_line)
  /\ selectLines lines None end_line = selectLines lines (Some 1) None.
Proof.
  unfold selectLines. repeat split.
  - cbn [Z.eqb]. now rewrite Z.min_id.
  - intros He Hne.
    assert (0 < Z.of_nat (List.length lines))
      by (destruct lines; [contradiction|simpl; lia]).
    replace (e =? -1) with false by (symmetry; apply Z.eqb_neq; lia).
    replace (e =? 0) with false by (symmetry; apply Z.eqb_neq; lia).
    now rewrite Z.min_id, Z.min_l by lia.
  - intros Hs. now rewrite (Z.max_l 1 s) by lia.
  - cbn [Z.max Z.compare Pos.compare Pos.compare_cont Z.sub Z.add Z.opp
           Z.pos_sub]. rewrite Z.min_id. now rewrite slice_all.
Qed.

(** A last line given from the end of the file. *)
Lemma selectLines_from_end (lines : list string) (s e : Z) :
  e < -1 -> 0 < Z.of_nat (List.length lines) + e ->
  selectLines lines (Some s) (Some e)
  = (fst (fst (selectLines lines (Some s)
                 (Some (Z.of_nat (List.length lines) + e)))),
     Z.max 1 s, e).
Proof.
  intros He Hp. unfold selectLines. cbn [fst].
  replace (e =? -1) with false by (symmetry; apply Z.eqb_neq; lia).
  replace (e =? 0) with false by (symmetry; apply Z.eqb_neq; lia).
  replace (Z.of_nat (List.length lines) + e =? -1) with false
    by (symmetry; apply Z.eqb_neq; lia).
  replace (Z.of_nat (List.length lines) + e =? 0) with false
    by (symmetry; apply Z.eqb_neq; lia).
  rewrite !Z.min_r by lia. unfold slice.
  replace (e <? 0) with true by (symmetry; apply Z.ltb_lt; lia).
  replace (Z.of_nat (List.length lines) + e <? 0) with false
    by (symmetry; apply Z.ltb_ge; lia).
  rewrite Z.max_l by lia. rewrite (Z.min_l (_ + e)) by lia.
  reflexivity.
Qed.

End SelectionProperties.

Section ReadProperties.
Variables cwd PROJECT_ROOT : string.
Variable fs : fileSystem.

Lemma readFile_file (p content : string) :
  files fs p = Some content -> Fs.readFile fs p = Done content.
Proof.
  intros H. unfold Fs.readFile. now rewrite H.
Qed.

(** X13.  Whatever range is asked for, every line [read_file] prints
    carries its true number: the text after the number is the line of
    the file with that number, and the numbers go up one by one from
    the first line asked for, or from 1. *)
Theorem read_file_numbering
    (path filePath content : string) (start_line end_line : option Z) :
  resolvePath cwd PROJECT_ROOT path = Ok filePath ->
  files fs filePath = Some content ->
  exists (first last : Z) (numbered : list string),
    read_file cwd PROJECT_ROOT fs path start_line end_line
    = Ok (readHeader path first last
            (List.length (split LF content))
          ++ newline ++ join newline numbered)%string
    /\ first = match start_line with
               | Some s => Z.max 1 s
               | None => 1%Z
               end
    /\ forall i out,
        nth_error numbered i = Some out ->
        exists line,
          nth_error (split LF content) (Z.to_nat (first - 1) + i)
          = Some line
          /\ out = (padStart 4 (showZ (first + Z.of_nat i))
                    ++ " | " ++ line)%string.
Proof.
  intros Hr Hc. unfold read_file. rewrite Hr, (readFile_file _ Hc).
  pose proof (selectLines_lines (split LF content) start_line end_line)
    as Hsel.
  assert (snd (fst (selectLines (split LF content) start_line end_line))
          = match start_line with
            | Some s => Z.max 1 s
            | None => 1%Z
            end) as Hfirst by (now destruct start_line).
  destruct (selectLines (split LF content) start_line end_line)
    as [[selected startLine] endLine].
  cbn [fst snd] in Hfirst. destruct Hsel as [_ Hsel].
  exists startLine, endLine, (numberLines startLine 0 selected).
  split; [reflexivity|]. split; [exact Hfirst|].
  intros i out H. apply numberLines_nth in H as (line & Hl & ->).
  exists line. split; [now apply Hsel|reflexivity].
Qed.

Lemma read_file_select (path : string) (s1 e1 s2 e2 : option Z) :
  (forall lines, lines <> [] ->
                 selectLines lines s1 e1 = selectLines lines s2 e2) ->
  read_file cwd PROJECT_ROOT fs path s1 e1
  = read_file cwd PROJECT_ROOT fs path s2 e2.
Proof.
  intros H. unfold read_file.
  destruct (resolvePath _ _ _) as [filePath|]; [|reflexivity].
  destruct (Fs.readFile fs filePath) as [content|]; [|reflexivity].
  now rewrite H by apply JsStringFacts.split_not_nil.
Qed.

(** X14.  The range of [read_file] at its edges: a last line that is
    missing, 0, -1, or at or beyond the end of the file stands for
    the end of the file; a first line below 1 stands for 1; a last
    line without a first line is ignored, and the whole file is the
    range from line 1. *)
Theorem read_file_defaults (path : string) (s : Z)
                           (end_line : option Z) :
  read_file cwd PROJECT_ROOT fs path (Some s) (Some 0%Z)
  = read_file cwd PROJECT_ROOT fs path (Some s) None
  /\ read_file cwd PROJECT_ROOT fs path (Some s) (Some (-1)%Z)
     = read_file cwd PROJECT_ROOT fs path (Some s) None
  /\ (forall filePath content e,
         resolvePath cwd PROJECT_ROOT path = Ok filePath ->
         files fs filePath = Some content ->
         (Z.of_nat (List.length (split LF content)) <= e)%Z ->
         read_file cwd PROJECT_ROOT fs path (Some s) (Some e)
         = read_file cwd PROJECT_ROOT fs path (Some s) None)
  /\ read_file cwd PROJECT_ROOT fs path (Some (Z.min s 1)) end_line
     = read_file cwd PROJECT_ROOT fs path (Some 1%Z) end_line
  /\ read_file cwd PROJECT_ROOT fs path None end_line
     = read_file cwd PROJECT_ROOT fs path (Some 1%Z) None.
Proof.
  split; [|split; [|split; [|split]]].
  - apply read_file_select. intros lines _.
    now destruct (selectLines_defaults lines s 0 end_line) as (H & _).
  - apply read_file_select. intros lines _.
    now destruct (selectLines_defaults lines s 0 end_line)
      as (_ & H & _).
  - intros filePath content e Hr Hc He. unfold read_file.
    rewrite Hr, (readFile_file _ Hc).
    destruct (selectLines_defaults (split LF content) s e None)
      as (_ & _ & H & _).
    now rewrite H by (trivial; apply JsStringFacts.split_not_nil).
  - apply read_file_select. intros lines _.
    destruct (selectLines_defaults lines (Z.min s 1) 0 end_line)
      as (_ & _ & _ & H & _).
    apply H. lia.
  - apply read_file_select. intros lines _.
    now destruct (selectLines_defaults lines s 0 end_line)
      as (_ & _ & _ & _ & H).
Qed.

(** X15.  A negative last line other than -1 counts back from the end
    of the file: the lines printed are those of the range that ends
    that many lines before the end, while the header repeats the
    negative number. *)
Theorem read_file_from_end
    (path filePath content : string) (s e : Z) :
  resolvePath cwd PROJECT_ROOT path = Ok filePath ->
  files fs filePath = Some content ->
  (e < -1)%Z ->
  (0 < Z.of_nat (List.length (split LF content)) + e)%Z ->
  exists numbered,
    read_file cwd PROJECT_ROOT fs path (Some s)
      (Some (Z.of_nat (List.length (split LF content)) + e)%Z)
    = Ok (readHeader path (Z.max 1 s)
            (Z.of_nat (List.length (split LF content)) + e)
            (List.length (split LF content))
          ++ newline ++ join newline numbered)%string
    /\ read_file cwd PROJECT_ROOT fs path (Some s) (Some e)
       = Ok (readHeader path (Z.max 1 s) e
               (List.length (split LF content))
             ++ newline ++ join newline numbered)%string.
Proof.
  intros Hr Hc He Hp. unfold read_file.
  rewrite Hr, (readFile_file _ Hc).
  rewrite (selectLines_from_end (split LF content) s He Hp).
  set (total := List.length (split LF content)) in *.
  assert (snd (fst (selectLines (split LF content) (Some s)
                      (Some (Z.of_nat total + e)%Z))) = Z.max 1 s
          /\ snd (selectLines (split LF content) (Some s)
                    (Some (Z.of_nat total + e)%Z))
             = (Z.of_nat total + e)%Z) as [H1 H2].
  { unfold selectLines. cbn [fst snd]. split; [reflexivity|].
    replace (Z.of_nat total + e =? -1)%Z with false
      by (symmetry; apply Z.eqb_neq; lia).
    replace (Z.of_nat total + e =? 0)%Z with false
      by (symmetry; apply Z.eqb_neq; lia).
    fold total. lia. }
  destruct (selectLines (split LF content) (Some s)
              (Some (Z.of_nat total + e)%Z))
    as [[selected startLine] endLine].
  cbn [fst snd] in *. subst startLine endLine.
  exists (numberLines (Z.max 1 s) 0 selected). now split.
Qed.

End ReadProperties.

Lemma read_file_numbering_witness :
  exists (first last : Z) (numbered : list string),
    read_file "/" "/srv/app" sampleSystem "notes.txt" (Some 0%Z) (Some 3%Z)
    = Ok (readHeader "notes.txt" first last
            (List.length (split LF sampleNotes))
          ++ newline ++ join newline numbered)%string
    /\ first = Z.max 1 0
    /\ forall i out,
        nth_error numbered i = Some out ->
        exists line,
          nth_error (split LF sampleNotes) (Z.to_nat (first - 1) + i)
          = Some line
          /\ out = (padStart 4 (showZ (first + Z.of_nat i))
                    ++ " | " ++ line)%string.
Proof.
  apply (@read_file_numbering "/" "/srv/app" sampleSystem "notes.txt"
           "/srv/app/notes.txt" sampleNotes (Some 0%Z) (Some 3%Z));
    reflexivity.
Defined.

Lemma read_file_from_end_witness :
  exists numbered,
    read_file "/" "/srv/app" sampleSystem "notes.txt" (Some 2%Z)
      (Some (Z.of_nat (List.length (split LF sampleNotes)) + -2)%Z)
    = Ok (readHeader "notes.txt" (Z.max 1 2)
            (Z.of_nat (List.length (split LF sampleNotes)) + -2)
            (List.length (split LF sampleNotes))
          ++ newline ++ join newline numbered)%string
    /\ read_file "/" "/srv/app" sampleSystem "notes.txt" (Some 2%Z)
         (Some (-2)%Z)
       = Ok (readHeader "notes.txt" (Z.max 1 2) (-2)
               (List.length (split LF sampleNotes))
             ++ newline ++ join newline numbered)%string.
Proof.
  apply (@read_file_from_end "/" "/srv/app" sampleSystem "notes.txt"
           "/srv/app/notes.txt" sampleNotes 2 (-2));
    reflexivity.
Defined.

(* ================================================================== *)
(** * Reading several files *)
(* ================================================================== *)

Section ReadManyProperties.
Variables cwd PROJECT_ROOT : string.
Variable fs : fileSystem.

Lemma read_loop (order : list string) :
  forall results p,
    fold_left (fun results filePath =>
                 setKey results filePath
                        (readOne cwd PROJECT_ROOT fs filePath))
              order results p
    = if existsb (String.eqb p) order && negb (String.eqb p "__proto__")
      then Some (readOne cwd PROJECT_ROOT fs p)
      else results p.
Proof.
  induction order as [|f order IH]; intros results p; [reflexivity|].
  cbn [fold_left existsb]. rewrite IH. unfold setKey.
  destruct (String.eqb p "__proto__") eqn:Ep.
  - rewrite !andb_false_r. destruct (String.eqb f "__proto__") eqn:Ef;
      [reflexivity|].
    apply String.eqb_eq in Ep. subst p.
    rewrite String.eqb_sym, Ef. reflexivity.
  - rewrite !andb_true_r.
    destruct (existsb (String.eqb p) order); [now rewrite orb_true_r|].
    rewrite orb_false_r.
    destruct (String.eqb p f) eqn:E.
    + apply String.eqb_eq in E. subst f. rewrite Ep.
      now rewrite String.eqb_refl.
    + destruct (String.eqb f "__proto__"); [reflexivity|].
      now rewrite E.
Qed.

(** X16.  [read_multiple_files] answers for every requested path on
    its own: whatever the order in which the reads finish and however
    often a path is given, its entry is the outcome of reading that
    one path, a refusal by the sandbox or a file that cannot be read
    becoming a failed entry beside the others.  There is no entry
    for a path that was not requested, and none for the path
    [__proto__], whose assignment does not add a key. *)
Theorem read_multiple_files_entries
    (paths : list string) (completion : list string -> list string)
    (p : string) :
  Permutation (completion paths) paths ->
  (In p paths -> p <> "__proto__" ->
   read_multiple_files cwd PROJECT_ROOT fs paths completion p
   = Some (readOne cwd PROJECT_ROOT fs p))
  /\ (~ In p paths \/ p = "__proto__" ->
      read_multiple_files cwd PROJECT_ROOT fs paths completion p = None).
Proof.
  intros Hperm. unfold read_multiple_files. rewrite read_loop.
  destruct (existsb (String.eqb p) (completion paths)) eqn:E.
  - apply existsb_exists in E as (q & Hq & Heq).
    apply String.eqb_eq in Heq. subst q. split.
    + intros _ Hn. apply String.eqb_neq in Hn. now rewrite Hn.
    + intros [Hn| ->]; [|reflexivity]. exfalso. apply Hn.
      eapply Permutation_in; eassumption.
  - split; [|reflexivity]. intros Hin. exfalso.
    apply Permutation_sym in Hperm.
    apply (Permutation_in _ Hperm) in Hin.
    assert (existsb (String.eqb p) (completion paths) = true) as Ht.
    { apply existsb_exists. exists p. split; trivial.
      apply String.eqb_refl. }
    congruence.
Qed.

End ReadManyProperties.

Lemma read_multiple_files_entries_witness :
  (In "notes.txt" ["../etc/passwd"; "notes.txt"; "gone.txt"] ->
   "notes.txt" <> "__proto__" ->
   read_multiple_files "/" "/srv/app" sampleSystem
     ["../etc/passwd"; "notes.txt"; "gone.txt"] (@rev string) "notes.txt"
   = Some (readOne "/" "/srv/app" sampleSystem "notes.txt"))
  /\ (~ In "notes.txt" ["../etc/passwd"; "notes.txt"; "gone.txt"]
      \/ "notes.txt" = "__proto__" ->
      read_multiple_files "/" "/srv/app" sampleSystem
        ["../etc/passwd"; "notes.txt"; "gone.txt"] (@rev string)
        "notes.txt"
      = None).
Proof.
  apply (@read_multiple_files_entries "/" "/srv/app" sampleSystem
           ["../etc/passwd"; "notes.txt"; "gone.txt"] (@rev string)
           "notes.txt").
  apply Permutation_sym, Permutation_rev.
Defined.

(* ================================================================== *)
(** * Paths in normal form *)
(* ================================================================== *)

Module PathFacts.
Import NodePath JsStringFacts NodePathFacts SandboxFacts.

Lemma split_segments (p : string) :
  Forall (fun s => includes s "/" = false) (split sep p).
Proof.
  induction p as [|c p IH]; [repeat constructor|].
  cbn [split]. destruct (Ascii.eqb c sep) eqn:E.
  - constructor; [reflexivity|exact IH].
  - destruct (split sep p) as [|h t]; [repeat constructor|].
    + rewrite includes_sep_cons, E. reflexivity.
    + inversion IH; subst. constructor; trivial.
      rewrite includes_sep_cons, E. assumption.
Qed.

Lemma normalizeString_valid (segs : list string) :
  Forall (fun s => includes s "/" = false) segs ->
  forall res, validNames res ->
              validNames (normalizeString false res segs).
Proof.
  induction 1 as [|seg segs Hseg _ IH]; intros res Hres.
  - now apply Forall_rev.
  - cbn [normalizeString].
    destruct (String.eqb seg "") eqn:E0; [now apply IH|].
    destruct (String.eqb seg ".") eqn:E1; [now apply IH|].
    cbn [orb]. destruct (String.eqb seg "..") eqn:E2.
    + destruct Hres as [|top res Htop Hres]; [apply IH; constructor|].
      destruct (validName_parts _ Htop) as (_ & _ & _ & -> & _).
      now apply IH.
    + apply IH. constructor; trivial. unfold validName.
      rewrite E1, E2, Hseg. destruct seg; [discriminate|reflexivity].
Qed.

(** [path.resolve] below an absolute root returns an absolute path of
    ordinary names. *)
Lemma resolve_normal (cwd : string) (R : list string) (p : string) :
  exists S, validNames S
            /\ resolve cwd [absolutePathOf R; p] = absolutePathOf S.
Proof.
  unfold resolve. cbn [rev app resolveLoop].
  assert (isAbsolute (absolutePathOf R) = true) as Habs by reflexivity.
  assert (String.eqb (absolutePathOf R) "" = false) as Hnil
    by reflexivity.
  assert (forall rp, validNames (normalizeSegments false rp)) as Hv.
  { intros rp. apply normalizeString_valid; [apply split_segments|].
    constructor. }
  destruct (String.eqb p "").
  - rewrite Hnil, Habs. eexists. split; [apply Hv|reflexivity].
  - destruct (isAbsolute p).
    + eexists. split; [apply Hv|reflexivity].
    + rewrite Hnil, Habs. eexists. split; [apply Hv|reflexivity].
Qed.

Lemma resolvePath_normal (cwd : string) (R : list string)
                         (p filePath : string) :
  resolvePath cwd (absolutePathOf R) p = Ok filePath ->
  exists S, validNames S /\ filePath = absolutePathOf S
            /\ startsWith (absolutePathOf S) (absolutePathOf R) = true.
Proof.
  rewrite resolvePath_cases.
  destruct (resolve_normal cwd R p) as (S & HS & ->).
  destruct (startsWith _ _) eqn:E; [|discriminate].
  intros H. injection H as <-. now exists S.
Qed.

Lemma validNames_firstn (k : nat) (S : list string) :
  validNames S -> validNames (firstn k S).
Proof.
  unfold validNames. intros HS. apply Forall_forall. intros x Hx.
  rewrite Forall_forall in HS. apply HS.
  rewrite <- (firstn_skipn k S). apply in_or_app. now left.
Qed.

Lemma validNames_removelast (S : list string) :
  validNames S -> validNames (removelast S).
Proof.
  rewrite removelast_firstn_len. apply validNames_firstn.
Qed.

Lemma length_removelast (S : list string) :
  List.length (removelast S) = List.length S - 1.
Proof.
  rewrite removelast_firstn_len, length_firstn. lia.
Qed.

Lemma ancestors_absolute (S : list string) :
  validNames S ->
  Fs.ancestors (absolutePathOf S)
  = map (fun k => absolutePathOf (firstn k S))
        (seq 1 (List.length S - 1)).
Proof.
  intros HS. unfold Fs.ancestors. now rewrite segments_absolute.
Qed.

Lemma dirname_absolute (S : list string) :
  validNames S ->
  dirname (absolutePathOf S) = absolutePathOf (removelast S).
Proof.
  intros HS. unfold dirname. now rewrite segments_absolute.
Qed.

(** The directories [mkdir] makes for the directory of a path are the
    directories above the path. *)
Lemma chain_dirname (S : list string) :
  validNames S ->
  Fs.chain (dirname (absolutePathOf S))
  = Fs.ancestors (absolutePathOf S).
Proof.
  intros HS. rewrite dirname_absolute, ancestors_absolute by assumption.
  unfold Fs.chain.
  rewrite segments_absolute by now apply validNames_removelast.
  rewrite length_removelast. apply map_ext_in. intros k Hk.
  apply in_seq in Hk. f_equal. apply firstn_removelast. lia.
Qed.

Lemma ancestors_dirname (S : list string) (a : string) :
  validNames S ->
  In a (Fs.ancestors (dirname (absolutePathOf S))) ->
  In a (Fs.ancestors (absolutePathOf S)).
Proof.
  intros HS. rewrite dirname_absolute by assumption.
  rewrite !ancestors_absolute
    by (trivial; now apply validNames_removelast).
  rewrite length_removelast. intros H.
  apply in_map_iff in H as (k & <- & Hk). apply in_seq in Hk.
  apply in_map_iff. exists k. split.
  - f_equal. symmetry. apply firstn_removelast. lia.
  - apply in_seq. lia.
Qed.

Lemma dirname_above (S : list string) :
  validNames S ->
  dirname (absolutePathOf S) = "/"
  \/ In (dirname (absolutePathOf S)) (Fs.ancestors (absolutePathOf S)).
Proof.
  intros HS. rewrite dirname_absolute, ancestors_absolute by assumption.
  destruct (Nat.le_gt_cases (List.length S) 1) as [Hle|Hgt].
  - left. destruct S as [|s [|s' S]]; [reflexivity|reflexivity|].
    simpl in Hle. lia.
  - right. apply in_map_iff. exists (List.length S - 1). split.
    + f_equal. rewrite removelast_firstn_len. f_equal. lia.
    + apply in_seq. lia.
Qed.

Lemma self_not_above (S : list string) :
  validNames S ->
  existsb (String.eqb (absolutePathOf S))
          (Fs.ancestors (absolutePathOf S)) = false.
Proof.
  intros HS. destruct (existsb _ _) eqn:E; [|reflexivity].
  apply existsb_exists in E as (a & Ha & Heq).
  apply String.eqb_eq in Heq. subst a.
  rewrite ancestors_absolute in Ha by assumption.
  apply in_map_iff in Ha as (k & Hk & Hin). apply in_seq in Hin.
  apply absolutePathOf_inj in Hk;
    [|now apply validNames_firstn|assumption].
  apply (f_equal (@List.length string)) in Hk.
  rewrite length_firstn in Hk. lia.
Qed.

(** Two names without separator in front of the same place of a
    text are the same name. *)
Lemma startsWith_names (r : string) :
  forall s X Y,
    includes r "/" = false -> includes s "/" = false ->
    X = "" \/ (exists X', X = String sep X') ->
    startsWith (s ++ X) (r ++ String sep Y) = true ->
    s = r /\ exists X', X = String sep X' /\ startsWith X' Y = true.
Proof.
  induction r as [|d r IH]; intros s X Y Hr Hs HX H.
  - destruct s as [|c s].
    + cbn [append] in H. destruct HX as [->|[X' ->]]; [discriminate|].
      cbn [startsWith] in H. apply andb_true_iff in H as [_ H].
      split; [reflexivity|]. now exists X'.
    + rewrite includes_sep_cons in Hs.
      apply orb_false_iff in Hs as [Hc _].
      cbn [append startsWith] in H. rewrite Hc in H. discriminate.
  - rewrite includes_sep_cons in Hr. apply orb_false_iff in Hr as [Hd Hr].
    destruct s as [|c s].
    + cbn [append] in H. destruct HX as [->|[X' ->]]; [discriminate|].
      cbn [startsWith] in H. apply andb_true_iff in H as [H _].
      apply Ascii.eqb_eq in H. subst d. unfold sep in Hd.
      now rewrite Ascii.eqb_refl in Hd.
    + rewrite includes_sep_cons in Hs.
      apply orb_false_iff in Hs as [_ Hs].
      cbn [append startsWith] in H. apply andb_true_iff in H as [Hc H].
      apply Ascii.eqb_eq in Hc. subst d.
      destruct (IH s X Y Hr Hs HX H) as (-> & HX').
      split; [reflexivity|exact HX'].
Qed.

(** A path that begins with the text of the root has the segments of
    the root in front, the last one possibly longer. *)
Lemma prefix_segments (R : list string) :
  forall S k,
    validNames R -> validNames S ->
    startsWith (join "/" S) (join "/" R) = true ->
    (k < List.length R -> firstn k S = firstn k R)
    /\ (List.length R <= k ->
        startsWith (join "/" (firstn k S)) (join "/" R) = true).
Proof.
  induction R as [|r R IH]; intros S k HR HS H.
  - split; [simpl; lia|reflexivity].
  - inversion HR as [|? ? Hr HR']; subst.
    destruct (validName_parts _ Hr) as (Hrn & _ & _ & _ & Hrs).
    destruct S as [|s S].
    { destruct R; cbn [join] in H; destruct r; try contradiction;
        discriminate. }
    inversion HS as [|? ? Hs HS']; subst.
    destruct (validName_parts _ Hs) as (Hsn & _ & _ & _ & Hss).
    destruct R as [|r' R].
    + change (join "/" [r]) with r in *. split.
      * intros Hk. simpl in Hk. now replace k with 0 by lia.
      * intros Hk. simpl in Hk. destruct k as [|k]; [lia|].
        cbn [firstn].
        assert (startsWith s r = true) as Hsr.
        { destruct S as [|s' S]; [exact H|].
          rewrite join_cons2 in H.
          now rewrite startsWith_segment in H. }
        destruct (firstn k S); [exact Hsr|].
        rewrite join_cons2. now rewrite startsWith_segment.
    + rewrite (join_cons2 r) in H.
      assert (join "/" (s :: S)
              = (s ++ match S with
                      | [] => ""
                      | _ => String sep (join "/" S)
                      end)%string) as Hj.
      { destruct S; [now rewrite append_nil_r|reflexivity]. }
      rewrite Hj in H.
      apply startsWith_names in H as (-> & X' & HX & Hrest); trivial;
        [|destruct S; [now left|right; eauto]].
      destruct S as [|s' S]; [discriminate|].
      injection HX as <-.
      destruct (IH (s' :: S) (k - 1) HR' HS' Hrest) as [Hlt Hge].
      split.
      * intros Hk. destruct k as [|k]; [reflexivity|].
        cbn [firstn]. f_equal. simpl in Hk.
        replace (Datatypes.S k - 1) with k in Hlt by lia.
        apply Hlt. simpl. lia.
      * intros Hk. destruct k as [|k]; [simpl in Hk; lia|].
        replace (Datatypes.S k - 1) with k in Hge by lia.
        cbn [firstn]. simpl in Hk.
        assert (startsWith (join "/" (firstn k (s' :: S)))
                           (join "/" (r' :: R)) = true) as Hin
            by (apply Hge; simpl; lia).
        destruct (firstn k (s' :: S)) as [|f F] eqn:EF.
        { destruct k; [lia|discriminate]. }
        rewrite !join_cons2.
        change (String sep (join "/" (f :: F)))
          with ("/" ++ join "/" (f :: F))%string.
        change (String sep (join "/" (r' :: R)))
          with ("/" ++ join "/" (r' :: R))%string.
        now rewrite !startsWith_same_prefix.
Qed.

End PathFacts.

(* ================================================================== *)
(** * Writing, creating and deleting *)
(* ================================================================== *)

Section FsFacts.
Variable fs : fileSystem.

Lemma writeFile_done (p content : string) (fs' : fileSystem) :
  Fs.writeFile fs p content = Done fs' ->
  fs' = FileSystem (writeFile (files fs) p content) (directories fs).
Proof.
  unfold Fs.writeFile.
  destruct (directories fs p); [discriminate|].
  destruct (Fs.isFile fs p); [now intros [= <-]|].
  destruct (existsb _ _); [discriminate|].
  destruct (forallb _ _); [now intros [= <-]|discriminate].
Qed.

Lemma unlink_done (p : string) (fs' : fileSystem) :
  Fs.unlink fs p = Done fs' ->
  fs' = FileSystem
          (fun q => if String.eqb q p then None else files fs q)
          (directories fs).
Proof.
  unfold Fs.unlink. destruct (Fs.isFile fs p); [now intros [= <-]|].
  destruct (directories fs p); discriminate.
Qed.

Lemma mkdirRecursive_done (p : string) (fs' : fileSystem) :
  Fs.mkdirRecursive fs p = Done fs' ->
  fs' = FileSystem (files fs)
          (fun d => directories fs d
                    || existsb (String.eqb d) (Fs.chain p)).
Proof.
  unfold Fs.mkdirRecursive. destruct (Fs.isFile fs p); [discriminate|].
  destruct (existsb _ _); [discriminate|]. now intros [= <-].
Qed.

Lemma access_nothing (p : string) :
  Fs.isFile fs p || directories fs p = false ->
  Fs.access fs p
  = Some (if existsb (Fs.isFile fs) (Fs.ancestors p)
          then systemError ENOTDIR "access" p
          else systemError ENOENT "access" p).
Proof.
  intros H. unfold Fs.access, Fs.missing. now rewrite H.
Qed.

End FsFacts.

Section MutationProperties.
Import PathFacts.
Variables cwd PROJECT_ROOT : string.

(** X17.  [write_file] only overwrites: on a path the sandbox admits
    it succeeds where a file exists, storing the content there and
    changing nothing else, and it fails wherever there is no file,
    leaving the file system as it was. *)
Theorem write_file_overwrites
    (fs : fileSystem) (path filePath content : string) :
  resolvePath cwd PROJECT_ROOT path = Ok filePath ->
  (Fs.isFile fs filePath = true -> directories fs filePath = false ->
   write_file cwd PROJECT_ROOT fs path content
   = (Ok ("Successfully wrote " ++ showNat (lineCount content)
          ++ " lines to " ++ path)%string,
      FileSystem (writeFile (files fs) filePath content)
                 (directories fs)))
  /\ (Fs.isFile fs filePath = false ->
      exists error,
        write_file cwd PROJECT_ROOT fs path content = (Err error, fs)).
Proof.
  intros Hr. unfold write_file. rewrite Hr. split.
  - intros Hf Hd. unfold Fs.access, Fs.writeFile. now rewrite Hf, Hd.
  - intros Hf. unfold Fs.access, Fs.writeFile. rewrite Hf. cbn [orb].
    destruct (directories fs filePath); eauto.
Qed.

Lemma create_file_new (fs : fileSystem) (S : list string)
                      (path content : string) :
  validNames S ->
  resolvePath cwd PROJECT_ROOT path = Ok (absolutePathOf S) ->
  files fs "/" = None ->
  Fs.isFile fs (absolutePathOf S) || directories fs (absolutePathOf S)
  = false ->
  existsb (Fs.isFile fs) (Fs.ancestors (absolutePathOf S)) = false ->
  create_file cwd PROJECT_ROOT fs path content
  = (Ok ("Successfully created " ++ path ++ " with "
         ++ showNat (lineCount content) ++ " lines")%string,
     FileSystem (writeFile (files fs) (absolutePathOf S) content)
       (fun d => directories fs d
                 || existsb (String.eqb d)
                      (Fs.ancestors (absolutePathOf S)))).
Proof.
  intros HS Hr Hroot Hnone Habove. unfold create_file.
  rewrite Hr, (access_nothing _ _ Hnone), Habove.
  cbn [code systemError].
  apply orb_false_iff in Hnone as [Hf Hd].
  assert (Fs.isFile fs (dirname (absolutePathOf S)) = false) as Hdf.
  { destruct (dirname_above HS) as [->|Hin].
    - unfold Fs.isFile. now rewrite Hroot.
    - destruct (Fs.isFile fs (dirname (absolutePathOf S))) eqn:E;
        [|reflexivity].
      assert (existsb (Fs.isFile fs) (Fs.ancestors (absolutePathOf S))
              = true) by (apply existsb_exists; eauto).
      congruence. }
  assert (existsb (Fs.isFile fs)
            (Fs.ancestors (dirname (absolutePathOf S))) = false) as Hda.
  { destruct (existsb _ (Fs.ancestors (dirname _))) eqn:E;
      [|reflexivity].
    apply existsb_exists in E as (a & Ha & Hfile).
    apply (ancestors_dirname _ HS) in Ha.
    assert (existsb (Fs.isFile fs) (Fs.ancestors (absolutePathOf S))
            = true) by (apply existsb_exists; eauto).
    congruence. }
  unfold Fs.mkdirRecursive. rewrite Hdf, Hda.
  rewrite (chain_dirname HS).
  set (fs1 := FileSystem (files fs)
                (fun d => directories fs d
                          || existsb (String.eqb d)
                               (Fs.ancestors (absolutePathOf S)))).
  assert (directories fs1 (absolutePathOf S) = false) as H1.
  { unfold fs1. cbn [directories]. now rewrite Hd, (self_not_above HS). }
  assert (Fs.isFile fs1 (absolutePathOf S) = false) as H2 by exact Hf.
  assert (existsb (Fs.isFile fs1) (Fs.ancestors (absolutePathOf S))
          = false) as H3 by exact Habove.
  assert (forallb (directories fs1) (Fs.ancestors (absolutePathOf S))
          = true) as H4.
  { apply forallb_forall. intros a Ha. unfold fs1. cbn [directories].
    apply orb_true_iff. right.
    apply existsb_exists. exists a. split; trivial.
    apply String.eqb_refl. }
  unfold Fs.writeFile. rewrite H1, H2, H3, H4. reflexivity.
Qed.

(** X18.  [create_file] never overwrites: where a file or a directory
    exists at the resolved path it fails with its own error, and
    where a file stands among the directories above the path it
    fails with the error of [access]; in both cases nothing changes.
    Otherwise it succeeds: the missing directories above the path
    are made and the content is stored at the path. *)
Theorem create_file_outcome
    (fs : fileSystem) (S : list string) (path content : string) :
  validNames S ->
  resolvePath cwd PROJECT_ROOT path = Ok (absolutePathOf S) ->
  files fs "/" = None ->
  let filePath := absolutePathOf S in
  let occupied := Fs.isFile fs filePath || directories fs filePath in
  let blocked := existsb (Fs.isFile fs) (Fs.ancestors filePath) in
  create_file cwd PROJECT_ROOT fs path content
  = if occupied
    then (Err ("File already exists: " ++ path
               ++ ". Use write_file to overwrite.")%string, fs)
    else if blocked
         then (Err (message (systemError ENOTDIR "access" filePath)),
               fs)
         else (Ok ("Successfully created " ++ path ++ " with "
                   ++ showNat (lineCount content) ++ " lines")%string,
               FileSystem (writeFile (files fs) filePath content)
                 (fun d => directories fs d
                           || existsb (String.eqb d)
                                (Fs.ancestors filePath))).
Proof.
  intros HS Hr Hroot filePath occupied blocked.
  subst filePath occupied blocked.
  destruct (Fs.isFile fs (absolutePathOf S)
            || directories fs (absolutePathOf S)) eqn:Ho;
    [|destruct (existsb (Fs.isFile fs)
                  (Fs.ancestors (absolutePathOf S))) eqn:Hb].
  - unfold create_file, Fs.access. now rewrite Hr, Ho.
  - unfold create_file. rewrite Hr, (access_nothing _ _ Ho).
    now rewrite Hb.
  - now apply create_file_new.
Qed.

(** X19.  A file that [create_file] made can be read back with the
    content given.  Deleting it afterwards restores the files as they
    were, while the directories made stay, and [write_file] is
    refused again. *)
Theorem create_read_delete
    (fs : fileSystem) (S : list string) (path content other : string) :
  validNames S ->
  resolvePath cwd PROJECT_ROOT path = Ok (absolutePathOf S) ->
  files fs "/" = None ->
  Fs.isFile fs (absolutePathOf S) || directories fs (absolutePathOf S)
  = false ->
  existsb (Fs.isFile fs) (Fs.ancestors (absolutePathOf S)) = false ->
  let created := snd (create_file cwd PROJECT_ROOT fs path content) in
  let deleted := snd (delete_file cwd PROJECT_ROOT created path) in
  readOne cwd PROJECT_ROOT created path = ReadOk content
  /\ fst (delete_file cwd PROJECT_ROOT created path)
     = Ok ("Successfully deleted " ++ path)%string
  /\ (forall q, files deleted q = files fs q)
  /\ directories deleted = directories created
  /\ exists error,
      write_file cwd PROJECT_ROOT deleted path other
      = (Err error, deleted).
Proof.
  intros HS Hr Hroot Hnone Habove created deleted.
  pose proof (create_file_new fs path content HS Hr Hroot Hnone Habove)
    as Hc.
  assert (created
          = FileSystem (writeFile (files fs) (absolutePathOf S) content)
              (fun d => directories fs d
                        || existsb (String.eqb d)
                             (Fs.ancestors (absolutePathOf S))))
    as Hcreated by (unfold created; now rewrite Hc).
  assert (files created (absolutePathOf S) = Some content) as Hfile.
  { rewrite Hcreated. cbn [files]. unfold writeFile.
    now rewrite String.eqb_refl. }
  assert (Fs.unlink created (absolutePathOf S)
          = Done (FileSystem
                    (fun q => if String.eqb q (absolutePathOf S)
                              then None else files created q)
                    (directories created))) as Hunlink.
  { unfold Fs.unlink, Fs.isFile. now rewrite Hfile. }
  assert (deleted
          = FileSystem
              (fun q => if String.eqb q (absolutePathOf S)
                        then None else files created q)
              (directories created)) as Hdeleted.
  { unfold deleted, delete_file. now rewrite Hr, Hunlink. }
  apply orb_false_iff in Hnone as [Hf Hd].
  assert (forall q, files deleted q = files fs q) as Hall.
  { intros q. rewrite Hdeleted, Hcreated. cbn [files].
    unfold writeFile.
    destruct (String.eqb q (absolutePathOf S)) eqn:E; [|reflexivity].
    apply String.eqb_eq in E. subst q. unfold Fs.isFile in Hf.
    now destruct (files fs (absolutePathOf S)). }
  split; [|split; [|split; [|split]]].
  - unfold readOne. rewrite Hr. unfold Fs.readFile. now rewrite Hfile.
  - unfold delete_file. now rewrite Hr, Hunlink.
  - exact Hall.
  - now rewrite Hdeleted.
  - unfold write_file. rewrite Hr. unfold Fs.access, Fs.isFile.
    rewrite Hall. unfold Fs.isFile in Hf.
    destruct (files fs (absolutePathOf S)); [discriminate|].
    assert (directories deleted (absolutePathOf S) = false) as ->.
    { rewrite Hdeleted, Hcreated. cbn [directories].
      now rewrite Hd, (self_not_above HS). }
    cbn [orb]. eauto.
Qed.

(** X20.  The handlers that change files, [write_file], [create_file],
    [delete_file] and [search_and_replace], change at most the file at
    the path [resolvePath] gives for their argument: a path at which
    the files differ afterwards is that path, and it begins with the
    text of the root.  The directories [create_file] makes begin with
    the text of the root as well, the project root and the directories
    above it being there; the other handlers make or remove none.
    The bound is the test of [resolvePath], a comparison of texts,
    which a path into a directory beside the root passes as well when
    the name of that directory begins with the name of the root. *)
Theorem mutations_inside_root
    (R : list string) (fs : fileSystem)
    (path content search replace : string) :
  validNames R ->
  forallb (directories fs) (Fs.chain (absolutePathOf R)) = true ->
  let root := absolutePathOf R in
  changesInside cwd root path (files fs)
    (files (snd (write_file cwd root fs path content)))
  /\ changesInside cwd root path (files fs)
       (files (snd (create_file cwd root fs path content)))
  /\ changesInside cwd root path (files fs)
       (files (snd (delete_file cwd root fs path)))
  /\ changesInside cwd root path (files fs)
       (snd (search_and_replace cwd root (files fs) path search replace))
  /\ (forall d,
         directories (snd (create_file cwd root fs path content)) d
         = true ->
         directories fs d = false -> startsWith d root = true)
  /\ directories (snd (write_file cwd root fs path content))
     = directories fs
  /\ directories (snd (delete_file cwd root fs path)) = directories fs.
Proof.
  intros HR Hroot root.
  assert (forall filePath c,
             resolvePath cwd root path = Ok filePath ->
             changesInside cwd root path (files fs)
               (writeFile (files fs) filePath c)) as Hw.
  { intros filePath c Hr q Hq. unfold writeFile in Hq.
    destruct (String.eqb q filePath) eqn:E; [|contradiction].
    apply String.eqb_eq in E. subst. split; [exact Hr|].
    eapply resolvePath_inside; eassumption. }
  assert (forall filePath,
             resolvePath cwd root path = Ok filePath ->
             changesInside cwd root path (files fs)
               (fun q => if String.eqb q filePath then None
                         else files fs q)) as Hu.
  { intros filePath Hr q Hq. cbn beta in Hq.
    destruct (String.eqb q filePath) eqn:E; [|contradiction].
    apply String.eqb_eq in E. subst. split; [exact Hr|].
    eapply resolvePath_inside; eassumption. }
  assert (changesInside cwd root path (files fs) (files fs)) as Hs
      by (intros q Hq; contradiction).
  unfold write_file, create_file, delete_file, search_and_replace.
  destruct (resolvePath cwd root path) as [filePath|] eqn:Hr;
    [|cbn [snd];
      split; [exact Hs|split; [exact Hs|split; [exact Hs|
      split; [exact Hs|split; [|split; reflexivity]]]]];
      intros d Hd1 Hd2; congruence].
  split; [|split; [|split; [|split; [|split; [|split]]]]].
  - destruct (Fs.access fs filePath); [exact Hs|].
    destruct (Fs.writeFile fs filePath content) as [fs'|] eqn:E;
      [|exact Hs].
    apply writeFile_done in E. subst fs'. now apply Hw.
  - destruct (Fs.access fs filePath) as [e|]; [|exact Hs].
    destruct (code e); try exact Hs.
    destruct (Fs.mkdirRecursive fs (dirname filePath)) as [fs1|] eqn:E1;
      [|exact Hs].
    apply mkdirRecursive_done in E1. subst fs1.
    destruct (Fs.writeFile _ filePath content) as [fs2|] eqn:E2.
    + apply writeFile_done in E2. subst fs2. now apply Hw.
    + exact Hs.
  - destruct (Fs.unlink fs filePath) as [fs'|] eqn:E; [|exact Hs].
    apply unlink_done in E. subst fs'. now apply Hu.
  - destruct (files fs filePath) as [old|]; [|exact Hs].
    destruct (replaceLines search replace 0 (split LF old))
      as [newLines [|c changes]]; [exact Hs|]. now apply Hw.
  - intros d Hnew Hold.
    destruct (resolvePath_normal _ _ _ Hr) as (S & HS & -> & Hin).
    destruct (Fs.access fs (absolutePathOf S)) as [e|];
      [|cbn [snd] in Hnew; congruence].
    destruct (code e); try (cbn [snd] in Hnew; congruence).
    destruct (Fs.mkdirRecursive fs (dirname (absolutePathOf S)))
      as [fs1|] eqn:E1; [|cbn [snd] in Hnew; congruence].
    apply mkdirRecursive_done in E1. subst fs1.
    assert (directories fs d
            || existsb (String.eqb d) (Fs.ancestors (absolutePathOf S))
            = true) as Hd.
    { rewrite <- (chain_dirname HS).
      destruct (Fs.writeFile _ (absolutePathOf S) content)
        as [fs2|] eqn:E2; cbn [snd] in Hnew.
      - apply writeFile_done in E2. subst fs2. exact Hnew.
      - exact Hnew. }
    rewrite Hold in Hd. cbn [orb] in Hd.
    apply existsb_exists in Hd as (a & Ha & Heq).
    apply String.eqb_eq in Heq. subst a.
    rewrite (ancestors_absolute HS) in Ha.
    apply in_map_iff in Ha as (k & <- & Hk). apply in_seq in Hk.
    unfold absolutePathOf in Hin. cbn [append startsWith] in Hin.
    rewrite Ascii.eqb_refl in Hin. cbn [andb] in Hin.
    destruct (prefix_segments k HR HS Hin) as [Hlt Hge].
    destruct (Nat.lt_ge_cases k (List.length R)) as [Hk'|Hk'].
    + exfalso. rewrite (Hlt Hk') in Hold.
      rewrite forallb_forall in Hroot.
      rewrite (Hroot (absolutePathOf (firstn k R))) in Hold;
        [discriminate|].
      unfold Fs.chain.
      rewrite NodePathFacts.segments_absolute by assumption.
      apply in_map_iff. exists k. split; [reflexivity|].
      apply in_seq. lia.
    + unfold root, absolutePathOf. cbn [append startsWith].
      rewrite Ascii.eqb_refl. cbn [andb]. now apply Hge.
  - destruct (Fs.access fs filePath); [reflexivity|].
    destruct (Fs.writeFile fs filePath content) as [fs'|] eqn:E;
      [|reflexivity].
    apply writeFile_done in E. now subst fs'.
  - destruct (Fs.unlink fs filePath) as [fs'|] eqn:E; [|reflexivity].
    apply unlink_done in E. now subst fs'.
Qed.

End MutationProperties.

Lemma write_file_overwrites_witness :
  (Fs.isFile sampleSystem "/srv/app/notes.txt" = true ->
   directories sampleSystem "/srv/app/notes.txt" = false ->
   write_file "/" "/srv/app" sampleSystem "notes.txt" "new"
   = (Ok ("Successfully wrote " ++ showNat (lineCount "new")
          ++ " lines to " ++ "notes.txt")%string,
      FileSystem (writeFile (files sampleSystem) "/srv/app/notes.txt" "new")
                 (directories sampleSystem)))
  /\ (Fs.isFile sampleSystem "/srv/app/notes.txt" = false ->
      exists error,
        write_file "/" "/srv/app" sampleSystem "notes.txt" "new"
        = (Err error, sampleSystem)).
Proof.
  apply (@write_file_overwrites "/" "/srv/app" sampleSystem "notes.txt"
           "/srv/app/notes.txt" "new").
  reflexivity.
Defined.

Lemma create_file_outcome_witness :
  create_file "/" "/srv/app" sampleSystem "docs/todo.txt" "first"
  = if Fs.isFile sampleSystem
         (absolutePathOf ["srv"; "app"; "docs"; "todo.txt"])
       || directories sampleSystem
            (absolutePathOf ["srv"; "app"; "docs"; "todo.txt"])
    then (Err ("File already exists: " ++ "docs/todo.txt"
               ++ ". Use write_file to overwrite.")%string, sampleSystem)
    else if existsb (Fs.isFile sampleSystem)
              (Fs.ancestors
                 (absolutePathOf ["srv"; "app"; "docs"; "todo.txt"]))
         then (Err (message
                      (systemError ENOTDIR "access"
                         (absolutePathOf
                            ["srv"; "app"; "docs"; "todo.txt"]))),
               sampleSystem)
         else (Ok ("Successfully created " ++ "docs/todo.txt" ++ " with "
                   ++ showNat (lineCount "first") ++ " lines")%string,
               FileSystem
                 (writeFile (files sampleSystem)
                    (absolutePathOf ["srv"; "app"; "docs"; "todo.txt"])
                    "first")
                 (fun d => directories sampleSystem d
                           || existsb (String.eqb d)
                                (Fs.ancestors
                                   (absolutePathOf
                                      ["srv"; "app"; "docs";
                                       "todo.txt"])))).
Proof.
  apply (@create_file_outcome "/" "/srv/app" sampleSystem
           ["srv"; "app"; "docs"; "todo.txt"] "docs/todo.txt" "first");
    [repeat constructor|reflexivity|reflexivity].
Defined.

Lemma create_read_delete_witness :
  readOne "/" "/srv/app"
    (snd (create_file "/" "/srv/app" sampleSystem "docs/todo.txt" "first"))
    "docs/todo.txt"
  = ReadOk "first"
  /\ fst (delete_file "/" "/srv/app"
            (snd (create_file "/" "/srv/app" sampleSystem "docs/todo.txt"
                    "first"))
            "docs/todo.txt")
     = Ok ("Successfully deleted " ++ "docs/todo.txt")%string
  /\ (forall q,
         files
           (snd (delete_file "/" "/srv/app"
                   (snd (create_file "/" "/srv/app" sampleSystem
                           "docs/todo.txt" "first"))
                   "docs/todo.txt")) q
         = files sampleSystem q)
  /\ directories
       (snd (delete_file "/" "/srv/app"
               (snd (create_file "/" "/srv/app" sampleSystem
                       "docs/todo.txt" "first"))
               "docs/todo.txt"))
     = directories
         (snd (create_file "/" "/srv/app" sampleSystem "docs/todo.txt"
                 "first"))
  /\ exists error,
      write_file "/" "/srv/app"
        (snd (delete_file "/" "/srv/app"
                (snd (create_file "/" "/srv/app" sampleSystem
                        "docs/todo.txt" "first"))
                "docs/todo.txt"))
        "docs/todo.txt" "second"
      = (Err error,
         snd (delete_file "/" "/srv/app"
                (snd (create_file "/" "/srv/app" sampleSystem
                        "docs/todo.txt" "first"))
                "docs/todo.txt")).
Proof.
  apply (@create_read_delete "/" "/srv/app" sampleSystem
           ["srv"; "app"; "docs"; "todo.txt"] "docs/todo.txt" "first"
           "second");
    [repeat constructor|reflexivity|reflexivity|reflexivity|reflexivity].
Defined.

(** In the sample project: [notes.txt] is overwritten, deleted and
    rewritten by a replacement, [docs/todo.txt] is created together with
    its directory, and the file [config.php] of the directory [app-old]
    beside the root is overwritten through [..]; each time the files
    differ at the resolved path alone. *)
Lemma mutations_inside_root_witness :
  (files (snd (write_file "/" "/srv/app" sampleSystem "notes.txt" "new"))
     "/srv/app/notes.txt" = Some "new"
   /\ changesInside "/" "/srv/app" "notes.txt" (files sampleSystem)
        (files (snd (write_file "/" "/srv/app" sampleSystem
                       "notes.txt" "new"))))
  /\ (files (snd (delete_file "/" "/srv/app" sampleSystem "notes.txt"))
        "/srv/app/notes.txt" = None
      /\ changesInside "/" "/srv/app" "notes.txt" (files sampleSystem)
           (files (snd (delete_file "/" "/srv/app" sampleSystem
                          "notes.txt"))))
  /\ (snd (search_and_replace "/" "/srv/app" (files sampleSystem)
             "notes.txt" "two" "2") "/srv/app/notes.txt"
      = Some ("one" ++ newline ++ "2" ++ newline ++ "three" ++ newline
              ++ "four")%string
      /\ changesInside "/" "/srv/app" "notes.txt" (files sampleSystem)
           (snd (search_and_replace "/" "/srv/app" (files sampleSystem)
                   "notes.txt" "two" "2")))
  /\ (files (snd (create_file "/" "/srv/app" sampleSystem
                    "docs/todo.txt" "new"))
        "/srv/app/docs/todo.txt" = Some "new"
      /\ directories (snd (create_file "/" "/srv/app" sampleSystem
                             "docs/todo.txt" "new"))
           "/srv/app/docs" = true
      /\ changesInside "/" "/srv/app" "docs/todo.txt" (files sampleSystem)
           (files (snd (create_file "/" "/srv/app" sampleSystem
                          "docs/todo.txt" "new")))
      /\ forall d,
          directories (snd (create_file "/" "/srv/app" sampleSystem
                              "docs/todo.txt" "new")) d = true ->
          directories sampleSystem d = false ->
          startsWith d "/srv/app" = true)
  /\ (files (snd (write_file "/" "/srv/app" siblingSystem
                    "../app-old/config.php" "new"))
        "/srv/app-old/config.php" = Some "new"
      /\ changesInside "/" "/srv/app" "../app-old/config.php"
           (files siblingSystem)
           (files (snd (write_file "/" "/srv/app" siblingSystem
                          "../app-old/config.php" "new")))).
Proof.
  pose proof (@mutations_inside_root "/" ["srv"; "app"] sampleSystem
                "notes.txt" "new" "two" "2"
                ltac:(repeat constructor) eq_refl)
    as (Hw & _ & Hd & Hr & _).
  pose proof (@mutations_inside_root "/" ["srv"; "app"] sampleSystem
                "docs/todo.txt" "new" "two" "2"
                ltac:(repeat constructor) eq_refl)
    as (_ & Hc & _ & _ & Hm & _).
  pose proof (@mutations_inside_root "/" ["srv"; "app"] siblingSystem
                "../app-old/config.php" "new" "two" "2"
                ltac:(repeat constructor) eq_refl)
    as (Hs & _).
  split; [split; [reflexivity|exact Hw]|].
  split; [split; [reflexivity|exact Hd]|].
  split; [split; [reflexivity|exact Hr]|].
  split; [split; [reflexivity|split; [reflexivity|split; [exact Hc|]]]|].
  - exact Hm.
  - split; [reflexivity|exact Hs].
Defined.

(* ================================================================== *)
(** * More on the search report *)
(* ================================================================== *)

Section MatchRecords.
Variable case_sensitive : bool.
Variable query : string.

Lemma lineMatches_records (lines : list string) :
  forall index m,
    In m (lineMatches case_sensitive query index lines) ->
    exists i line,
      nth_error lines i = Some line
      /\ smLine m = index + i + 1
      /\ containsLiteral case_sensitive line query = true
      /\ smContent m = take 200 (trim line).
Proof.
  induction lines as [|l lines IH]; intros index m; [contradiction|].
  cbn [lineMatches]. intros H. apply in_app_or in H as [H|H].
  - destruct (containsLiteral case_sensitive l query) eqn:E;
      [|contradiction].
    destruct H as [<-|[]]. exists 0, l. cbn [smLine smContent nth_error].
    repeat split; trivial. lia.
  - apply IH in H as (i & line & Hn & Hl & Hc & Ht).
    exists (S i), line. repeat split; trivial. lia.
Qed.

Lemma lineMatches_increasing (lines : list string) :
  forall index,
    StronglySorted lt
      (map smLine (lineMatches case_sensitive query index lines)).
Proof.
  induction lines as [|l lines IH]; intros index; [constructor|].
  cbn [lineMatches].
  destruct (containsLiteral case_sensitive l query); [|apply IH].
  cbn [app map smLine]. constructor; [apply IH|].
  apply Forall_forall. intros n Hn. apply in_map_iff in Hn as (m & <- & Hm).
  apply lineMatches_records in Hm as (i & line & _ & -> & _). lia.
Qed.

Lemma containsLiteral_empty (line : string) :
  containsLiteral case_sensitive line "" = true.
Proof.
  unfold containsLiteral.
  destruct case_sensitive; apply JsStringFacts.includes_empty.
Qed.

Lemma lineMatches_empty (lines : list string) :
  forall index,
    List.length (lineMatches case_sensitive "" index lines)
    = List.length lines.
Proof.
  induction lines as [|l lines IH]; intros index; [reflexivity|].
  cbn [lineMatches]. rewrite containsLiteral_empty.
  cbn [app List.length]. now rewrite IH.
Qed.

End MatchRecords.

Lemma firstn_member (A : Type) (n : nat) :
  forall (l : list A) (x : A), In x (firstn n l) -> In x l.
Proof.
  induction n as [|n IH]; intros [|y l] x; simpl; try tauto.
  intros [->|H]; [now left|right; now apply IH].
Qed.

(** Two descending lists with the same members are the same list. *)
Lemma descending_unique (l1 l2 : list nat) :
  StronglySorted ge l1 -> StronglySorted ge l2 -> Permutation l1 l2 ->
  l1 = l2.
Proof.
  intros H1. revert l2.
  induction H1 as [|x l1 Hs1 IH Hx]; intros l2 H2 Hp.
  - apply Permutation_nil in Hp. now subst.
  - destruct H2 as [|y l2 Hs2 Hy].
    + apply Permutation_sym, Permutation_nil in Hp. discriminate.
    + assert (x = y) as ->.
      { assert (In x (y :: l2)) as Hin1
            by (eapply Permutation_in; [exact Hp|now left]).
        assert (In y (x :: l1)) as Hin2
            by (eapply Permutation_in;
                [apply Permutation_sym, Hp|now left]).
        rewrite Forall_forall in Hx, Hy.
        destruct Hin1 as [->|Hin1]; [reflexivity|].
        destruct Hin2 as [->|Hin2]; [reflexivity|].
        specialize (Hx _ Hin2). specialize (Hy _ Hin1). lia. }
      f_equal. apply IH; trivial. eapply Permutation_cons_inv, Hp.
Qed.

Lemma ranked_counts_descending (l : list fileResult) :
  StronglySorted rankedBefore l -> StronglySorted ge (map matchCount l).
Proof.
  induction 1 as [|x l Hl IH Hx]; cbn [map]; constructor; trivial.
  rewrite Forall_forall in *. intros n Hn.
  apply in_map_iff in Hn as (r & <- & Hr). apply (Hx r Hr).
Qed.

Section SearchReportProperties.
Variables cwd PROJECT_ROOT : string.
Variable rootReadable : bool.
Variable rootEntries : list dirent.
Variable readFile : fileStore.
Variable query : string.
Variable file_extensions : option (list string).
Variable case_sensitive : bool.

Local Abbreviation files :=
  (candidates cwd PROJECT_ROOT rootReadable rootEntries file_extensions).

(** X21.  Every match record of the search report is true to its
    file: the file is one of the candidates and can be read, the
    line number is the number of a line of that file that contains
    the query, the content is that line trimmed and cut to 200
    characters, and the records of a file are in the order of their
    lines. *)
Theorem search_match_records
    (completion : list string -> list string) (report : searchReport)
    (r : fileResult) :
  search_code cwd PROJECT_ROOT rootReadable rootEntries readFile
              completion query file_extensions case_sensitive
  = Ok report ->
  In r (srResults report) ->
  In (frFile r)
     (completion
        (candidates cwd PROJECT_ROOT rootReadable rootEntries
                    file_extensions))
  /\ StronglySorted lt (map smLine (frMatches r))
  /\ exists content,
      readFile (NodePath.joinPaths [PROJECT_ROOT; frFile r])
      = Some content
      /\ forall m,
          In m (frMatches r) ->
          exists line,
            1 <= smLine m
            /\ nth_error (split LF content) (smLine m - 1) = Some line
            /\ containsLiteral case_sensitive line query = true
            /\ smContent m = take 200 (trim line)
            /\ String.length (smContent m) <= 200.
Proof.
  rewrite search_code_report. intros H Hr.
  assert (srResults report
          = firstn 50 (rankedResults PROJECT_ROOT readFile case_sensitive
                         query (completion files))) as Hres
      by (inversion H; reflexivity).
  rewrite Hres in Hr. clear H Hres.
  assert (In r (rankedResults PROJECT_ROOT readFile case_sensitive query
                  (completion files))) as Hin.
  { apply (@firstn_member _ 50 _ _ Hr). }
  clear Hr.
  apply ranked_members in Hin as (f & Hf & <- & Hms & Hc & Hpos).
  split; [exact Hf|]. rewrite Hms. unfold fileMatchesOf in *.
  destruct (readFile (NodePath.joinPaths [PROJECT_ROOT; frFile r]))
    as [content|].
  - split; [apply lineMatches_increasing|].
    exists content. split; [reflexivity|]. intros m Hm.
    apply lineMatches_records in Hm as (i & line & Hn & Hl & Hq & Ht).
    exists line. rewrite Hl, Ht.
    replace (0 + i + 1 - 1) with i by lia.
    repeat split; trivial; [lia|].
    rewrite JsStringFacts.length_take. lia.
  - rewrite Hms in Hc. simpl in Hc. lia.
Qed.

(** X22.  The order in which the reads finish does not change the
    numbers of the search report: the total, the number of files
    with a match and the sequence of match counts are the same for
    any two orders, and so are the reported files when there are
    no more than 50 of them. *)
Theorem search_order_independent
    (completion completion' : list string -> list string) :
  Permutation
    (completion
       (candidates cwd PROJECT_ROOT rootReadable rootEntries
                   file_extensions))
    (candidates cwd PROJECT_ROOT rootReadable rootEntries
                file_extensions) ->
  Permutation
    (completion'
       (candidates cwd PROJECT_ROOT rootReadable rootEntries
                   file_extensions))
    (candidates cwd PROJECT_ROOT rootReadable rootEntries
                file_extensions) ->
  exists report report',
    search_code cwd PROJECT_ROOT rootReadable rootEntries readFile
                completion query file_extensions case_sensitive
    = Ok report
    /\ search_code cwd PROJECT_ROOT rootReadable rootEntries readFile
                   completion' query file_extensions case_sensitive
       = Ok report'
    /\ totalMatches report = totalMatches report'
    /\ fileCount report = fileCount report'
    /\ map matchCount (srResults report)
       = map matchCount (srResults report')
    /\ (fileCount report <= 50 ->
        Permutation (srResults report) (srResults report')).
Proof.
  intros Hp Hp'.
  assert (Permutation (completion files) (completion' files)) as Hpp
      by (etransitivity; [exact Hp|now apply Permutation_sym]).
  do 2 eexists.
  split; [apply search_code_report|].
  split; [apply search_code_report|].
  cbn [totalMatches fileCount srResults].
  set (ranked := rankedResults PROJECT_ROOT readFile case_sensitive
                   query (completion files)).
  set (ranked' := rankedResults PROJECT_ROOT readFile case_sensitive
                    query (completion' files)).
  assert (Permutation ranked ranked') as Hr.
  { unfold ranked, ranked', rankedResults.
    etransitivity; [apply sortBy_perm|].
    etransitivity; [|apply Permutation_sym, sortBy_perm].
    now apply Permutation_flat_map. }
  assert (map matchCount ranked = map matchCount ranked') as Hc.
  { apply descending_unique.
    - apply ranked_counts_descending, sortBy_ranked.
    - apply ranked_counts_descending, sortBy_ranked.
    - now apply Permutation_map. }
  repeat split.
  - apply list_sum_perm. now apply Permutation_map.
  - now apply Permutation_length.
  - rewrite <- !firstn_map. now rewrite Hc.
  - intros Hle. rewrite !firstn_all2; trivial.
    now rewrite <- (Permutation_length Hr).
Qed.

End SearchReportProperties.

(** X23.  An empty query is found on every line: the total is then
    the number of lines of all the candidate files that can be read. *)
Theorem search_empty_query
    (cwd PROJECT_ROOT : string) (rootReadable : bool)
    (rootEntries : list dirent) (readFile : fileStore)
    (completion : list string -> list string)
    (file_extensions : option (list string)) (case_sensitive : bool) :
  exists report,
    search_code cwd PROJECT_ROOT rootReadable rootEntries readFile
                completion "" file_extensions case_sensitive
    = Ok report
    /\ totalMatches report
       = list_sum
           (map (fun f =>
                   match readFile
                           (NodePath.joinPaths [PROJECT_ROOT; f]) with
                   | Some content => List.length (split LF content)
                   | None => 0
                   end)
                (completion
                   (candidates cwd PROJECT_ROOT rootReadable rootEntries
                               file_extensions))).
Proof.
  eexists. split; [apply search_code_report|].
  cbn [totalMatches]. f_equal. apply map_ext. intros f.
  unfold fileMatchesOf.
  destruct (readFile _); [|reflexivity].
  apply lineMatches_empty.
Qed.

(** X24.  An empty list of extensions is not replaced by the default
    list: the search then has no candidate file and reports nothing. *)
Theorem search_no_extensions
    (cwd PROJECT_ROOT : string) (rootReadable : bool)
    (rootEntries : list dirent) (readFile : fileStore)
    (completion : list string -> list string) (query : string)
    (case_sensitive : bool) :
  completion [] = [] ->
  search_code cwd PROJECT_ROOT rootReadable rootEntries readFile completion
              query (Some []) case_sensitive
  = Ok (SearchReport query 0 0 []).
Proof.
  intros Hc. rewrite search_code_report.
  assert (candidates cwd PROJECT_ROOT rootReadable rootEntries (Some [])
          = []) as ->.
  { unfold candidates, getFilesRecursively, walk.
    destruct rootReadable; [|reflexivity].
    induction rootEntries as [|e es IH]; [reflexivity|].
    cbn [flat_map]. rewrite IH. rewrite app_nil_r.
    apply walkEntry_no_extension. }
  rewrite Hc. reflexivity.
Qed.

Lemma search_match_records_witness :
  In (frFile (FileResult "Profile.php"
                [SearchMatch 1 "use App\Models\User;"] 1))
     (rev (candidates "/" "/srv/app" true usageProject None))
  /\ StronglySorted lt
       (map smLine
          (frMatches (FileResult "Profile.php"
                        [SearchMatch 1 "use App\Models\User;"] 1)))
  /\ exists content,
      usageFiles
        (NodePath.joinPaths
           ["/srv/app";
            frFile (FileResult "Profile.php"
                      [SearchMatch 1 "use App\Models\User;"] 1)])
      = Some content
      /\ forall m,
          In m (frMatches (FileResult "Profile.php"
                             [SearchMatch 1 "use App\Models\User;"] 1)) ->
          exists line,
            1 <= smLine m
            /\ nth_error (split LF content) (smLine m - 1) = Some line
            /\ containsLiteral false line "user" = true
            /\ smContent m = take 200 (trim line)
            /\ String.length (smContent m) <= 200.
Proof.
  apply (@search_match_records "/" "/srv/app" true usageProject usageFiles
           "user" None false (@rev string)
           (SearchReport "user" 2 2
              [FileResult "Admin.php"
                 [SearchMatch 1 "class Admin extends User"] 1;
               FileResult "Profile.php"
                 [SearchMatch 1 "use App\Models\User;"] 1])).
  - vm_compute. reflexivity.
  - right. now left.
Defined.

Lemma search_order_independent_witness :
  exists report report',
    search_code "/" "/srv/app" true usageProject usageFiles (@rev string)
                "user" None false = Ok report
    /\ search_code "/" "/srv/app" true usageProject usageFiles
                   (fun files => files) "user" None false = Ok report'
    /\ totalMatches report = totalMatches report'
    /\ fileCount report = fileCount report'
    /\ map matchCount (srResults report)
       = map matchCount (srResults report')
    /\ (fileCount report <= 50 ->
        Permutation (srResults report) (srResults report')).
Proof.
  apply (@search_order_independent "/" "/srv/app" true usageProject
           usageFiles "user" None false (@rev string) (fun files => files)).
  - apply Permutation_sym, Permutation_rev.
  - apply Permutation_refl.
Defined.

Lemma search_no_extensions_witness :
  search_code "/" "/srv/app" true usageProject usageFiles (@rev string)
              "user" (Some []) false
  = Ok (SearchReport "user" 0 0 []).
Proof.
  apply (@search_no_extensions "/" "/srv/app" true usageProject usageFiles
           (@rev string) "user" false).
  reflexivity.
Defined.

(* ================================================================== *)
(** * The parents and the members the analyzer reports *)
(* ================================================================== *)

Section MemberProperties.
Import Analysis.

(** What one pass of the loop body does to the parents and to the
    lists of members. *)
Lemma analyzeLine_members (lineNum : nat) (line : string)
                          (a : Analysis.t) (insideClass : bool) :
  let st' := analyzeLine lineNum line (a, insideClass) in
  let fresh := negb (truthyOpt (className a)) in
  constants (fst st')
  = constants a ++ match constantOf lineNum line with
                   | Some v => [v]
                   | None => []
                   end
  /\ properties (fst st')
     = properties a ++ match propertyOf lineNum line with
                       | Some v => [v]
                       | None => []
                       end
  /\ methods (fst st')
     = methods a ++ match methodOf lineNum line with
                    | Some v => [v]
                    | None => []
                    end
  /\ extends (fst st')
     = match lineMatch Patterns.classRegex line,
             lineMatch Patterns.extendsRegex line with
       | Some _, Some extendsMatch =>
           if fresh then RegExp.cap extendsMatch 1 else extends a
       | _, _ => extends a
       end
  /\ implements (fst st')
     = match lineMatch Patterns.classRegex line,
             lineMatch Patterns.implRegex line with
       | Some _, Some implMatch =>
           if fresh
           then filter truthy
                  (map trim (split ","%char (capText implMatch 1)))
           else implements a
       | _, _ => implements a
       end.
Proof.
  unfold analyzeLine, constantOf, propertyOf, methodOf.
  destruct (lineMatch Patterns.nsRegex line);
    destruct (lineMatch Patterns.useRegex line);
    destruct (lineMatch Patterns.classRegex line);
    destruct (lineMatch Patterns.extendsRegex line);
    destruct (lineMatch Patterns.implRegex line);
    destruct (lineMatch Patterns.constRegex line);
    destruct (lineMatch Patterns.propRegex line);
    destruct (lineMatch Patterns.methodRegex line);
    destruct insideClass;
    try destruct (includes (capText _ 1) backslash);
    destruct (truthyOpt (className a)) eqn:E;
    cbn -[lineMatch trim capText split]; rewrite ?E;
    cbn -[lineMatch trim capText split];
    rewrite ?app_nil_r; repeat split.
Qed.

Lemma analyzeLines_members (lines : list string) :
  forall i st,
    constants (fst (analyzeLines i lines st))
    = constants (fst st) ++ recorded constantOf i lines
    /\ properties (fst (analyzeLines i lines st))
       = properties (fst st) ++ recorded propertyOf i lines
    /\ methods (fst (analyzeLines i lines st))
       = methods (fst st) ++ recorded methodOf i lines.
Proof.
  induction lines as [|l lines IH]; intros i st.
  - cbn [analyzeLines recorded]. now rewrite !app_nil_r.
  - cbn [analyzeLines recorded]. destruct st as [a flag].
    destruct (IH (S i) (analyzeLine (i + 1) l (a, flag)))
      as (Hc & Hp & Hm).
    destruct (analyzeLine_members (i + 1) l a flag)
      as (Hc1 & Hp1 & Hm1 & _).
    cbn zeta in Hc1, Hp1, Hm1. cbn [fst].
    rewrite Hc, Hp, Hm, Hc1, Hp1, Hm1. now rewrite <- !app_assoc.
Qed.

Lemma analyzeLines_parents (lines : list string) :
  forall i st,
    classState st ->
    (snd st = false ->
     extends (fst st) = None /\ implements (fst st) = []) ->
    (extends (fst (analyzeLines i lines st)),
     implements (fst (analyzeLines i lines st)))
    = if snd st then (extends (fst st), implements (fst st))
      else match find isClassHeader lines with
           | Some header => (extendsOf header, implementsOf header)
           | None => (None, [])
           end.
Proof.
  induction lines as [|l lines IH]; intros i st Hst Hnone.
  - cbn [analyzeLines find]. destruct (snd st) eqn:E; [reflexivity|].
    now destruct (Hnone eq_refl) as [-> ->].
  - cbn [analyzeLines find].
    destruct (@analyzeLine_classState (i + 1) l st Hst)
      as (H1 & Hf1 & _).
    destruct st as [a flag]. cbn [fst snd] in *.
    destruct (analyzeLine_members (i + 1) l a flag)
      as (_ & _ & _ & He & Hi).
    cbn zeta in He, Hi.
    rewrite (IH (S i) _ H1).
    + rewrite Hf1. unfold isClassHeader, classHeaderOf in *.
      destruct flag.
      * cbn [orb]. unfold classState in Hst. cbn [fst snd] in Hst.
        rewrite Hst in He, Hi. cbn [negb] in He, Hi.
        rewrite He, Hi.
        destruct (lineMatch Patterns.classRegex l);
          destruct (lineMatch Patterns.extendsRegex l);
          destruct (lineMatch Patterns.implRegex l); reflexivity.
      * cbn [orb]. destruct (Hnone eq_refl) as [Hex Him].
        unfold classState in Hst. cbn [fst snd] in Hst.
        destruct Hst as [Hname _]. rewrite Hname in He, Hi.
        cbn [truthyOpt negb] in He, Hi. rewrite He, Hi, Hex, Him.
        unfold extendsOf, implementsOf.
        destruct (lineMatch Patterns.classRegex l);
          destruct (lineMatch Patterns.extendsRegex l);
          destruct (lineMatch Patterns.implRegex l); reflexivity.
    + rewrite Hf1. intros Hfalse. apply orb_false_iff in Hfalse as [-> Hh].
      destruct (Hnone eq_refl) as [Hex Him].
      unfold isClassHeader, classHeaderOf in Hh.
      rewrite He, Hi.
      destruct (lineMatch Patterns.classRegex l); [discriminate|].
      now split.
Qed.

Lemma analyzeContent_members (path content : string) :
  let st :=
    analyzeLines 0 (split LF content) (Analysis.initial path, false) in
  let a := analyzeContent path content in
  constants a = constants (fst st)
  /\ properties a = properties (fst st)
  /\ methods a = methods (fst st)
  /\ extends a = extends (fst st)
  /\ implements a = implements (fst st).
Proof.
  cbn zeta. unfold analyzeContent.
  destruct (analyzeLines 0 (split LF content)
              (Analysis.initial path, false)) as [a flag].
  cbn [fst].
  destruct (namespace a) as [ns|]; destruct (className a) as [cn|];
    try destruct (truthy ns && truthy cn); now repeat split.
Qed.

Lemma recorded_numbers (A : Type) (rule : nat -> string -> option A)
                       (num : A -> nat) :
  (forall n l v, rule n l = Some v -> num v = n) ->
  forall lines i,
    StronglySorted lt (map num (recorded rule i lines))
    /\ Forall (fun n => i < n <= i + List.length lines)
              (map num (recorded rule i lines)).
Proof.
  intros Hrule. induction lines as [|l lines IH]; intros i.
  - split; constructor.
  - cbn [recorded List.length]. destruct (IH (S i)) as [Hs Hb].
    assert (Forall (fun n => i < n <= i + S (List.length lines))
              (map num (recorded rule (S i) lines))) as Hb'.
    { eapply Forall_impl; [|exact Hb]. cbn beta. intros n. lia. }
    destruct (rule (i + 1) l) as [v|] eqn:E; cbn [app map].
    + apply Hrule in E. rewrite E. split.
      * constructor; trivial. eapply Forall_impl; [|exact Hb].
        cbn beta. intros n. lia.
      * constructor; trivial. lia.
    + now split.
Qed.

End MemberProperties.

Lemma analyzeContent_recorded (path content : string) :
  Analysis.constants (analyzeContent path content)
  = recorded constantOf 0 (split LF content)
  /\ Analysis.properties (analyzeContent path content)
     = recorded propertyOf 0 (split LF content)
  /\ Analysis.methods (analyzeContent path content)
     = recorded methodOf 0 (split LF content).
Proof.
  destruct (analyzeContent_members path content) as (Hc & Hp & Hm & _).
  cbn zeta in Hc, Hp, Hm.
  destruct (analyzeLines_members (split LF content) 0
              (Analysis.initial path, false)) as (Hc' & Hp' & Hm').
  cbn [fst Analysis.initial Analysis.constants Analysis.properties
       Analysis.methods app] in Hc', Hp', Hm'.
  now rewrite Hc, Hp, Hm, Hc', Hp', Hm'.
Qed.

Lemma recorded_Forall (A : Type) (rule : nat -> string -> option A)
                      (P : A -> Prop) :
  (forall n l v, rule n l = Some v -> P v) ->
  forall lines i, Forall P (recorded rule i lines).
Proof.
  intros Hrule. induction lines as [|l lines IH]; intros i; [constructor|].
  cbn [recorded]. destruct (rule (i + 1) l) as [v|] eqn:E; cbn [app].
  - constructor; [eapply Hrule, E|apply IH].
  - apply IH.
Qed.

(** X25.  The parents of the class are read from the first class-header
    line alone: [extends] and [implements] of the report are what the
    two rules capture on that line, and nothing when the line does not
    name them or when the file has no class header; a parent named on a
    later line is not reported. *)
Theorem analyzer_parents (path content : string) :
  (Analysis.extends (analyzeContent path content),
   Analysis.implements (analyzeContent path content))
  = match find isClassHeader (split LF content) with
    | Some header => (extendsOf header, implementsOf header)
    | None => (None, [])
    end.
Proof.
  destruct (analyzeContent_members path content) as (_ & _ & _ & He & Hi).
  cbn zeta in He, Hi. rewrite He, Hi.
  apply (@analyzeLines_parents (split LF content) 0
           (Analysis.initial path, false) (initial_classState path)).
  intros _. now split.
Qed.

(** X26.  Constants, properties and methods are recorded line by line,
    whether or not the line lies inside a class: each list holds one
    record for every line its rule matches, with the number of that
    line, in the order of the lines, so the line numbers of a list go
    up strictly and lie between 1 and the number of lines. *)
Theorem analyzer_members (path content : string) :
  let a := analyzeContent path content in
  let lines := split LF content in
  Analysis.constants a = recorded constantOf 0 lines
  /\ Analysis.properties a = recorded propertyOf 0 lines
  /\ Analysis.methods a = recorded methodOf 0 lines
  /\ StronglySorted lt (map Analysis.cLine (Analysis.constants a))
  /\ StronglySorted lt (map Analysis.pLine (Analysis.properties a))
  /\ StronglySorted lt (map Analysis.mLine (Analysis.methods a))
  /\ Forall (fun n => 1 <= n <= List.length lines)
       (map Analysis.cLine (Analysis.constants a)
        ++ map Analysis.pLine (Analysis.properties a)
        ++ map Analysis.mLine (Analysis.methods a)).
Proof.
  cbn zeta.
  destruct (analyzeContent_recorded path content) as (Hc & Hp & Hm).
  rewrite Hc, Hp, Hm.
  assert (forall n l v, constantOf n l = Some v -> Analysis.cLine v = n)
    as Rc.
  { unfold constantOf. intros n l v.
    destruct (lineMatch _ l); [|discriminate].
    intros H. now injection H as <-. }
  assert (forall n l v, propertyOf n l = Some v -> Analysis.pLine v = n)
    as Rp.
  { unfold propertyOf. intros n l v.
    destruct (lineMatch _ l); [|discriminate].
    intros H. now injection H as <-. }
  assert (forall n l v, methodOf n l = Some v -> Analysis.mLine v = n)
    as Rm.
  { unfold methodOf. intros n l v.
    destruct (lineMatch Patterns.methodRegex l); [|discriminate].
    intros H. now injection H as <-. }
  destruct (recorded_numbers _ _ Rc (split LF content) 0) as [Sc Bc].
  destruct (recorded_numbers _ _ Rp (split LF content) 0) as [Sp Bp].
  destruct (recorded_numbers _ _ Rm (split LF content) 0) as [Sm Bm].
  repeat split; trivial.
  repeat (apply Forall_app; split);
    (eapply Forall_impl; [|eassumption]); cbn beta; intros n; lia.
Qed.

(* ================================================================== *)
(** * What the keyword groups capture *)
(* ================================================================== *)

Module CaptureFacts.
Import RegExp JsStringFacts MatcherFacts.

Lemma step_keeps (n : nat) (A : ascii -> bool) :
  keeps n (fun k x => step x A k).
Proof.
  intros k x y H. apply step_cont in H as (d & s & _ & _ & H).
  eexists. split; [exact H|reflexivity].
Qed.

Lemma repeatMatcher_keeps (n : nat) body :
  keeps n body ->
  forall fuel, keeps n (fun k => repeatMatcher body k fuel).
Proof.
  intros Hb fuel. induction fuel as [|fuel IH]; intros k x y H.
  - now exists x.
  - cbn [repeatMatcher] in H. apply orElse_some in H as [H|H].
    + apply Hb in H as (x1 & H & E1).
      destruct (progress x x1); [|discriminate].
      apply IH in H as (x' & H & E'). exists x'.
      split; [exact H|congruence].
    + now exists x.
Qed.

Lemma m_keeps (ic : bool) (n : nat) (r : regex) :
  groupFree n r = true -> keeps n (m ic r).
Proof.
  induction r as [| c | | cl neg | neg items | | | neg
                  | r1 IH1 r2 IH2 | r1 IH1 r2 IH2 | i r1 IH1
                  | r1 IH1 | r1 IH1 | r1 IH1];
    intros Hfree k x y H; cbn [m] in H; cbn [groupFree] in Hfree.
  - now exists x.
  - match type of H with
    | step _ ?A _ = _ => exact (@step_keeps n A k x y H)
    end.
  - match type of H with
    | step _ ?A _ = _ => exact (@step_keeps n A k x y H)
    end.
  - match type of H with
    | step _ ?A _ = _ => exact (@step_keeps n A k x y H)
    end.
  - match type of H with
    | step _ ?A _ = _ => exact (@step_keeps n A k x y H)
    end.
  - destruct (prev x); [discriminate|]. now exists x.
  - destruct (rest x); [|discriminate]. now exists x.
  - destruct (xorb _ _); [|discriminate]. now exists x.
  - apply andb_true_iff in Hfree as [F1 F2].
    apply (IH1 F1) in H as (x1 & H & E1).
    apply (IH2 F2) in H as (x2 & H & E2).
    exists x2. split; [exact H|congruence].
  - apply andb_true_iff in Hfree as [F1 F2].
    apply orElse_some in H as [H|H];
      [apply (IH1 F1) in H|apply (IH2 F2) in H]; exact H.
  - apply andb_true_iff in Hfree as [Hi F1].
    apply negb_true_iff in Hi.
    apply (IH1 F1) in H as (x1 & H & E1). eexists. split; [exact H|].
    cbn [caps lookupCap]. now rewrite Hi.
  - now apply (repeatMatcher_keeps (IH1 Hfree)) in H.
  - apply (IH1 Hfree) in H as (x1 & H & E1).
    apply (repeatMatcher_keeps (IH1 Hfree)) in H as (x2 & H & E2).
    exists x2. split; [exact H|congruence].
  - apply orElse_some in H as [H|H].
    + apply (IH1 Hfree) in H as (x1 & H & E1).
      destruct (progress x x1); [|discriminate]. now exists x1.
    + now exists x.
Qed.

(** Behind a first part without the group, the second part matches
    with the capture of the group unchanged. *)
Lemma m_keeps_seq (ic : bool) (n : nat) (r1 r2 : regex) k x y :
  groupFree n r1 = true ->
  m ic (Seq r1 r2) k x = Some y ->
  exists x1, m ic r2 k x1 = Some y
             /\ lookupCap n (caps x1) = lookupCap n (caps x).
Proof.
  intros Hfree. rewrite m_Seq. intros H.
  exact (@m_keeps ic n r1 Hfree _ x y H).
Qed.

Lemma advance_exact (q : string) :
  forall x t,
    rest x = (q ++ t)%string ->
    rest (advance x q) = t /\ caps (advance x q) = caps x.
Proof.
  induction q as [|c q IH]; intros x t H; [now split|].
  cbn [advance]. rewrite H. cbn [append].
  apply (IH (MState (Some c) (q ++ t) (caps x)) t). reflexivity.
Qed.

Lemma consumed_advance (q : string) (x : mstate) :
  startsWith (rest x) q = true ->
  consumed x (advance x q) = q /\ caps (advance x q) = caps x.
Proof.
  intros H. apply startsWith_spec in H as [t Ht].
  destruct (@advance_exact q x t Ht) as [Hr Hc]. split; trivial.
  unfold consumed. rewrite Hr, Ht, length_append.
  replace (String.length q + String.length t - String.length t)
    with (String.length q) by lia.
  apply take_append.
Qed.

(** A group over an alternative of literal texts captures one of
    them. *)
Lemma anyOf_capture (n : nat) (qs : list string) k x y :
  forall q,
    m false (Group n (anyOf q qs)) k x = Some y ->
    exists w x',
      In w (q :: qs) /\ k x' = Some y /\ caps x' = (n, w) :: caps x.
Proof.
  assert (forall q,
             m false (literalPattern q)
               (fun z => k (MState (prev z) (rest z)
                                   ((n, consumed x z) :: caps z))) x
             = Some y ->
             exists x', k x' = Some y /\ caps x' = (n, q) :: caps x)
    as Hlit.
  { intros q. rewrite RegExpFacts.m_literal. unfold normalizeCase.
    destruct (startsWith (rest x) q) eqn:E; [|discriminate].
    destruct (@consumed_advance q x E) as [-> ->].
    intros H. eexists. split; [exact H|reflexivity]. }
  intros q. rewrite m_Group. revert q.
  induction qs as [|q' qs IH]; intros q H; cbn [anyOf] in H.
  - apply Hlit in H as (x' & H & E). exists q, x'.
    repeat split; trivial. now left.
  - cbn [m] in H. apply orElse_some in H as [H|H].
    + apply Hlit in H as (x' & H & E). exists q, x'.
      repeat split; trivial. now left.
    + apply IH in H as (w & x' & Hw & H & E). exists w, x'.
      repeat split; trivial. now right.
Qed.

Lemma group_keyword (n : nat) (q : string) (qs : list string)
                    (r : regex) x y :
  groupFree n r = true ->
  m false (Seq (Group n (anyOf q qs)) r) Some x = Some y ->
  exists w, In w (q :: qs) /\ lookupCap n (caps y) = Some w.
Proof.
  intros Hfree. rewrite m_Seq. intros H.
  apply anyOf_capture in H as (w & x' & Hw & H & E).
  apply (@m_keeps false n r Hfree) in H as (x2 & H & E2).
  injection H as <-. exists w. split; trivial.
  rewrite E2, E. cbn [lookupCap]. now rewrite Nat.eqb_refl.
Qed.

Lemma optional_keyword (n : nat) (q : string) (qs : list string)
                       (r : regex) x y :
  groupFree n r = true ->
  m false (Seq (Opt (Group n (anyOf q qs))) r) Some x = Some y ->
  lookupCap n (caps y) = lookupCap n (caps x)
  \/ exists w, In w (q :: qs) /\ lookupCap n (caps y) = Some w.
Proof.
  intros Hfree. rewrite m_Seq. intros H.
  change (m false (Opt (Group n (anyOf q qs)))
            (fun y0 => m false r Some y0) x)
    with (orElse
            (m false (Group n (anyOf q qs))
               (fun y0 => if progress x y0 then m false r Some y0
                          else None) x)
            (m false r Some x)) in H.
  apply orElse_some in H as [H|H].
  - right. apply anyOf_capture in H as (w & x' & Hw & H & E).
    destruct (progress x x'); [|discriminate].
    apply (@m_keeps false n r Hfree) in H as (x2 & H & E2).
    injection H as <-. exists w. split; trivial.
    rewrite E2, E. cbn [lookupCap]. now rewrite Nat.eqb_refl.
  - left. apply (@m_keeps false n r Hfree) in H as (x2 & H & E2).
    injection H as <-. exact E2.
Qed.

Lemma lineMatch_found (r : regex) (line : string) (mr : matchResult) :
  lineMatch r line = Some mr ->
  exists before s y,
    m false r Some (MState before s []) = Some y
    /\ captures mr = caps y.
Proof.
  unfold lineMatch, exec. intros H.
  destruct (scan false r None line) as [[i y]|] eqn:Es; [|discriminate].
  injection H as <-. apply scan_found in Es as (before & s & Hm).
  exists before, s, y. now split.
Qed.

Lemma propRegex_visibility (line : string) (mr : matchResult) :
  lineMatch Patterns.propRegex line = Some mr ->
  exists w, In w visibilities /\ cap mr 1 = Some w.
Proof.
  intros H. apply lineMatch_found in H as (before & s & y & Hm & Hc).
  unfold cap. rewrite Hc. unfold Patterns.propRegex in Hm.
  apply m_keeps_seq with (n := 1) in Hm as (x1 & Hm & _);
    [|reflexivity].
  apply m_keeps_seq with (n := 1) in Hm as (x2 & Hm & _);
    [|reflexivity].
  apply (@group_keyword 1 "public" ["protected"; "private"]) in Hm;
    [exact Hm|reflexivity].
Qed.

Lemma methodRegex_visibility (line : string) (mr : matchResult) :
  lineMatch Patterns.methodRegex line = Some mr ->
  exists w, In w visibilities /\ cap mr 1 = Some w.
Proof.
  intros H. apply lineMatch_found in H as (before & s & y & Hm & Hc).
  unfold cap. rewrite Hc. unfold Patterns.methodRegex in Hm.
  apply m_keeps_seq with (n := 1) in Hm as (x1 & Hm & _);
    [|reflexivity].
  apply m_keeps_seq with (n := 1) in Hm as (x2 & Hm & _);
    [|reflexivity].
  apply (@group_keyword 1 "public" ["protected"; "private"]) in Hm;
    [exact Hm|reflexivity].
Qed.

Lemma constRegex_visibility (line : string) (mr : matchResult) :
  lineMatch Patterns.constRegex line = Some mr ->
  cap mr 1 = None \/ exists w, In w visibilities /\ cap mr 1 = Some w.
Proof.
  intros H. apply lineMatch_found in H as (before & s & y & Hm & Hc).
  unfold cap. rewrite Hc. unfold Patterns.constRegex in Hm.
  apply m_keeps_seq with (n := 1) in Hm as (x1 & Hm & E1);
    [|reflexivity].
  apply m_keeps_seq with (n := 1) in Hm as (x2 & Hm & E2);
    [|reflexivity].
  apply (@optional_keyword 1 "public" ["protected"; "private"]) in Hm
      as [Hm|Hm]; [|now right|reflexivity].
  left. now rewrite Hm, E2, E1.
Qed.

Lemma classRegex_kind (line : string) (mr : matchResult) :
  lineMatch Patterns.classRegex line = Some mr ->
  exists w, In w classKinds /\ cap mr 3 = Some w.
Proof.
  intros H. apply lineMatch_found in H as (before & s & y & Hm & Hc).
  unfold cap. rewrite Hc. unfold Patterns.classRegex in Hm.
  do 4 (apply m_keeps_seq with (n := 3) in Hm as (? & Hm & _);
        [|reflexivity]).
  apply (@group_keyword 3 "class" ["interface"; "trait"; "enum"]) in Hm;
    [exact Hm|reflexivity].
Qed.

End CaptureFacts.

Lemma firstSome_member (A : Type) (f : string -> option A)
                       (lines : list string) (v : A) :
  firstSome (map f lines) = Some v ->
  exists line, In line lines /\ f line = Some v.
Proof.
  induction lines as [|l lines IH]; [discriminate|].
  cbn [map firstSome]. destruct (f l) as [w|] eqn:E.
  - intros H. injection H as <-. exists l. split; [now left|exact E].
  - intros H. apply IH in H as (line & Hin & Hf). exists line.
    split; [now right|exact Hf].
Qed.

(** X27.  The keywords of the report come from the closed lists of the
    rules: the visibility of every constant, property and method is
    [public], [protected] or [private], a constant without a keyword
    counting as [public], and the kind of the class, where one is
    reported, is [class], [interface], [trait] or [enum]. *)
Theorem analyzer_keywords (path content : string) :
  Forall (fun c => In (Analysis.cVisibility c) visibilities)
    (Analysis.constants (analyzeContent path content))
  /\ Forall (fun p => In (Analysis.pVisibility p) visibilities)
       (Analysis.properties (analyzeContent path content))
  /\ Forall (fun f => In (Analysis.mVisibility f) visibilities)
       (Analysis.methods (analyzeContent path content))
  /\ match Analysis.classType (analyzeContent path content) with
     | Some kind => In kind classKinds
     | None => Analysis.className (analyzeContent path content) = None
     end.
Proof.
  destruct (analyzeContent_recorded path content) as (Hc & Hp & Hm).
  rewrite Hc, Hp, Hm. repeat split.
  - apply recorded_Forall. intros n l v. unfold constantOf.
    destruct (lineMatch Patterns.constRegex l) as [mr|] eqn:E;
      [|discriminate].
    intros H. injection H as <-. cbn [Analysis.cVisibility].
    destruct (@CaptureFacts.constRegex_visibility _ _ E) as [Hn|(w & Hw & Hs)].
    + rewrite Hn. cbn [truthyOpt]. now left.
    + rewrite Hs. unfold capText. rewrite Hs. cbn [truthyOpt].
      destruct (truthy w); [exact Hw|now left].
  - apply recorded_Forall. intros n l v. unfold propertyOf.
    destruct (lineMatch Patterns.propRegex l) as [mr|] eqn:E;
      [|discriminate].
    intros H. injection H as <-. cbn [Analysis.pVisibility].
    destruct (@CaptureFacts.propRegex_visibility _ _ E) as (w & Hw & Hs).
    unfold capText. now rewrite Hs.
  - apply recorded_Forall. intros n l v. unfold methodOf.
    destruct (lineMatch Patterns.methodRegex l) as [mr|] eqn:E;
      [|discriminate].
    intros H. injection H as <-. cbn [Analysis.mVisibility].
    destruct (@CaptureFacts.methodRegex_visibility _ _ E) as (w & Hw & Hs).
    unfold capText. now rewrite Hs.
  - destruct (analyzeContent_fields path content) as (_ & Hn & Hk & _).
    cbn zeta in Hn, Hk. rewrite Hn, Hk.
    destruct (@analyzeLines_classState (split LF content) 0 _
                (initial_classState path)) as (_ & _ & H).
    cbn [snd] in H.
    destruct (firstSome (map classHeaderOf (split LF content)))
      as [header|] eqn:E.
    + apply firstSome_member in E as (line & _ & Hh).
      unfold classHeaderOf in Hh.
      destruct (lineMatch Patterns.classRegex line) as [mr|] eqn:Em;
        [|discriminate].
      injection Hh as <-. injection H as -> _.
      destruct (@CaptureFacts.classRegex_kind _ _ Em) as (w & Hw & ->).
      exact Hw.
    + injection H as -> ->. reflexivity.
Qed.

(* ================================================================== *)
(** * The short name of the usage finder *)
(* ================================================================== *)

Lemma split_app_sep (c : ascii) (a b : string) :
  split c (a ++ String c b) = split c a ++ split c b.
Proof.
  induction a as [|d a IH]; cbn [append split].
  - now rewrite Ascii.eqb_refl.
  - destruct (Ascii.eqb d c); [now rewrite IH|].
    rewrite IH. pose proof (JsStringFacts.split_not_nil c a) as Hn.
    destruct (split c a); [contradiction|reflexivity].
Qed.

Lemma split_free (c : ascii) (n : string) :
  includes n (String c "") = false -> split c n = [n].
Proof.
  induction n as [|d n IH]; intros H; [reflexivity|].
  rewrite JsStringFacts.includes_unfold in H.
  apply orb_false_iff in H as [Hd Hn]. cbn [startsWith] in Hd.
  rewrite andb_true_r in Hd. cbn [split]. rewrite Hd.
  now rewrite IH.
Qed.

Lemma shortNameOf_qualified (ns name : string) :
  includes name backslash = false ->
  shortNameOf (ns ++ backslash ++ name) = name
  /\ shortNameOf name = name.
Proof.
  intros H. unfold shortNameOf. rewrite H. split; [|reflexivity].
  assert (includes (ns ++ backslash ++ name) backslash = true) as ->
      by (apply JsStringFacts.includes_spec; now exists ns, name).
  unfold backslash. cbn [append].
  rewrite split_app_sep, (@split_free _ _ H).
  unfold last. apply last_last.
Qed.

(** X28.  The usage finder looks for the last segment of the class name:
    a name qualified by a namespace and the bare name give the same
    short name, the same four lists and the same total; the two reports
    differ in the class name they repeat, and in nothing else. *)
Theorem usage_short_name
    (cwd PROJECT_ROOT : string) (rootReadable : bool)
    (rootEntries : list dirent) (readFile : fileStore)
    (completion : list string -> list string) (ns name : string) :
  includes name backslash = false ->
  find_class_usages cwd PROJECT_ROOT rootReadable rootEntries readFile
                    completion (ns ++ backslash ++ name)
  = option_map
      (fun bare =>
         Usages.Report (ns ++ backslash ++ name) name
                       (Usages.totalUsages bare) (Usages.lists bare))
      (find_class_usages cwd PROJECT_ROOT rootReadable rootEntries
                         readFile completion name)
  /\ forall bare,
      find_class_usages cwd PROJECT_ROOT rootReadable rootEntries
                        readFile completion name = Some bare ->
      Usages.shortName bare = name.
Proof.
  intros H. destruct (@shortNameOf_qualified ns name H) as [Hq Hb].
  unfold find_class_usages. rewrite Hq, Hb.
  destruct (fold_left _ _ _) as [results|]; cbn [option_map].
  - split; [reflexivity|]. now intros bare [= <-].
  - split; [reflexivity|]. discriminate.
Qed.

Lemma usage_short_name_witness :
  find_class_usages "/" "/srv/app" true usageProject usageFiles
                    (@rev string) ("App\Models" ++ backslash ++ "User")
  = Some (Usages.Report "App\Models\User" "User" 2
            (Usages.Make
               [Usages.Usage "Profile.php" 1 "use App\Models\User;"]
               [Usages.Usage "Admin.php" 1 "class Admin extends User"]
               [] [])).
Proof.
  rewrite (proj1 (@usage_short_name "/" "/srv/app" true usageProject
                    usageFiles (@rev string) "App\Models" "User"
                    eq_refl)).
  reflexivity.
Defined.

(** X29.  The short name goes into the patterns as it is.  When the
    constructor rejects the first pattern built from it with a
    SyntaxError, the error ends the scan of every file at its first
    line and is dropped: the finder reports no usage at all, and no
    error. *)
Theorem usage_uncompilable
    (cwd PROJECT_ROOT : string) (rootReadable : bool)
    (rootEntries : list dirent) (readFile : fileStore)
    (completion : list string -> list string) (class_name : string) :
  Pattern.parsePattern (importPattern (shortNameOf class_name))
  = Pattern.SyntaxError ->
  find_class_usages cwd PROJECT_ROOT rootReadable rootEntries readFile
                    completion class_name
  = Some (Usages.Report class_name (shortNameOf class_name) 0
                        Usages.empty).
Proof.
  intros H. unfold find_class_usages.
  assert (forall scanned r,
             fold_left (usageFile PROJECT_ROOT readFile
                          (shortNameOf class_name)) scanned (Some r)
             = Some r)
    as Hfold.
  { intros scanned. induction scanned as [|f scanned IH]; intros r;
      [reflexivity|].
    cbn [fold_left]. rewrite <- (IH r) at 2. f_equal.
    unfold usageFile.
    destruct (readFile _) as [content|]; [|reflexivity].
    pose proof (JsStringFacts.split_not_nil LF content) as Hn.
    destruct (split LF content) as [|l lines]; [contradiction|].
    cbn [usageLines]. unfold usageLine, check, testInsensitive.
    rewrite H. reflexivity. }
  rewrite Hfold. reflexivity.
Qed.

Lemma usage_uncompilable_witness :
  Pattern.parsePattern (importPattern (shortNameOf "User("))
  = Pattern.SyntaxError
  /\ find_class_usages "/" "/srv/app" true usageProject usageFiles
                       (@rev string) "User("
     = Some (Usages.Report "User(" "User(" 0 Usages.empty).
Proof.
  split; [reflexivity|].
  apply (@usage_uncompilable "/" "/srv/app" true usageProject usageFiles
           (@rev string) "User(").
  reflexivity.
Defined.

(* ================================================================== *)
(** * The changes of a replacement *)
(* ================================================================== *)

Lemma replaceLines_recorded (search replace : string)
                            (lines : list string) :
  forall index,
    snd (replaceLines search replace index lines)
    = recorded (changeOf search replace) index lines.
Proof.
  induction lines as [|line lines IH]; intros index; [reflexivity|].
  cbn [replaceLines recorded]. rewrite <- (IH (S index)).
  unfold replaceLine, changeOf.
  destruct (replaceLines search replace (S index) lines)
    as [newLines changes].
  now destruct (includes line search).
Qed.

(** X30.  When a line of the file contains the search text, the report
    of [search_and_replace] lists one change for every such line, with
    the number of the line and the line before and after, both trimmed,
    in the order of the lines; the number in the message counts these
    lines, not the occurrences replaced. *)
Theorem replace_report
    (cwd PROJECT_ROOT : string) (st : fileStore)
    (path search replace filePath content : string) :
  resolvePath cwd PROJECT_ROOT path = Ok filePath ->
  st filePath = Some content ->
  existsb (fun line => includes line search) (split LF content) = true ->
  let changes := recorded (changeOf search replace) 0 (split LF content) in
  fst (search_and_replace cwd PROJECT_ROOT st path search replace)
  = Ok (ReplaceReport path
          ("Replaced "
           ++ showNat (List.length
                         (filter (fun line => includes line search)
                                 (split LF content)))
           ++ " occurrence(s)")%string
          changes)
  /\ StronglySorted lt (map chLine changes)
  /\ Forall (fun n => 1 <= n <= List.length (split LF content))
       (map chLine changes).
Proof.
  intros Hr Hc Hex changes. unfold search_and_replace. rewrite Hr, Hc.
  pose proof (replaceLines_recorded search replace (split LF content) 0)
    as Hrec.
  destruct (replaceLines_spec search replace (split LF content) 0)
    as [_ Hlen].
  destruct (replaceLines search replace 0 (split LF content))
    as [newLines found].
  cbn [fst snd] in *. fold changes in Hrec. subst found.
  assert (forall n l v, changeOf search replace n l = Some v ->
                        chLine v = n) as Hrule.
  { unfold changeOf. intros n l v. destruct (includes l search);
      [|discriminate]. intros H. now injection H as <-. }
  destruct (recorded_numbers _ _ Hrule (split LF content) 0) as [Hs Hb].
  fold changes in Hs, Hb.
  split; [|split; [exact Hs|]].
  - destruct changes as [|c changes'] eqn:E.
    + exfalso. apply (filter_cons_existsb _ _ Hex).
      apply length_zero_iff_nil. now rewrite <- Hlen.
    + cbn [fst]. now rewrite Hlen.
  - eapply Forall_impl; [|exact Hb]. cbn beta. intros n. lia.
Qed.

Lemma replace_report_witness :
  fst (search_and_replace "/" "/srv/app" sampleStore "notes.txt" "o" "0")
  = Ok (ReplaceReport "notes.txt"
          ("Replaced "
           ++ showNat (List.length
                         (filter (fun line => includes line "o")
                                 (split LF sampleNotes)))
           ++ " occurrence(s)")%string
          (recorded (changeOf "o" "0") 0 (split LF sampleNotes)))
  /\ StronglySorted lt
       (map chLine (recorded (changeOf "o" "0") 0 (split LF sampleNotes)))
  /\ Forall (fun n => 1 <= n <= List.length (split LF sampleNotes))
       (map chLine (recorded (changeOf "o" "0") 0 (split LF sampleNotes))).
Proof.
  apply (@replace_report "/" "/srv/app" sampleStore "notes.txt" "o" "0"
           "/srv/app/notes.txt" sampleNotes);
    reflexivity.
Defined.
